(** * Order fulfilment and profit settlement: a model of [orderProcessor.js]

    The development embeds [src/backend/src/services/orderProcessor.js]
    (together with the batch trigger of [src/services/scheduler.js] and
    [getDatabase] of the database module) and settles the properties the
    specification states about the order pipeline.

    - JavaScript numbers are IEEE 754 binary64 values: Rocq's primitive
      floats.
    - The asynchronous code runs sequentially (every call is awaited), so
      it is embedded in a state-and-exception monad over a [World] holding
      the store's tables and the chronological log of observable events.
    - The collaborators that live outside the repository (the store
      client, the payment processor, the clock and the random source) are
      oracles collected in an [Env]; they may answer differently at every
      call because they read the whole [World].

    Besides the order pipeline the file models, each in a module of its
    own, the search for trending products ([trendingProducts.js]), the
    database module ([config/database.js]), the pure parts of the
    scheduler ([scheduler.js]), the product analysis
    ([productAnalysis.js]), two handlers of the product controller, and
    the status and tracking functions of [orderProcessor.js].

    The file first gives the model and the definitions the statements
    use, then the lemmas and the theorems. *)

From Stdlib Require Import Floats ZArith Bool Ascii String DecimalString DecimalPos Lia.
From stdpp Require Import gmap strings list fin_maps sorting.

Local Open Scope Z_scope.

(** ** JavaScript numbers *)

Module JS.

(** [parseFloat(x)] for a value the store delivers as a JSON number: the
    argument is converted to its shortest round-tripping decimal string
    and parsed back, which is the identity except that [-0] prints as
    ["0"] and so comes back as [+0]. *)
Definition parseFloat (x : float) : float :=
  if PrimFloat.is_zero x then PrimFloat.zero else x.

(** Truthiness of a number: [0], [-0] and [NaN] are falsy. *)
Definition truthy (x : float) : bool :=
  negb (PrimFloat.is_zero x || PrimFloat.is_nan x).

(** [v || d] where [v] is a number or is missing ([undefined] / [null],
    here [None]). *)
Definition or_default (v : option float) (d : float) : float :=
  match v with
  | Some x => if truthy x then x else d
  | None => d
  end.

(** ASCII part of [String.prototype.toLowerCase]. *)
Definition lower_ascii (c : ascii) : ascii :=
  let n := nat_of_ascii c in
  if (Nat.leb 65 n && Nat.leb n 90)%bool then ascii_of_nat (n + 32) else c.

Fixpoint toLowerCase (s : string) : string :=
  match s with
  | EmptyString => EmptyString
  | String c r => String (lower_ascii c) (toLowerCase r)
  end.

(** [Math.round(x)]: the integer nearest to [x], ties towards
    [+Infinity]; [NaN], the infinities and the zeros are returned as
    they are, and a negative argument that rounds to zero gives [-0]. *)
Definition Z2float (n : Z) : float :=
  match n with
  | Z0 => PrimFloat.zero
  | Zpos _ => PrimFloat.of_uint63 (Uint63.of_Z n)
  | Zneg _ => PrimFloat.opp (PrimFloat.of_uint63 (Uint63.of_Z (- n)))
  end.

Definition Math_round (x : float) : float :=
  match Prim2SF x with
  | S754_finite s m e =>
      if 0 <=? e then x
      else
        let num := (if s then - Zpos m else Zpos m) * 2 + 2 ^ (- e) in
        let n := num / 2 ^ (- e + 1) in
        if (n =? 0) && s then PrimFloat.neg_zero else Z2float n
  | _ => x
  end.

End JS.

(** ** Data model *)

(** A thrown value; the code only ever reads its [message]. *)
Record Error := mkError { message : string }.

(** A field that holds a string, holds [null], or is missing
    ([undefined]). *)
Inductive Field :=
| Missing
| Null
| Given (s : string).

(** A row of [order_items]; the key of the row is kept outside. *)
Record ItemRow := mkItemRow {
  item_order_id : string;
  product_id : string;
  quantity : Z;
  unit_price : float;
  total_price : float;
  profit_margin : option float;      (* [None]: the field is missing *)
  supplier : Field;
  shipping_address : string;
  supplier_order_id : option string;
  supplier_status : string
}.

(** An item as the pipeline holds it in memory: [item.id] and the row. *)
Record OrderItem := mkOrderItem {
  item_id : string;
  item_row :> ItemRow
}.

(** A row of [orders]; timestamps are milliseconds since the epoch. *)
Record OrderRow := mkOrderRow {
  order_number : string;
  total_amount : float;
  profit_amount : float;
  status : string;
  payment_status : string;
  payment_method : string;
  stripe_payment_id : string;
  error_message : option string;
  created_at : Z;
  updated_at : Z
}.

(** An order as the select returns it: [order.id], the row and the nested
    [order_items] ([None] stands for a missing / null field). *)
Record Order := mkOrder {
  order_id : string;
  order_row :> OrderRow;
  order_items : option (list OrderItem)
}.

(** The object built by [createSupplierOrder]. *)
Record SupplierOrder := mkSupplierOrder {
  so_id : string;
  so_supplier : Field;
  so_product_id : string;
  so_quantity : Z;
  so_unit_price : float;
  so_shipping_address : string;
  so_total_amount : float;
  so_status : string;
  so_estimated_delivery : Z
}.

(** A row of [profit_transfers]. *)
Record ProfitTransfer := mkProfitTransfer {
  pt_order_id : string;
  pt_amount : float;
  pt_method : string;
  pt_transfer_id : string;
  pt_status : string;
  pt_created_at : Z;
  pt_notes : option string
}.

(** ** Profit calculator *)

Section Profit.
Local Open Scope float_scope.

(** [calculateProfit], lines 124-141; [itemProfit] is the body of its
    [reduce]. *)
Definition itemProfit (item : OrderItem) : float :=
  JS.parseFloat (total_price item) * JS.or_default (profit_margin item) 0.25.

Definition calculateProfit (order : Order) : float :=
  let totalAmount := JS.parseFloat (total_amount order) in
  let profitMargin := 0.25 in
  match order_items order with
  | Some ((_ :: _) as items) =>
      fold_left (fun sum item => sum + itemProfit item) items 0
  | _ => totalAmount * profitMargin
  end.

(** The calculator as the specification words it: the margin fraction
    of an item is its explicit margin whenever one is set. *)
Definition margin_fraction_spec (item : OrderItem) : float :=
  match profit_margin item with
  | Some m => m
  | None => 0.25
  end.

Definition calculateProfit_spec (order : Order) : float :=
  match order_items order with
  | Some ((_ :: _) as items) =>
      fold_left
        (fun sum (item : OrderItem) =>
           sum + JS.parseFloat (total_price item) * margin_fraction_spec item)
        items 0
  | _ => JS.parseFloat (total_amount order) * 0.25
  end.

End Profit.

(** ** The store *)

(** The fields an [update] on [orders] may set; [None] leaves the column
    as it is. *)
Record OrderPatch := mkOrderPatch {
  p_status : option string;
  p_payment_status : option string;
  p_profit_amount : option float;
  p_error_message : option string;
  p_updated_at : option Z
}.

Definition apply_patch (p : OrderPatch) (r : OrderRow) : OrderRow :=
  {| order_number := order_number r;
     total_amount := total_amount r;
     profit_amount := default (profit_amount r) (p_profit_amount p);
     status := default (status r) (p_status p);
     payment_status := default (payment_status r) (p_payment_status p);
     payment_method := payment_method r;
     stripe_payment_id := stripe_payment_id r;
     error_message :=
       match p_error_message p with
       | Some m => Some m
       | None => error_message r
       end;
     created_at := created_at r;
     updated_at := default (updated_at r) (p_updated_at p) |}.

Definition mark_ordered (so : string) (r : ItemRow) : ItemRow :=
  {| item_order_id := item_order_id r;
     product_id := product_id r;
     quantity := quantity r;
     unit_price := unit_price r;
     total_price := total_price r;
     profit_margin := profit_margin r;
     supplier := supplier r;
     shipping_address := shipping_address r;
     supplier_order_id := Some so;
     supplier_status := "ordered" |}.

(** The three writes the pipeline issues:
    [from('orders').update(patch).eq('id', id)],
    [from('order_items').update({supplier_order_id, supplier_status:
    'ordered'}).eq('id', id)] and [from('profit_transfers').insert(t)]. *)
Inductive StoreOp :=
| UpdateOrder (id : string) (patch : OrderPatch)
| UpdateItem (id : string) (so : string)
| InsertTransfer (t : ProfitTransfer).

Record Db := mkDb {
  db_orders : gmap string OrderRow;
  db_order_items : gmap string ItemRow;
  db_profit_transfers : list ProfitTransfer
}.

(** An update addressed to a missing key changes nothing. *)
Definition apply_op (op : StoreOp) (d : Db) : Db :=
  match op with
  | UpdateOrder id patch =>
      mkDb (alter (apply_patch patch) id (db_orders d))
           (db_order_items d) (db_profit_transfers d)
  | UpdateItem id so =>
      mkDb (db_orders d) (alter (mark_ordered so) id (db_order_items d))
           (db_profit_transfers d)
  | InsertTransfer t =>
      mkDb (db_orders d) (db_order_items d) (db_profit_transfers d ++ [t])
  end.

(** What an awaited store call can do: take effect, resolve with an
    [error] field the caller does not look at (nothing is written), or
    reject. *)
Inductive StoreOutcome :=
| Applied
| Rejected
| Raises (e : Error).

(** The select of [processOrders]:
    [.eq('status', 'pending').order('created_at', {ascending: true})
    .limit(10)], each order with its [order_items] joined in. *)
Definition items_of (d : Db) (oid : string) : list OrderItem :=
  (fun kv : string * ItemRow => mkOrderItem kv.1 kv.2) <$>
    filter (fun kv : string * ItemRow => item_order_id kv.2 = oid)
           (map_to_list (db_order_items d)).

Definition older (a b : string * OrderRow) : Prop :=
  created_at a.2 ≤ created_at b.2.

#[global] Instance older_dec a b : Decision (older a b).
Proof. unfold older. apply _. Defined.

Definition pending_rows (d : Db) : list (string * OrderRow) :=
  take 10 (merge_sort older
             (filter (fun kv : string * OrderRow => status kv.2 = "pending")
                     (map_to_list (db_orders d)))).

Definition pending_orders (d : Db) : list Order :=
  (fun kv : string * OrderRow => mkOrder kv.1 kv.2 (Some (items_of d kv.1))) <$>
    pending_rows d.

(** ** Observable events *)

(** The request of [stripe.payouts.create]. *)
Record PayoutRequest := mkPayoutRequest {
  po_amount : float;             (* [Math.round(profitAmount * 100)] *)
  po_currency : string;
  po_order_id : string;
  po_order_number : string;
  po_profit_amount : float
}.

(** One constructor per [console.log] call site, with the values it
    interpolates. *)
Inductive LogLine :=
| LogProcessingBatch (n : nat)
| LogBatchCompleted
| LogProcessingOrder (number : string)
| LogOrderProcessed (number : string)
| LogPaymentProcessed (number : string)
| LogCreatedSupplierOrder (id : string) (units : Z)
| LogNoProfit
| LogProfitTransferInitiated (amount : float) (number : string)
| LogStripePayout (id : string).

(** One constructor per [console.error] call site. *)
Inductive ErrLine :=
| ErrPendingOrders (e : Error)                       (* scheduler.js *)
| ErrOrderProcessing (e : Error)
| ErrProcessingOrder (id : string) (e : Error)
| ErrPaymentFailed (number : string) (e : Error)
| ErrSupplierOrder (item : string) (e : Error)
| ErrProfitTransfer (number : string) (e : Error)
| ErrStripeTransfer (e : Error).

(** What a run leaves in the log: the console lines, the calls to the
    processor, the writes on the store with their outcome, and two markers
    that make calls visible: the entry of [processPayment] and the return
    of [createSupplierOrder] (the place where the supplier's interface
    would be called). *)
Inductive Event :=
| EvLog (l : LogLine)
| EvError (l : ErrLine)
| EvProcessPayment (id : string)         (* entry of [processPayment] *)
| EvRetrieve (ref : string)              (* [paymentIntents.retrieve] *)
| EvSupplierOrder (item : OrderItem) (so : SupplierOrder)
                                         (* [createSupplierOrder] returned *)
| EvPayout (req : PayoutRequest)         (* [payouts.create] *)
| EvStore (op : StoreOp) (out : StoreOutcome).

Record World := mkWorld {
  db : Db;
  log : list Event
}.

(** What a call ends with. *)
Inductive Completion (A : Type) :=
| Normal (a : A)
| Throw (e : Error).
Arguments Normal {A} a.
Arguments Throw {A} e.

(** The collaborators. *)
Record Env := mkEnv {
  stripe : bool;                  (* [STRIPE_SECRET_KEY] was set *)
  db_initialized : bool;          (* [initializeDatabase] has run *)
  select_error : World -> option Error;
  store_fault : World -> StoreOp -> StoreOutcome;
  paymentIntents_retrieve : World -> string -> Completion string;
  payouts_create : World -> PayoutRequest -> Completion string;
  fresh_id : World -> string;     (* [Date.now()] digits and [Math.random()] *)
  Date_now : World -> Z;
  LocalTZA : Z -> bool -> Z       (* the host's offset from UTC in ms, at a time
                                     that is UTC ([true]) or local ([false]) *)
}.

(** ** The monad of awaited calls

    A computation reads and extends the [World] and either returns or
    throws. What was done before a throw stays done. *)

Definition M (A : Type) : Type := World -> Completion A * World.

Definition ret {A} (a : A) : M A := fun w => (Normal a, w).

Definition throw {A} (e : Error) : M A := fun w => (Throw e, w).

Definition bind {A B} (m : M A) (k : A -> M B) : M B :=
  fun w =>
    match m w with
    | (Normal a, w') => k a w'
    | (Throw e, w') => (Throw e, w')
    end.

(** [try { m } catch (error) { h error }] *)
Definition try_catch {A} (m : M A) (h : Error -> M A) : M A :=
  fun w =>
    match m w with
    | (Normal a, w') => (Normal a, w')
    | (Throw e, w') => h e w'
    end.

Declare Scope js_scope.
Delimit Scope js_scope with js.
Notation "'let*' x ':=' m 'in' k" := (bind m (fun x => k))
  (at level 10, x name, m at level 100, k at level 200) : js_scope.
Notation "m ';;' k" := (bind m (fun _ => k))
  (at level 100, k at level 200, right associativity) : js_scope.
Local Open Scope js_scope.

Definition emit (ev : Event) : M unit :=
  fun w => (Normal tt, mkWorld (db w) (log w ++ [ev])).

Definition console_log (l : LogLine) : M unit := emit (EvLog l).
Definition console_error (l : ErrLine) : M unit := emit (EvError l).

(** The names every object has: a table written as an object literal
    answers to them, in lower case as the pipeline looks them up, with a
    member of [Object.prototype]. *)
Definition inherited_key (key : string) : Prop :=
  key = "constructor" \/ key = "__proto__".

#[global] Instance inherited_key_dec key : Decision (inherited_key key).
Proof. unfold inherited_key. apply _. Defined.

Section Pipeline.
Variable env : Env.

(** [new Date()] *)
Definition new_Date : M Z := fun w => (Normal (Date_now env w), w).

(** [getDatabase] of the database module. *)
Definition getDatabase : M unit :=
  if db_initialized env then ret tt
  else throw (mkError "Database not initialized. Call initializeDatabase() first.").

(** An awaited write on the store client. *)
Definition store_write (op : StoreOp) : M unit :=
  fun w =>
    match store_fault env w op with
    | Applied =>
        (Normal tt, mkWorld (apply_op op (db w)) (log w ++ [EvStore op Applied]))
    | Rejected =>
        (Normal tt, mkWorld (db w) (log w ++ [EvStore op Rejected]))
    | Raises e =>
        (Throw e, mkWorld (db w) (log w ++ [EvStore op (Raises e)]))
    end.

Definition retrieve (ref : string) : M string :=
  fun w =>
    (paymentIntents_retrieve env w ref, mkWorld (db w) (log w ++ [EvRetrieve ref])).

Definition create_payout (req : PayoutRequest) : M string :=
  fun w =>
    (payouts_create env w req, mkWorld (db w) (log w ++ [EvPayout req])).

Definition paid_patch : OrderPatch :=
  mkOrderPatch None (Some "paid") None None None.

(** [processPayment], lines 90-122. *)
Definition processPayment (order : Order) : M unit :=
  emit (EvProcessPayment (order_id order)) ;;
  getDatabase ;;
  try_catch
    ((if bool_decide (payment_method order = "stripe") && stripe env then
        let* paymentIntent_status := retrieve (stripe_payment_id order) in
        if bool_decide (paymentIntent_status = "succeeded") then
          store_write (UpdateOrder (order_id order) paid_patch)
        else
          throw (mkError ("Payment not completed: " +:+ paymentIntent_status))
      else if bool_decide (payment_method order = "paypal") then
        store_write (UpdateOrder (order_id order) paid_patch)
      else
        throw (mkError "Unsupported payment method")) ;;
     console_log (LogPaymentProcessed (order_number order)))
    (fun error =>
       console_error (ErrPaymentFailed (order_number order) error) ;;
       throw error).

(** The table [deliveryDays] of [getEstimatedDeliveryDate]: the keys it
    holds. *)
Definition deliveryDays (key : string) : option Z :=
  if bool_decide (key = "amazon") then Some 2
  else if bool_decide (key = "aliexpress") then Some 7
  else if bool_decide (key = "mercadolibre") then Some 3
  else if bool_decide (key = "ebay") then Some 5
  else None.

(** [date.setDate(date.getDate() + days)] for a whole number of days:
    the date moves by calendar days of the host's time zone. The time
    value [t] is taken to local time, moved by [days] days of
    86 400 000 ms, and taken back to UTC with the offset in force at the
    local time reached. *)
Definition setDate_plus (t days : Z) : Z :=
  let local := t + LocalTZA env t true + days * 86400000 in
  local - LocalTZA env local false.

(** [getEstimatedDeliveryDate], lines 208-221. A supplier that is
    missing or [null] makes [supplier.toLowerCase()] throw a [TypeError].
    Under a key that is inherited, [deliveryDays[key]] is a member of
    [Object.prototype], which is not a number: [getDate() + days] is then
    a string, [setDate] leaves an invalid date, and [toISOString] throws
    a [RangeError]. The clock is taken to read a time from which a week
    can be added within the range of dates. *)
Definition getEstimatedDeliveryDate (supplier : Field) : M Z :=
  match supplier with
  | Missing =>
      throw (mkError "Cannot read properties of undefined (reading 'toLowerCase')")
  | Null =>
      throw (mkError "Cannot read properties of null (reading 'toLowerCase')")
  | Given s =>
      let key := JS.toLowerCase s in
      let* deliveryDate := new_Date in
      if bool_decide (inherited_key key) then throw (mkError "Invalid time value")
      else ret (setDate_plus deliveryDate (default 5 (deliveryDays key)))
  end.

(** [generateSupplierOrderId], lines 194-206: the identifier is made of
    the clock and of [Math.random()]. *)
Definition generateSupplierOrderId : M string :=
  fun w => (Normal (fresh_id env w), w).

(** [createSupplierOrder], lines 170-192. *)
Definition createSupplierOrder (orderItem : OrderItem) : M SupplierOrder :=
  let* id := generateSupplierOrderId in
  let* estimated := getEstimatedDeliveryDate (supplier orderItem) in
  let supplierOrder :=
    {| so_id := id;
       so_supplier := supplier orderItem;
       so_product_id := product_id orderItem;
       so_quantity := quantity orderItem;
       so_unit_price := unit_price orderItem;
       so_shipping_address := shipping_address orderItem;
       so_total_amount := total_price orderItem;
       so_status := "ordered";
       so_estimated_delivery := estimated |} in
  console_log (LogCreatedSupplierOrder (so_id supplierOrder) (quantity orderItem)) ;;
  emit (EvSupplierOrder orderItem supplierOrder) ;;
  ret supplierOrder.

(** [processSupplierOrders], lines 143-168: the body of its [for] loop,
    the loop, and the function. *)
Definition dispatch_item (item : OrderItem) (supplierOrders : list SupplierOrder)
  : M (list SupplierOrder) :=
  try_catch
    (let* supplierOrder := createSupplierOrder item in
     getDatabase ;;
     store_write (UpdateItem (item_id item) (so_id supplierOrder)) ;;
     ret (supplierOrders ++ [supplierOrder]))
    (fun error =>
       console_error (ErrSupplierOrder (item_id item) error) ;;
       throw error).

Fixpoint dispatch_items (items : list OrderItem) (supplierOrders : list SupplierOrder)
  : M (list SupplierOrder) :=
  match items with
  | [] => ret supplierOrders
  | item :: rest =>
      let* supplierOrders' := dispatch_item item supplierOrders in
      dispatch_items rest supplierOrders'
  end.

Definition processSupplierOrders (orderItems : option (list OrderItem))
  : M (list SupplierOrder) :=
  match orderItems with
  | None => throw (mkError "orderItems is not iterable")
  | Some items => dispatch_items items []
  end.

(** [markPayPalTransfer], lines 278-290. *)
Definition markPayPalTransfer (order : Order) (profitAmount : float) : M unit :=
  getDatabase ;;
  let* created := new_Date in
  store_write
    (InsertTransfer
       {| pt_order_id := order_id order;
          pt_amount := profitAmount;
          pt_method := "paypal";
          pt_transfer_id := "PP-" +:+ order_number order;
          pt_status := "pending_manual";
          pt_created_at := created;
          pt_notes := Some "Manual PayPal transfer required" |}).

(** [transferToBankAccount], lines 246-276. *)
Definition transferToBankAccount (order : Order) (profitAmount : float) : M unit :=
  try_catch
    (let* payout_id :=
       create_payout
         {| po_amount := JS.Math_round (profitAmount * 100)%float;
            po_currency := "usd";
            po_order_id := order_id order;
            po_order_number := order_number order;
            po_profit_amount := profitAmount |} in
     console_log (LogStripePayout payout_id) ;;
     getDatabase ;;
     let* created := new_Date in
     store_write
       (InsertTransfer
          {| pt_order_id := order_id order;
             pt_amount := profitAmount;
             pt_method := "stripe";
             pt_transfer_id := payout_id;
             pt_status := "pending";
             pt_created_at := created;
             pt_notes := None |}))
    (fun error => console_error (ErrStripeTransfer error) ;; throw error).

(** [handleProfitTransfer], lines 223-244. *)
Definition handleProfitTransfer (order : Order) (profitAmount : float) : M unit :=
  try_catch
    (if (profitAmount <=? 0)%float then console_log LogNoProfit
     else
       (if bool_decide (payment_method order = "stripe") && stripe env then
          transferToBankAccount order profitAmount
        else if bool_decide (payment_method order = "paypal") then
          markPayPalTransfer order profitAmount
        else ret tt) ;;
       console_log (LogProfitTransferInitiated profitAmount (order_number order)))
    (fun error => console_error (ErrProfitTransfer (order_number order) error)).

(** [processSingleOrder], lines 50-88, step by step. Step 1: the payment,
    when it is still [pending]. *)
Definition verify_payment (order : Order) : M unit :=
  getDatabase ;;
  console_log (LogProcessingOrder (order_number order)) ;;
  if bool_decide (payment_status order = "pending") then processPayment order
  else ret tt.

(** Step 2: the profit and its write. *)
Definition record_profit (order : Order) : M float :=
  let profitAmount := calculateProfit order in
  (let* updated := new_Date in
   store_write
     (UpdateOrder (order_id order)
        (mkOrderPatch None None (Some profitAmount) None (Some updated)))) ;;
  ret profitAmount.

(** Steps 1 and 2: what happens before the supplier orders. *)
Definition reach_dispatch (order : Order) : M float :=
  verify_payment order ;;
  record_profit order.

(** Steps 1 to 3. *)
Definition fulfil (order : Order) : M float :=
  let* profitAmount := reach_dispatch order in
  let* supplierOrders := processSupplierOrders (order_items order) in
  ret profitAmount.

(** Steps 4 and 5. *)
Definition settle (order : Order) (profitAmount : float) : M unit :=
  handleProfitTransfer order profitAmount ;;
  (let* updated := new_Date in
   store_write
     (UpdateOrder (order_id order)
        (mkOrderPatch (Some "completed") None None None (Some updated)))) ;;
  console_log (LogOrderProcessed (order_number order)).

Definition processSingleOrder (order : Order) : M unit :=
  let* profitAmount := fulfil order in
  settle order profitAmount.

(** [processOrders], lines 7-48: the [catch] of its loop, one turn of
    the loop, the loop, the select, the body of the outer [try] and the
    function. *)
Definition mark_failed (order : Order) (error : Error) : M unit :=
  console_error (ErrProcessingOrder (order_id order) error) ;;
  let* updated := new_Date in
  store_write
    (UpdateOrder (order_id order)
       (mkOrderPatch (Some "failed") None None (Some (message error)) (Some updated))).

Definition process_order (order : Order) : M unit :=
  try_catch (processSingleOrder order) (mark_failed order).

Fixpoint process_batch (pendingOrders : list Order) : M unit :=
  match pendingOrders with
  | [] => ret tt
  | order :: rest => process_order order ;; process_batch rest
  end.

(** The awaited select: the [error] it resolves with is thrown. *)
Definition select_pending : M (list Order) :=
  fun w =>
    match select_error env w with
    | Some error => (Throw error, w)
    | None => (Normal (pending_orders (db w)), w)
    end.

Definition processOrders_body : M unit :=
  getDatabase ;;
  let* pendingOrders := select_pending in
  console_log (LogProcessingBatch (length pendingOrders)) ;;
  process_batch pendingOrders ;;
  console_log LogBatchCompleted.

Definition processOrders : M unit :=
  try_catch processOrders_body
    (fun error => console_error (ErrOrderProcessing error)).

(** [processPendingOrders] of [scheduler.js], lines 149-155. *)
Definition processPendingOrders : M unit :=
  try_catch processOrders
    (fun error => console_error (ErrPendingOrders error)).

End Pipeline.

(** * Definitions used in the statements *)

(** ** Reasoning about runs: definitions *)

(** The database is changed by applied writes only, and every write is
    logged: the world after a run is the world before it extended by the
    events of the run. *)
Definition replay_event (d : Db) (ev : Event) : Db :=
  match ev with
  | EvStore op Applied => apply_op op d
  | _ => d
  end.

Definition replay (evs : list Event) (d : Db) : Db := fold_left replay_event evs d.

Definition extend (w : World) (evs : list Event) : World :=
  mkWorld (replay evs (db w)) (log w ++ evs).

(** [emits P m]: whatever the world, a run of [m] extends it by events
    that all satisfy [P]. *)
Definition emits {A} (P : Event -> Prop) (m : M A) : Prop :=
  forall w, exists evs, Forall P evs /\ (m w).2 = extend w evs.

(** ** The events of each phase: definitions *)

Definition payment_event (o : Order) (ev : Event) : Prop :=
  match ev with
  | EvProcessPayment id => id = order_id o
  | EvRetrieve ref => ref = stripe_payment_id o
  | EvStore (UpdateOrder id p) _ => id = order_id o /\ p = paid_patch
  | EvLog (LogPaymentProcessed _) | EvError (ErrPaymentFailed _ _) => True
  | _ => False
  end.

Definition dispatch_event (items : list OrderItem) (ev : Event) : Prop :=
  match ev with
  | EvLog (LogCreatedSupplierOrder _ _) | EvError (ErrSupplierOrder _ _) => True
  | EvSupplierOrder item _ => item ∈ items
  | EvStore (UpdateItem id _) _ => id ∈ item_id <$> items
  | _ => False
  end.

Definition payout_event (o : Order) (amount : float) (ev : Event) : Prop :=
  match ev with
  | EvLog LogNoProfit | EvLog (LogProfitTransferInitiated _ _)
  | EvLog (LogStripePayout _)
  | EvError (ErrProfitTransfer _ _) | EvError (ErrStripeTransfer _) => True
  | EvPayout req => po_order_id req = order_id o
  | EvStore (InsertTransfer t) _ =>
      pt_order_id t = order_id o /\ pt_amount t = amount /\
      (pt_status t = "pending" \/ pt_status t = "pending_manual")
  | _ => False
  end.

(** The writes on the order itself: the profit, [completed], [failed]. *)
Definition bookkeeping_event (o : Order) (ev : Event) : Prop :=
  match ev with
  | EvLog (LogProcessingOrder _) | EvLog (LogOrderProcessed _)
  | EvError (ErrProcessingOrder _ _) => True
  | EvStore (UpdateOrder id p) _ =>
      id = order_id o /\ p_payment_status p = None /\
      match p_profit_amount p with
      | Some v => v = calculateProfit o /\ p_status p = None
      | None => p_status p = Some "completed" \/ p_status p = Some "failed"
      end
  | _ => False
  end.

Definition order_event (o : Order) (ev : Event) : Prop :=
  payment_event o ev \/ dispatch_event (default [] (order_items o)) ev \/
  payout_event o (calculateProfit o) ev \/ bookkeeping_event o ev.

(** ** What a replay leaves alone: definitions *)

Definition order_write_id (ev : Event) : option string :=
  match ev with
  | EvStore (UpdateOrder id _) _ => Some id
  | _ => None
  end.

Definition is_item_write (ev : Event) : bool :=
  match ev with
  | EvStore (UpdateItem _ _) _ => true
  | _ => false
  end.

Definition is_transfer_insert (ev : Event) : bool :=
  match ev with
  | EvStore (InsertTransfer _) _ => true
  | _ => false
  end.

(** The items handed to [createSupplierOrder] that came back as a
    supplier order, in the order of the calls. *)
Definition created (evs : list Event) : list OrderItem :=
  omap (fun ev => match ev with EvSupplierOrder item _ => Some item | _ => None end) evs.

(** The number of calls of [processPayment]. *)
Definition is_verification (ev : Event) : bool :=
  match ev with
  | EvProcessPayment _ => true
  | _ => false
  end.

Definition verifications (evs : list Event) : nat :=
  length (List.filter is_verification evs).

(** ** Reliable store: definitions *)

(** Every write takes effect and the client is initialised. *)
Definition reliable (env : Env) : Prop :=
  db_initialized env = true /\ forall w op, store_fault env w op = Applied.

(** The store takes the writes of an order's [status]; any other write
    may still fail. *)
Definition takes_status_writes (env : Env) : Prop :=
  forall w id p, is_Some (p_status p) -> store_fault env w (UpdateOrder id p) = Applied.

Definition failed_patch (e : Error) (t : Z) : OrderPatch :=
  mkOrderPatch (Some "failed") None None (Some (message e)) (Some t).

Definition unsupported (env : Env) (o : Order) : Prop :=
  ~ (payment_method o = "stripe" /\ stripe env = true) /\ payment_method o <> "paypal".

(** ** Payment verifier: definitions *)

Definition stripe_branch (env : Env) (o : Order) : Prop :=
  payment_method o = "stripe" /\ stripe env = true.

Definition paypal_branch (env : Env) (o : Order) : Prop :=
  ~ stripe_branch env o /\ payment_method o = "paypal".

(** The claim as the specification states it: the verifier confirms only
    when the processor reports the payment as cleared. *)
Definition confirmed_only_if_cleared (env : Env) (o : Order) (w : World) : Prop :=
  (processPayment env o w).1 = Normal tt ->
  exists w0, paymentIntents_retrieve env w0 (stripe_payment_id o) = Normal "succeeded".

(** The run of [processPayment], phase by phase. *)
Definition payment_failed (o : Order) (e : Error) (w : World) : Completion unit * World :=
  (Throw e, extend w [EvError (ErrPaymentFailed (order_number o) e)]).

Definition payment_finish (o : Order) (rw : Completion unit * World)
  : Completion unit * World :=
  match rw with
  | (Normal _, w') => (Normal tt, extend w' [EvLog (LogPaymentProcessed (order_number o))])
  | (Throw e, w') => payment_failed o e w'
  end.

(** ** Payout initiator: definitions *)

Definition payout_request (o : Order) (profitAmount : float) : PayoutRequest :=
  {| po_amount := JS.Math_round (profitAmount * 100)%float;
     po_currency := "usd";
     po_order_id := order_id o;
     po_order_number := order_number o;
     po_profit_amount := profitAmount |}.

(** The record of a payout the processor created under the id [pid], and
    the record that asks for a manual paypal transfer. *)
Definition stripe_transfer (o : Order) (p : float) (pid : string) (t : Z) : ProfitTransfer :=
  {| pt_order_id := order_id o;
     pt_amount := p;
     pt_method := "stripe";
     pt_transfer_id := pid;
     pt_status := "pending";
     pt_created_at := t;
     pt_notes := None |}.

Definition paypal_transfer (o : Order) (p : float) (t : Z) : ProfitTransfer :=
  {| pt_order_id := order_id o;
     pt_amount := p;
     pt_method := "paypal";
     pt_transfer_id := "PP-" +:+ order_number o;
     pt_status := "pending_manual";
     pt_created_at := t;
     pt_notes := Some "Manual PayPal transfer required" |}.

(** The claim as the specification states it: one invocation, one record. *)
Definition one_transfer_per_invocation (env : Env) (o : Order) (p : float) (w : World)
  : Prop :=
  length (db_profit_transfers (db (handleProfitTransfer env o p w).2))
  = S (length (db_profit_transfers (db w))).

(** ** When the verifier is called: definitions *)

(** The claim as the specification states it: the verifier runs exactly
    when the order is not yet [paid]. *)
Definition verified_iff_not_paid (env : Env) (o : Order) (w : World) : Prop :=
  verifications (log (processSingleOrder env o w).2)
  = (verifications (log w) + if bool_decide (payment_status o = "paid") then 0 else 1)%nat.

(** What [processSingleOrder] does once step 1 is over. *)
Definition after_payment (env : Env) (o : Order) : M unit :=
  let* profitAmount :=
    (let* profitAmount := record_profit env o in
     let* supplierOrders := processSupplierOrders env (order_items o) in
     ret profitAmount) in
  settle env o profitAmount.

(** [processPayment] after its entry. *)
Definition payment_body (env : Env) (o : Order) : M unit :=
  getDatabase env ;;
  try_catch
    ((if bool_decide (payment_method o = "stripe") && stripe env then
        let* paymentIntent_status := retrieve env (stripe_payment_id o) in
        if bool_decide (paymentIntent_status = "succeeded") then
          store_write env (UpdateOrder (order_id o) paid_patch)
        else
          throw (mkError ("Payment not completed: " +:+ paymentIntent_status))
      else if bool_decide (payment_method o = "paypal") then
        store_write env (UpdateOrder (order_id o) paid_patch)
      else
        throw (mkError "Unsupported payment method")) ;;
     console_log (LogPaymentProcessed (order_number o)))
    (fun error =>
       console_error (ErrPaymentFailed (order_number o) error) ;;
       throw error).

Definition silent (ev : Event) : Prop := is_verification ev = false.

(** ** The payout phase and the order's status: definitions *)

Definition completed_patch (t : Z) : OrderPatch :=
  mkOrderPatch (Some "completed") None None None (Some t).

(** ** The batch: definitions *)

Definition batch_event (batch : list Order) (ev : Event) : Prop :=
  exists o, o ∈ batch /\ order_event o ev.

(** ** Supplier dispatch: definitions *)

Definition no_creation (ev : Event) : Prop :=
  match ev with
  | EvSupplierOrder _ _ => False
  | _ => True
  end.

(** ** The sign of the profit: definitions *)

(** [x] is not below zero; [NaN] is not. *)
Definition not_negative (x : float) : Prop := (x <? 0)%float = false.

(** The order of C9: amounts at least zero, margins at least zero where
    they are set. *)
Definition nonneg_item (item : OrderItem) : Prop :=
  (0 <=? total_price item)%float = true /\
  forall m, profit_margin item = Some m -> (0 <=? m)%float = true.

Definition nonneg_order (o : Order) : Prop :=
  (0 <=? total_amount o)%float = true /\
  forall items, order_items o = Some items -> Forall nonneg_item items.

Definition profit_write_ok (ev : Event) : Prop :=
  match ev with
  | EvStore (UpdateOrder _ p) _ =>
      match p_profit_amount p with
      | Some v => not_negative v
      | None => True
      end
  | _ => True
  end.

Definition db_profit_ok (d : Db) : Prop :=
  forall id row, db_orders d !! id = Some row -> not_negative (profit_amount row).

(** Zero of either sign, a positive number, [+Infinity] or [NaN]. *)
Definition sf_not_negative (s : spec_float) : bool :=
  match s with
  | S754_finite true _ _ | S754_infinity true => false
  | _ => true
  end.

(** ** The profit calculator against its specification: definitions *)

Definition plain_item (id : string) (qty : Z) (unit total : float)
    (margin : option float) : OrderItem :=
  mkOrderItem id
    (mkItemRow "o1" "p1" qty unit total margin (Given "amazon") "1 Main St" None "pending").

Definition plain_order (total : float) (items : option (list OrderItem)) : Order :=
  mkOrder "o1"
    (mkOrderRow "ORD-1" total 0 "pending" "pending" "stripe" "pi_1" None 0 0) items.

(** The scenario of the specification: unit prices 10 and 20, quantities
    1 and 2, no margins. *)
Definition scenario_order : Order :=
  plain_order 50 (Some [plain_item "i1" 1 10 10 None; plain_item "i2" 2 20 40 None]).

(** An order of two items, the first with a margin of its own. *)
Definition margin_order : Order :=
  plain_order 50
    (Some [plain_item "i1" 1 10 10 (Some 0.5%float); plain_item "i2" 2 20 40 None]).

(** An item sold at cost: its margin is set, to zero. *)
Definition zero_margin_order : Order :=
  plain_order 100 (Some [plain_item "i1" 1 100 100 (Some 0%float)]).

(** ** Concrete runs *)

(** A configured processor that reports [succeeded] for the payment
    ["pi_paid"] only, and whose payouts end as [payout]; the store takes
    every write unless [fault] says otherwise. *)
Definition demo_env (payout : Completion string) (fault : StoreOp -> StoreOutcome) : Env :=
  {| stripe := true;
     db_initialized := true;
     select_error := fun _ => None;
     store_fault := fun _ op => fault op;
     paymentIntents_retrieve := fun _ ref =>
       if bool_decide (ref = "pi_paid") then Normal "succeeded"
       else Normal "requires_payment_method";
     payouts_create := fun _ _ => payout;
     fresh_id := fun _ => "17000000AB12CD";
     Date_now := fun w => 1700000000000 + Z.of_nat (length (log w));
     LocalTZA := fun _ _ => 0 |}.

Definition payout_down : Completion string := Throw (mkError "payouts unavailable").

Definition always_applied (op : StoreOp) : StoreOutcome := Applied.

(** The store is down when an order is to be marked [failed]. *)
Definition fails_on_marking (op : StoreOp) : StoreOutcome :=
  match op with
  | UpdateOrder _ p =>
      if bool_decide (p_status p = Some "failed") then Raises (mkError "store unavailable")
      else Applied
  | _ => Applied
  end.

Definition demo_row (number method ref pay : string) (created : Z) : OrderRow :=
  mkOrderRow number 50 0 "pending" pay method ref None created created.

Definition demo_item (order : string) (qty : Z) (unit total : float)
    (sup : Field) : ItemRow :=
  mkItemRow order "p1" qty unit total None sup "1 Main St" None "pending".

(** Four pending orders: a paid stripe order with two items, an order
    paid by bank transfer, a paypal order whose item names no supplier,
    and a stripe order whose payment has not cleared. *)
Definition demo_db : Db :=
  mkDb
    (list_to_map
       [("o1", demo_row "ORD-1" "stripe" "pi_paid" "pending" 1);
        ("o2", demo_row "ORD-2" "bank_transfer" "" "pending" 2);
        ("o3", demo_row "ORD-3" "paypal" "" "pending" 3);
        ("o4", demo_row "ORD-4" "stripe" "pi_open" "pending" 4)])
    (list_to_map
       [("i1", demo_item "o1" 1 10 10 (Given "Amazon"));
        ("i2", demo_item "o1" 2 20 40 (Given "eBay"));
        ("i3", demo_item "o3" 1 8 8 Missing)])
    [].

Definition demo_world : World := mkWorld demo_db [].

Definition demo_order (id : string) (row : OrderRow) : Order :=
  mkOrder id row (Some (items_of demo_db id)).

Definition order1 : Order := demo_order "o1" (demo_row "ORD-1" "stripe" "pi_paid" "pending" 1).
Definition order2 : Order := demo_order "o2" (demo_row "ORD-2" "bank_transfer" "" "pending" 2).
Definition order3 : Order := demo_order "o3" (demo_row "ORD-3" "paypal" "" "pending" 3).
Definition order4 : Order := demo_order "o4" (demo_row "ORD-4" "stripe" "pi_open" "pending" 4).

(** Order 1 again, its [payment_status] now [failed]. *)
Definition order1_payment_failed : Order :=
  demo_order "o1" (demo_row "ORD-1" "stripe" "pi_paid" "failed" 1).

Definition env_ok : Env := demo_env payout_down always_applied.

(** The row of order 1 once payment, profit and dispatch are through. *)
Definition order1_row_fulfilled : OrderRow :=
  Eval vm_compute in
    default (demo_row "ORD-1" "stripe" "pi_paid" "pending" 1)
      (db_orders (db (fulfil env_ok order1 demo_world).2) !! "o1").

(** ** What a batch run may touch: definitions *)

Definition is_console (ev : Event) : Prop :=
  match ev with
  | EvLog _ | EvError _ => True
  | _ => False
  end.

(** The events of a run of [processOrders] on the batch it selected. *)
Definition run_event (batch : list Order) (ev : Event) : Prop :=
  batch_event batch ev \/ is_console ev.

(** The transfers the applied inserts of a run append. *)
Definition inserted (evs : list Event) : list ProfitTransfer :=
  omap (fun ev =>
          match ev with
          | EvStore (InsertTransfer t) Applied => Some t
          | _ => None
          end) evs.

(** How a run may change a row of [orders]: the identity of the order is
    kept, [payment_status] can only become [paid], and [status] can only
    become [completed] or [failed]. *)
Definition row_step (r r' : OrderRow) : Prop :=
  order_number r' = order_number r /\
  total_amount r' = total_amount r /\
  payment_method r' = payment_method r /\
  stripe_payment_id r' = stripe_payment_id r /\
  created_at r' = created_at r /\
  (payment_status r' = payment_status r \/ payment_status r' = "paid") /\
  (status r' = status r \/ status r' = "completed" \/ status r' = "failed").

Definition pipeline_patch (p : OrderPatch) : Prop :=
  (p_payment_status p = None \/ p_payment_status p = Some "paid") /\
  (p_status p = None \/ p_status p = Some "completed" \/ p_status p = Some "failed").

Definition pipeline_write (ev : Event) : Prop :=
  match ev with
  | EvStore (UpdateOrder _ p) _ => pipeline_patch p
  | _ => True
  end.

(** A transfer record is only written for a profit above zero. *)
Definition positive_transfer (ev : Event) : Prop :=
  match ev with
  | EvStore (InsertTransfer t) _ => (pt_amount t <=? 0)%float = false
  | _ => True
  end.

Definition item_write_id (ev : Event) : option string :=
  match ev with
  | EvStore (UpdateItem id _) _ => Some id
  | _ => None
  end.

(** ** A run that goes through: definitions *)

(** The item names a supplier, and the name is not one of those every
    object has. *)
Definition known_supplier (item : OrderItem) : Prop :=
  exists s, supplier item = Given s /\ ~ inherited_key (JS.toLowerCase s).

(** The name of the supplier, where the item gives one. *)
Definition supplier_name (item : OrderItem) : string :=
  match supplier item with
  | Given s => s
  | _ => ""
  end.

(** The object [createSupplierOrder] builds for [item] in the world [w]. *)
Definition supplier_order_of (env : Env) (item : OrderItem) (w : World) : SupplierOrder :=
  {| so_id := fresh_id env w;
     so_supplier := supplier item;
     so_product_id := product_id item;
     so_quantity := quantity item;
     so_unit_price := unit_price item;
     so_shipping_address := shipping_address item;
     so_total_amount := total_price item;
     so_status := "ordered";
     so_estimated_delivery :=
       setDate_plus env (Date_now env w)
         (default 5 (deliveryDays (JS.toLowerCase (supplier_name item)))) |}.

(** The events of one successful turn of the loop of
    [processSupplierOrders]. *)
Definition dispatched (env : Env) (item : OrderItem) (w : World) : list Event :=
  [EvLog (LogCreatedSupplierOrder (fresh_id env w) (quantity item));
   EvSupplierOrder item (supplier_order_of env item w);
   EvStore (UpdateItem (item_id item) (fresh_id env w)) Applied].

(** A supplier order copies the fields of its item. *)
Definition order_for (item : OrderItem) (so : SupplierOrder) : Prop :=
  so_supplier so = supplier item /\ so_product_id so = product_id item /\
  so_quantity so = quantity item /\ so_unit_price so = unit_price item /\
  so_shipping_address so = shipping_address item /\
  so_total_amount so = total_price item /\ so_status so = "ordered".

(** The payment of the order is settled, or will be found settled: the
    order is not [pending] payment, or is paid with paypal, or the
    processor reports [succeeded]. *)
Definition payment_clears (env : Env) (o : Order) : Prop :=
  payment_status o <> "pending" \/ paypal_branch env o \/
  (stripe_branch env o /\
   forall w, paymentIntents_retrieve env w (stripe_payment_id o) = Normal "succeeded").

(** ** When the batch is cut short: definitions *)

(** A write that leaves the [status] of every order as it is. *)
Definition keeps_status (ev : Event) : Prop :=
  match ev with
  | EvStore (UpdateOrder _ p) _ => p_status p = None
  | _ => True
  end.

(** ** Concrete runs of a batch: definitions *)

(** The store of the concrete runs with an order that is already
    [completed], and its item. *)
Definition demo_db_settled : Db :=
  mkDb
    (<["o0" := mkOrderRow "ORD-0" 30 7.5 "completed" "paid" "paypal" "" None 0 0]>
       (db_orders demo_db))
    (<["i0" := mkItemRow "o0" "p0" 1 30 30 None (Given "ebay") "1 Main St"
                 (Some "16999999ZZ00AA") "ordered"]>
       (db_order_items demo_db))
    [].

Definition demo_world_settled : World := mkWorld demo_db_settled [].

(** Order 1 of the concrete runs, its items written out. *)
Definition order1_items : list OrderItem :=
  [mkOrderItem "i1" (demo_item "o1" 1 10 10 (Given "Amazon"));
   mkOrderItem "i2" (demo_item "o1" 2 20 40 (Given "eBay"))].

Definition order1_listed : Order :=
  mkOrder "o1" (demo_row "ORD-1" "stripe" "pi_paid" "pending" 1) (Some order1_items).

(** The store is down for the whole run: the select resolves with an
    error. *)
Definition env_select_down : Env :=
  {| stripe := true;
     db_initialized := true;
     select_error := fun _ => Some (mkError "connection refused");
     store_fault := fun _ _ => Applied;
     paymentIntents_retrieve := fun _ _ => Normal "succeeded";
     payouts_create := fun _ _ => payout_down;
     fresh_id := fun _ => "17000000AB12CD";
     Date_now := fun _ => 1700000000000;
     LocalTZA := fun _ _ => 0 |}.

Definition env_marking_down : Env := demo_env payout_down fails_on_marking.

(** The world in which order 2 of the concrete runs is taken up, and the
    world in which its processing throws. *)
Definition world_before_order2 : World :=
  (process_batch env_marking_down [order1]
     (extend demo_world [EvLog (LogProcessingBatch 4)])).2.

Definition world_order2_thrown : World :=
  (processSingleOrder env_marking_down order2 world_before_order2).2.

(** The store answers every write that sets an [error_message] with an
    error of its own, and takes the others. *)
Definition rejects_marking (op : StoreOp) : StoreOutcome :=
  match op with
  | UpdateOrder _ p =>
      match p_error_message p with
      | Some _ => Rejected
      | None => Applied
      end
  | _ => Applied
  end.

Definition env_rejecting : Env := demo_env payout_down rejects_marking.

(** ** A wider store: definitions *)

(** The store of the concrete runs with three more orders: order 5, paid
    with paypal, with one item; order 6, paid with paypal, whose second
    item of three has [null] for a supplier; order 8, paid by bank
    transfer and already marked [paid]. Order 2 has an item here. *)
Definition demo_db_wide : Db :=
  mkDb
    (<["o5" := demo_row "ORD-5" "paypal" "" "pending" 5]>
       (<["o6" := demo_row "ORD-6" "paypal" "" "pending" 6]>
          (<["o8" := demo_row "ORD-8" "bank_transfer" "" "paid" 8]>
             (db_orders demo_db))))
    (<["i5" := demo_item "o5" 1 12 12 (Given "MercadoLibre")]>
       (<["i6a" := demo_item "o6" 1 5 5 (Given "Amazon")]>
          (<["i6b" := demo_item "o6" 1 6 6 Null]>
             (<["i6c" := demo_item "o6" 1 7 7 (Given "eBay")]>
                (<["i7" := demo_item "o2" 1 50 50 (Given "ebay")]>
                   (<["i8" := demo_item "o8" 3 9 27 (Given "AliExpress")]>
                      (db_order_items demo_db)))))))
    [].

Definition demo_world_wide : World := mkWorld demo_db_wide [].

Definition order2_wide : Order :=
  mkOrder "o2" (demo_row "ORD-2" "bank_transfer" "" "pending" 2)
    (Some [mkOrderItem "i7" (demo_item "o2" 1 50 50 (Given "ebay"))]).

Definition order5 : Order :=
  mkOrder "o5" (demo_row "ORD-5" "paypal" "" "pending" 5)
    (Some [mkOrderItem "i5" (demo_item "o5" 1 12 12 (Given "MercadoLibre"))]).

Definition order6_items : list OrderItem :=
  [mkOrderItem "i6a" (demo_item "o6" 1 5 5 (Given "Amazon"));
   mkOrderItem "i6b" (demo_item "o6" 1 6 6 Null);
   mkOrderItem "i6c" (demo_item "o6" 1 7 7 (Given "eBay"))].

Definition order6 : Order :=
  mkOrder "o6" (demo_row "ORD-6" "paypal" "" "pending" 6) (Some order6_items).

Definition order8 : Order :=
  mkOrder "o8" (demo_row "ORD-8" "bank_transfer" "" "paid" 8)
    (Some [mkOrderItem "i8" (demo_item "o8" 3 9 27 (Given "AliExpress"))]).

(** A processor whose payouts are created. *)
Definition env_paying : Env := demo_env (Normal "po_1") always_applied.

(** An event that is not an insert into [profit_transfers]. *)
Definition no_transfer (ev : Event) : Prop := is_transfer_insert ev = false.

(** ** The claims as the specification states them: definitions *)

(** C2 as stated: whatever the store does, every order of the batch
    whose own run returns ends [completed]. *)
Definition valid_orders_complete (env : Env) (w : World) : Prop :=
  let batch := pending_orders (db w) in
  let w0 := extend w [EvLog (LogProcessingBatch (length batch))] in
  forall k (o : Order), batch !! k = Some o ->
    (processSingleOrder env o (process_batch env (take k batch) w0).2).1 = Normal tt ->
    status <$> db_orders (db (processOrders env w).2) !! order_id o = Some "completed".

(** C8 as stated: an order with an unsupported payment method fails with
    that error and ends [failed]. *)
Definition unsupported_always_fails (env : Env) (o : Order) (w : World) : Prop :=
  unsupported env o ->
  (processSingleOrder env o w).1 = Throw (mkError "Unsupported payment method") /\
  status <$> db_orders (db (process_order env o w).2) !! order_id o = Some "failed".

(** * JavaScript strings *)

Module Text.

(** [s.includes(sub)] *)
Fixpoint includes (s sub : string) : bool :=
  String.prefix sub s ||
  match s with
  | EmptyString => false
  | String _ r => includes r sub
  end.

(** [s.replace(/[^...]/g, '')]: the characters of [s] the class [f]
    holds. *)
Fixpoint keep (f : ascii -> bool) (s : string) : string :=
  match s with
  | EmptyString => EmptyString
  | String c r => if f c then String c (keep f r) else keep f r
  end.

Definition is_digit (c : ascii) : bool :=
  let n := nat_of_ascii c in (Nat.leb 48 n && Nat.leb n 57)%bool.

Definition is_upper (c : ascii) : bool :=
  let n := nat_of_ascii c in (Nat.leb 65 n && Nat.leb n 90)%bool.

Definition is_lower (c : ascii) : bool :=
  let n := nat_of_ascii c in (Nat.leb 97 n && Nat.leb n 122)%bool.

(** ASCII part of [String.prototype.toUpperCase]. *)
Definition upper_ascii (c : ascii) : ascii :=
  if is_lower c then ascii_of_nat (nat_of_ascii c - 32) else c.

Fixpoint toUpperCase (s : string) : string :=
  match s with
  | EmptyString => EmptyString
  | String c r => String (upper_ascii c) (toUpperCase r)
  end.

End Text.

(** * Trending products: a model of [trendingProducts.js]

    The four searches are started one after the other. The three
    scrapers stop at their request for a page and go on when it comes
    back, each in one piece, in the order the pages come back; the
    search of the trends waits for nothing and is over before any of
    them goes on. Each search is given here as a function of what it
    reads itself: the page its request came back with and its own draws
    of [Math.random()]. Numbers that are integers by construction
    (scores, counts, indices, the limit) are in [Z]; prices and ratings
    are floats. *)

Module Trending.

(** ** JavaScript values *)

(** [Math.floor(x)] of a finite [x], as an integer. *)
Definition Math_floor (x : float) : Z :=
  match Prim2SF x with
  | S754_finite s m e =>
      let n := if s then - Zpos m else Zpos m in
      if 0 <=? e then n * 2 ^ e else n / 2 ^ (- e)
  | _ => 0
  end.

(** The keys an object literal answers to without holding them; the
    tables below are looked up with lower-cased keys. *)
Definition inherited (key : string) : bool :=
  bool_decide (key = "constructor") || bool_decide (key = "__proto__").

(** The value of [table[key] || fallback]: one of the table's strings,
    or the member of [Object.prototype] found under [key]. *)
Inductive Looked :=
| Str (s : string)
| Member (key : string).

Fixpoint assoc (key : string) (table : list (string * string)) : option string :=
  match table with
  | [] => None
  | (k, v) :: rest => if bool_decide (k = key) then Some v else assoc key rest
  end.

(** [table[category?.toLowerCase()] || fallback] *)
Definition look_up (table : list (string * string)) (fallback : string)
    (category : option string) : Looked :=
  match category with
  | None => Str fallback
  | Some c =>
      let key := JS.toLowerCase c in
      if inherited key then Member key
      else Str (default fallback (assoc key table))
  end.

(** [category || fallback] *)
Definition or_string (category : option string) (fallback : string) : string :=
  match category with
  | Some c => if bool_decide (c = "") then fallback else c
  | None => fallback
  end.

(** ** Data *)

Inductive SourceData :=
| Bestseller (bestseller_rank : Z) (category : Looked)
| SearchTerm (search_term : Looked)
| CategoryId (category_id : Looked)
| Trend (trend_topic : string) (search_volume : Z).

Record Product := mkProduct {
  title : string;
  price : float;
  original_price : float;
  image_url : option string;
  category : string;
  supplier : string;
  url : option string;
  source : string;
  rating : float;
  reviews_count : Z;
  score : Z;
  source_data : SourceData
}.

(** The argument of [calculateProductScore]; a field the caller leaves
    out is [None]. *)
Record ProductData := mkProductData {
  pd_title : string;
  pd_price : float;
  pd_rating : option float;
  pd_reviews_count : option float
}.

(** What a scraper reads off one element of a page: the texts it
    selects and the attributes, [None] where the attribute is missing. *)
Record Scraped := mkScraped {
  sc_title : string;        (* [.text().trim()] of the title *)
  sc_priceText : string;
  sc_image : option string;
  sc_href : option string
}.

(** A row of [trending_products]. *)
Record TrendingRow := mkTrendingRow {
  source_url : option string;
  source_type : string;
  product_data : Product;
  discovered_at : Z;
  analysis_status : string
}.

Inductive Line :=
| ErrSearching (e : Error)
| ErrAmazon (e : Error)
| ErrAliExpress (e : Error)
| ErrMercadoLibre (e : Error)
| ErrGoogleTrends (e : Error)
| ErrStoring (e : Error)
| ErrByCategory (e : Error).

Record State := mkState {
  trending_products : list TrendingRow;
  console : list Line
}.

(** The searches that wait for a page. *)
Inductive Scraper := Amazon | AliExpress | MercadoLibre.

(** The collaborators of one call of [searchTrendingProducts]. *)
Record Env := mkEnv {
  parseFloat : string -> float;                (* the runtime's [parseFloat] *)
  settled_at : Scraper -> Z;                   (* when the request of a scraper comes back *)
  amazon_page : Completion (list Scraped);     (* [axios.get], then the selected elements *)
  aliexpress_page : Completion (list Scraped);
  mercadolibre_page : Completion (list Scraped);
  aliexpress_random : nat -> float;            (* the search's draws of [Math.random()] *)
  mercadolibre_random : nat -> float;
  google_random : nat -> float;
  initialized : bool;                          (* [initializeDatabase] has run *)
  upsert : State -> TrendingRow -> StoreOutcome;
  now : State -> Z
}.

(** ** The scoring *)

(** The class [[\d.,]]. *)
Definition digit_or_separator (c : ascii) : bool :=
  Text.is_digit c || Nat.eqb (nat_of_ascii c) 46 || Nat.eqb (nat_of_ascii c) 44.

(** [s.replace(',', '.')]: the first comma only. *)
Fixpoint replace_first_comma (s : string) : string :=
  match s with
  | EmptyString => EmptyString
  | String c r =>
      if Nat.eqb (nat_of_ascii c) 44 then String "." r else String c (replace_first_comma r)
  end.

(** [extractPrice], lines 290-295. *)
Definition extractPrice (env : Env) (priceText : string) : float :=
  if bool_decide (priceText = "") then 0%float
  else
    let price := replace_first_comma (Text.keep digit_or_separator priceText) in
    let parsed := parseFloat env price in
    if JS.truthy parsed then parsed else 0%float.

(** A comparison with a missing field is false. *)
Definition test (v : option float) (p : float -> bool) : bool :=
  match v with
  | Some x => p x
  | None => false
  end.

Definition positiveKeywords : list string :=
  ["bestseller"; "trending"; "popular"; "new"; "hot"; "sale"].

(** [calculateProductScore], lines 297-330. *)
Definition calculateProductScore (productData : ProductData) : Z :=
  let score := 50 in
  let score :=
    if ((20 <=? pd_price productData) && (pd_price productData <=? 200))%float then score + 15
    else if ((pd_price productData <? 10) || (500 <? pd_price productData))%float
         then score - 15
         else score in
  let score :=
    if test (pd_rating productData) (fun r => (4.5 <=? r)%float) then score + 15
    else if test (pd_rating productData) (fun r => (4.0 <=? r)%float) then score + 10
    else if test (pd_rating productData) (fun r => (r <? 3.5)%float) then score - 10
    else score in
  let score :=
    if test (pd_reviews_count productData) (fun n => (1000 <? n)%float) then score + 10
    else if test (pd_reviews_count productData) (fun n => (500 <? n)%float) then score + 5
    else score in
  let title := JS.toLowerCase (pd_title productData) in
  let keywordBonus :=
    Z.of_nat (length (List.filter (fun keyword => Text.includes title keyword) positiveKeywords)) * 3 in
  let score := score + keywordBonus in
  Z.max 0 (Z.min 100 score).

(** ** The four searches *)

(** The loop of [searchAmazonBestsellers], lines 73-106. Building the
    product reads [reviews_count], an identifier that no scope of the
    module declares: the first element with a title and a price ends the
    loop with a [ReferenceError]. *)
Fixpoint amazon_each (env : Env) (elements : list Scraped) (index limit : Z)
    (products : list Product) : Completion (list Product) :=
  match elements with
  | [] => Normal products
  | element :: rest =>
      if limit <=? index then Normal products
      else
        let title := sc_title element in
        let price := extractPrice env (sc_priceText element) in
        if negb (bool_decide (title = "")) && (0 <? price)%float
        then Throw (mkError "reviews_count is not defined")
        else amazon_each env rest (index + 1) limit products
  end.

(** [searchAmazonBestsellers], lines 50-113: the products and the
    console lines. *)
Definition searchAmazonBestsellers (env : Env) (category : option string) (limit : Z)
  : list Product * list Line :=
  match amazon_page env with
  | Throw error => ([], [ErrAmazon error])
  | Normal elements =>
      match amazon_each env elements 0 limit [] with
      | Normal products => (products, [])
      | Throw error => ([], [ErrAmazon error])
      end
  end.

(** The loop of [searchAliExpressTrending], lines 142-172; [draws] counts
    the search's calls of [Math.random()]. *)
Fixpoint aliexpress_each (env : Env) (category : option string) (searchTerm : Looked)
    (elements : list Scraped) (index limit : Z) (draws : nat) (products : list Product)
  : list Product :=
  match elements with
  | [] => products
  | element :: rest =>
      if limit <=? index then products
      else
        let title := sc_title element in
        let price := extractPrice env (sc_priceText element) in
        let link := "https:" +:+ default "undefined" (sc_href element) in
        if negb (bool_decide (title = "")) && (0 <? price)%float then
          let product :=
            {| title := title;
               price := price;
               original_price := (price * 1.5)%float;
               image_url := sc_image element;
               category := or_string category "General";
               supplier := "AliExpress";
               url := Some link;
               source := "aliexpress_trending";
               rating := (aliexpress_random env draws * 2 + 3)%float;
               reviews_count :=
                 Math_floor (aliexpress_random env (S draws) * 1000)%float + 50;
               score := calculateProductScore (mkProductData title price None None);
               source_data := SearchTerm searchTerm |} in
          aliexpress_each env category searchTerm rest (index + 1) limit (S (S draws))
            (products ++ [product])
        else
          aliexpress_each env category searchTerm rest (index + 1) limit draws products
  end.

(** [searchAliExpressTrending], lines 115-179. *)
Definition searchAliExpressTrending (env : Env) (category : option string) (limit : Z)
  : list Product * list Line :=
  let searchTerm :=
    look_up [("electronics", "gadgets"); ("clothing", "fashion"); ("home", "home decor");
             ("sports", "fitness"); ("beauty", "cosmetics")] "trending" category in
  match aliexpress_page env with
  | Throw error => ([], [ErrAliExpress error])
  | Normal elements => (aliexpress_each env category searchTerm elements 0 limit 0 [], [])
  end.

(** The loop of [searchMercadoLibreTrending], lines 205-235. *)
Fixpoint mercadolibre_each (env : Env) (category : option string) (categoryId : Looked)
    (elements : list Scraped) (index limit : Z) (draws : nat) (products : list Product)
  : list Product :=
  match elements with
  | [] => products
  | element :: rest =>
      if limit <=? index then products
      else
        let title := sc_title element in
        let price := extractPrice env (sc_priceText element) in
        let link := sc_href element in
        if negb (bool_decide (title = "")) && (0 <? price)%float then
          let product :=
            {| title := title;
               price := price;
               original_price := (price * 1.3)%float;
               image_url := sc_image element;
               category := or_string category "General";
               supplier := "MercadoLibre";
               url := link;
               source := "mercadolibre_trending";
               rating := (mercadolibre_random env draws * 2 + 3)%float;
               reviews_count :=
                 Math_floor (mercadolibre_random env (S draws) * 500)%float + 20;
               score := calculateProductScore (mkProductData title price None None);
               source_data := CategoryId categoryId |} in
          mercadolibre_each env category categoryId rest (index + 1) limit (S (S draws))
            (products ++ [product])
        else
          mercadolibre_each env category categoryId rest (index + 1) limit draws products
  end.

(** [searchMercadoLibreTrending], lines 181-242. *)
Definition searchMercadoLibreTrending (env : Env) (category : option string) (limit : Z)
  : list Product * list Line :=
  let categoryId :=
    look_up [("electronics", "MLA1051"); ("clothing", "MLA109027"); ("home", "MLA1574");
             ("sports", "MLA109027"); ("beauty", "MLA1246")] "MLA1051" category in
  match mercadolibre_page env with
  | Throw error => ([], [ErrMercadoLibre error])
  | Normal elements => (mercadolibre_each env category categoryId elements 0 limit 0 [], [])
  end.

Definition trendingTopics : list (string * list string) :=
  [("electronics", ["smartphone"; "laptop"; "headphones"; "smartwatch"; "tablet"]);
   ("clothing", ["fashion"; "shoes"; "accessories"; "dress"; "jewelry"]);
   ("home", ["furniture"; "decor"; "kitchen"; "bathroom"; "organization"]);
   ("sports", ["fitness"; "outdoor"; "equipment"; "apparel"; "accessories"]);
   ("beauty", ["skincare"; "makeup"; "haircare"; "fragrance"; "tools"])].

Fixpoint topics_of (key : string) (table : list (string * list string))
  : option (list string) :=
  match table with
  | [] => None
  | (k, v) :: rest => if bool_decide (k = key) then Some v else topics_of key rest
  end.

(** [topic.charAt(0).toUpperCase() + topic.slice(1)] *)
Definition capitalize (topic : string) : string :=
  match topic with
  | EmptyString => EmptyString
  | String c r => String (Text.upper_ascii c) r
  end.

(** One turn of the loop of [searchGoogleTrends], lines 258-281; the
    topics are plain words, which [encodeURIComponent] leaves as they
    are. *)
Definition google_product (env : Env) (category : option string) (topic : string)
    (draws : nat) : Product :=
  {| title := "Trending " +:+ capitalize topic +:+ " Product";
     price := JS.Z2float (Math_floor (google_random env draws * 200)%float + 20);
     original_price := 0%float;
     image_url := Some ("https://via.placeholder.com/300x300/2563eb/white?text=" +:+ topic);
     category := or_string category "Trending";
     supplier := "Google Trends";
     url := Some ("https://trends.google.com/trends/explore?q=" +:+ topic);
     source := "google_trends";
     rating := (google_random env (1 + draws) * 1 + 4)%float;
     reviews_count := Math_floor (google_random env (2 + draws) * 500)%float + 100;
     score := Math_floor (google_random env (3 + draws) * 30)%float + 70;
     source_data :=
       Trend topic (Math_floor (google_random env (4 + draws) * 10000)%float + 1000) |}.

Fixpoint google_loop (env : Env) (category : option string) (topics : list string)
    (turns : nat) (draws : nat) : list Product :=
  match turns, topics with
  | S turns', topic :: rest =>
      google_product env category topic draws
        :: google_loop env category rest turns' (5 + draws)
  | _, _ => []
  end.

(** [searchGoogleTrends], lines 244-288. Under an inherited key the
    table answers with a member of [Object.prototype]: with the
    constructor, whose [length] is 1 and whose element 0 is missing, so
    that [topic.charAt] throws; or with the prototype itself, whose
    missing [length] gives the loop no turn. *)
Definition searchGoogleTrends (env : Env) (category : option string) (limit : Z)
  : list Product * list Line :=
  let key := JS.toLowerCase (default "undefined" category) in
  if bool_decide (key = "constructor") then
    if 0 <? limit
    then ([], [ErrGoogleTrends
                 (mkError "Cannot read properties of undefined (reading 'charAt')")])
    else ([], [])
  else if bool_decide (key = "__proto__") then ([], [])
  else
    let topics :=
      default ["smartphone"; "laptop"; "headphones"; "smartwatch"; "tablet"]
              (topics_of key trendingTopics) in
    (google_loop env category topics (Z.to_nat (Z.min limit (Z.of_nat (length topics)))) 0,
     []).

(** ** Storing and assembling *)

(** The loop of [storeTrendingProducts]. *)
Fixpoint upsert_each (env : Env) (products : list Product) (st : State)
  : Completion unit * State :=
  match products with
  | [] => (Normal tt, st)
  | product :: rest =>
      let row :=
        {| source_url := url product;
           source_type := source product;
           product_data := product;
           discovered_at := now env st;
           analysis_status := "pending" |} in
      match upsert env st row with
      | Applied =>
          upsert_each env rest (mkState (trending_products st ++ [row]) (console st))
      | Rejected => upsert_each env rest st
      | Raises error => (Throw error, st)
      end
  end.

(** [storeTrendingProducts], lines 332-349. *)
Definition storeTrendingProducts (env : Env) (products : list Product) (st : State) : State :=
  if initialized env then
    match upsert_each env products st with
    | (Normal _, st') => st'
    | (Throw error, st') =>
        mkState (trending_products st') (console st' ++ [ErrStoring error])
    end
  else
    mkState (trending_products st)
      (console st ++
       [ErrStoring (mkError "Database not initialized. Call initializeDatabase() first.")]).

(** The chain [.filter(product => !processedUrls.has(product.url))
    .map(product => { processedUrls.add(product.url); return product })]
    of lines 31-36: [filter] goes through the whole array before [map]
    starts. *)
Definition filter_unprocessed (processedUrls : list (option string))
    (products : list Product) : list Product :=
  List.filter (fun product => negb (bool_decide (url product ∈ processedUrls))) products.

Definition map_processed (processedUrls : list (option string)) (products : list Product)
  : list Product * list (option string) :=
  fold_left
    (fun acc product => (acc.1 ++ [product], acc.2 ++ [url product]))
    products ([], processedUrls).

(** [.sort((a, b) => (b.score || 0) - (a.score || 0))]: the sort of an
    array is stable, so with this comparator it is the one arrangement by
    descending score that keeps products of equal score in their order. *)
Fixpoint insert_by_score (a : Product) (sorted : list Product) : list Product :=
  match sorted with
  | [] => [a]
  | b :: rest =>
      if score a <? score b then b :: insert_by_score a rest else a :: b :: rest
  end.

Definition sort_by_score (products : list Product) : list Product :=
  foldr insert_by_score [] products.

(** [products.slice(0, limit)] *)
Definition slice0 (limit : Z) (products : list Product) : list Product :=
  if 0 <=? limit then take (Z.to_nat limit) products
  else take (length products - Z.to_nat (- limit)) products.

(** The scrapers in the order their requests come back; of two that
    come back at the same time the one started first goes first. *)
Fixpoint insert_by_arrival (env : Env) (a : Scraper) (waiting : list Scraper)
  : list Scraper :=
  match waiting with
  | [] => [a]
  | b :: rest =>
      if settled_at env b <? settled_at env a
      then b :: insert_by_arrival env a rest
      else a :: b :: rest
  end.

Definition arrivals (env : Env) : list Scraper :=
  foldr (insert_by_arrival env) [] [Amazon; AliExpress; MercadoLibre].

(** [searchTrendingProducts], lines 5-48; [limit] and [minScore] are
    [None] when the options leave them out. The results are joined in
    the order of the searches; the console has the lines of the trends
    search first and then those of the scrapers as they come back. *)
Definition searchTrendingProducts (env : Env) (category : option string)
    (limit minScore : option Z) (st : State) : list Product * State :=
  let limit := default 20 limit in
  let minScore := default 60 minScore in
  let amazon := searchAmazonBestsellers env category limit in
  let aliexpress := searchAliExpressTrending env category limit in
  let mercadolibre := searchMercadoLibreTrending env category limit in
  let google := searchGoogleTrends env category limit in
  let printed (scraper : Scraper) :=
    match scraper with
    | Amazon => amazon.2
    | AliExpress => aliexpress.2
    | MercadoLibre => mercadolibre.2
    end in
  let st := mkState (trending_products st)
              (console st ++ google.2 ++ concat (printed <$> arrivals env)) in
  let trendingProducts := amazon.1 ++ aliexpress.1 ++ mercadolibre.1 ++ google.1 in
  let uniqueProducts :=
    slice0 limit
      (sort_by_score (map_processed [] (filter_unprocessed [] trendingProducts)).1) in
  (uniqueProducts, storeTrendingProducts env uniqueProducts st).

(** [getTrendingProductsByCategory], lines 351-359. *)
Definition getTrendingProductsByCategory (env : Env) (category : option string)
    (limit : option Z) (st : State) : list Product * State :=
  let limit := default 10 limit in
  let found := searchTrendingProducts env category (Some limit) None st in
  (slice0 limit found.1, found.2).

End Trending.

(** ** Trending products: definitions used in the statements *)

(** What the two working scrapers let through. *)
Definition scraped_from (sup : string) (p : Trending.Product) : Prop :=
  Trending.supplier p = sup /\ Trending.title p <> "" /\
  (0 <? Trending.price p)%float = true /\
  35 <= Trending.score p <= 83.

Definition by_score (a b : Trending.Product) : Prop :=
  Trending.score b <= Trending.score a.

(** The row [storeTrendingProducts] writes for a product. *)
Definition row_of (row : Trending.TrendingRow) : Prop :=
  Trending.source_url row = Trending.url (Trending.product_data row) /\
  Trending.source_type row = Trending.source (Trending.product_data row) /\
  Trending.analysis_status row = "pending".

(** ** Trending products: a concrete search *)

(** A runtime's [parseFloat] on a string that starts with digits: the
    number they spell; [NaN] without a digit. *)
Fixpoint parse_digits (s : string) (seen : option Z) : option Z :=
  match s with
  | EmptyString => seen
  | String c r =>
      if Text.is_digit c
      then parse_digits r (Some (default 0 seen * 10 + Z.of_nat (nat_of_ascii c - 48)))
      else seen
  end.

Definition parse_whole (s : string) : float :=
  match parse_digits s None with
  | Some n => JS.Z2float n
  | None => PrimFloat.nan
  end.

(** The AliExpress page lists the same offer twice; the Amazon page has
    one bestseller; the request to MercadoLibre fails. *)
Definition demo_search : Trending.Env :=
  {| Trending.parseFloat := parse_whole;
     Trending.settled_at := fun scraper =>
       match scraper with
       | Trending.Amazon => 900
       | Trending.AliExpress => 400
       | Trending.MercadoLibre => 10000
       end;
     Trending.amazon_page :=
       Normal [Trending.mkScraped "Popular Lamp" "$30" None (Some "/dp/1")];
     Trending.aliexpress_page :=
       Normal [Trending.mkScraped "Desk Lamp" "US $25" None (Some "//ali.example/lamp");
               Trending.mkScraped "Desk Lamp" "US $25" None (Some "//ali.example/lamp");
               Trending.mkScraped "" "US $9" None None];
     Trending.mercadolibre_page := Throw (mkError "timeout of 10000ms exceeded");
     Trending.aliexpress_random := fun _ => 0.5%float;
     Trending.mercadolibre_random := fun _ => 0.5%float;
     Trending.google_random := fun _ => 0.5%float;
     Trending.initialized := true;
     Trending.upsert := fun _ _ => Applied;
     Trending.now := fun st => 1700000000000 + Z.of_nat (length (Trending.trending_products st)) |}.

Definition empty_state : Trending.State := Trending.mkState [] [].

(** * The database module: a model of [config/database.js] *)

Module Database.

(** A client is what [createClient] was given. *)
Record Client := mkClient {
  supabaseUrl : string;
  supabaseKey : string
}.

Inductive Line :=
| LogTestFailed
| LogEstablished
| ErrInitializationFailed (message : string)
| LogFallback
| ErrCreatingTable (error : Error)
| LogTablesVerified
| ErrCreatingTables (message : string).

(** The module's variable [supabase], the console, and what was sent to
    the store: the connection tests, each with the client it was sent
    through, and the statements of [exec_sql]. *)
Record State := mkState {
  supabase : option Client;
  console : list Line;
  tested : list Client;
  executed : list string
}.

(** What an awaited call on the client does: resolve with data, resolve
    with an [error], or reject. *)
Inductive Answer :=
| Data
| Failed (error : Error)
| Rejects (error : Error).

Record Env := mkEnv {
  SUPABASE_URL : option string;          (* [process.env], [None]: not set *)
  SUPABASE_KEY : option string;
  refused : string -> string -> option Error;  (* [createClient] throws this *)
  connection_test : Client -> Answer;    (* the select on [users] *)
  exec_sql : State -> string -> Answer   (* [rpc('exec_sql', { sql })] *)
}.

Definition createClient (env : Env) (url key : string) : Completion Client :=
  match refused env url key with
  | Some error => Throw error
  | None => Normal (mkClient url key)
  end.

Definition say (line : Line) (st : State) : State :=
  mkState (supabase st) (console st ++ [line]) (tested st) (executed st).

Definition assign (client : Client) (st : State) : State :=
  mkState (Some client) (console st) (tested st) (executed st).

(** [supabase.from('users').select('count').limit(1)] is sent. *)
Definition test_sent (client : Client) (st : State) : State :=
  mkState (supabase st) (console st) (tested st ++ [client]) (executed st).

(** The [try] block of [initializeDatabase], lines 9-28. *)
Definition connect (env : Env) (st : State) : Completion Client * State :=
  match SUPABASE_URL env, SUPABASE_KEY env with
  | Some url, Some key =>
      if bool_decide (url = "") || bool_decide (key = "") then
        (Throw (mkError "Supabase credentials not found in environment variables"), st)
      else
        match createClient env url key with
        | Throw error => (Throw error, st)
        | Normal client =>
            let st := test_sent client (assign client st) in
            match connection_test env client with
            | Rejects error => (Throw error, st)
            | Failed _ => (Normal client, say LogTestFailed st)
            | Data => (Normal client, say LogEstablished st)
            end
        end
  | _, _ => (Throw (mkError "Supabase credentials not found in environment variables"), st)
  end.

(** [initializeDatabase], lines 8-38. *)
Definition initializeDatabase (env : Env) (st : State) : Completion Client * State :=
  match connect env st with
  | (Normal client, st) => (Normal client, st)
  | (Throw error, st) =>
      let st := say (ErrInitializationFailed (message error)) st in
      match createClient env "http://localhost:54321" "dev-key" with
      | Throw error' => (Throw error', st)
      | Normal client => (Normal client, say LogFallback (assign client st))
      end
  end.

(** [getDatabase], lines 40-45. *)
Definition getDatabase (st : State) : Completion Client :=
  match supabase st with
  | Some client => Normal client
  | None => Throw (mkError "Database not initialized. Call initializeDatabase() first.")
  end.

(** The statements of [createTables], each given by the table it
    creates. *)
Definition tables : list string :=
  ["users"; "products"; "orders"; "order_items"; "analytics"; "marketing_campaigns";
   "product_analysis"; "settings"].

Definition sent (sql : string) (st : State) : State :=
  mkState (supabase st) (console st) (tested st) (executed st ++ [sql]).

(** The loop of [createTables], lines 193-198. *)
Fixpoint exec_each (env : Env) (statements : list string) (st : State)
  : Completion unit * State :=
  match statements with
  | [] => (Normal tt, st)
  | sql :: rest =>
      match exec_sql env st sql with
      | Rejects error => (Throw error, sent sql st)
      | Failed error =>
          if negb (Text.includes (message error) "already exists")
          then exec_each env rest (say (ErrCreatingTable error) (sent sql st))
          else exec_each env rest (sent sql st)
      | Data => exec_each env rest (sent sql st)
      end
  end.

(** [createTables], lines 47-204; its [getDatabase] is outside the
    [try]. *)
Definition createTables (env : Env) (st : State) : Completion unit * State :=
  match getDatabase st with
  | Throw error => (Throw error, st)
  | Normal _ =>
      match exec_each env tables st with
      | (Normal _, st) => (Normal tt, say LogTablesVerified st)
      | (Throw error, st) => (Normal tt, say (ErrCreatingTables (message error)) st)
      end
  end.

End Database.

(** ** The database module: definitions used in the statements *)

Definition fallback_client : Database.Client :=
  Database.mkClient "http://localhost:54321" "dev-key".

(** The credentials are set, the client is created and the connection
    test does not reject. *)
Definition configured (env : Database.Env) : option Database.Client :=
  match Database.SUPABASE_URL env, Database.SUPABASE_KEY env with
  | Some url, Some key =>
      if bool_decide (url = "") || bool_decide (key = "") then None
      else
        match Database.refused env url key with
        | Some _ => None
        | None =>
            match Database.connection_test env (Database.mkClient url key) with
            | Database.Rejects _ => None
            | _ => Some (Database.mkClient url key)
            end
        end
  | _, _ => None
  end.

(** The client made from the credentials: both are set and the library
    accepts them. The connection test is sent through it. *)
Definition attempted (env : Database.Env) : option Database.Client :=
  match Database.SUPABASE_URL env, Database.SUPABASE_KEY env with
  | Some url, Some key =>
      if bool_decide (url = "") || bool_decide (key = "") then None
      else
        match Database.refused env url key with
        | Some _ => None
        | None => Some (Database.mkClient url key)
        end
  | _, _ => None
  end.

(** An environment without credentials. *)
Definition no_credentials : Database.Env :=
  {| Database.SUPABASE_URL := None;
     Database.SUPABASE_KEY := Some "";
     Database.refused := fun _ _ => None;
     Database.connection_test := fun _ => Database.Data;
     Database.exec_sql := fun st sql =>
       if bool_decide (sql = "orders")
       then Database.Failed (mkError "relation orders already exists")
       else Database.Data |}.

Definition fresh_module : Database.State := Database.mkState None [] [] [].

(** Credentials of a store that cannot be reached: the connection test
    rejects. *)
Definition unreachable_store : Database.Env :=
  {| Database.SUPABASE_URL := Some "https://shop.example.co";
     Database.SUPABASE_KEY := Some "key-1";
     Database.refused := fun _ _ => None;
     Database.connection_test := fun _ => Database.Rejects (mkError "fetch failed");
     Database.exec_sql := fun _ _ => Database.Data |}.

(** * The scheduler: a model of the pure parts of [scheduler.js] *)

Module Scheduler.

(** ** The weekly insights *)

Record PriceRanges := mkPriceRanges {
  low : Z;
  mid : Z;
  high : Z
}.

Record Insights := mkInsights {
  top_categories : gmap string Z;
  top_suppliers : gmap string Z;
  average_score : float;
  price_ranges : PriceRanges
}.

(** [counts[key] = (counts[key] || 0) + 1], for a [key] the object does
    not inherit. *)
Definition count (key : string) (counts : gmap string Z) : gmap string Z :=
  <[key := default 0 (counts !! key) + 1]> counts.

(** The body of the [forEach] of [analyzeTrendingInsights], lines
    290-311, on the insights and [totalScore]. *)
Definition tally (acc : Insights * Z) (product : Trending.TrendingRow) : Insights * Z :=
  let insights := acc.1 in
  let productData := Trending.product_data product in
  let ranges := price_ranges insights in
  let ranges :=
    if (Trending.price productData <? 50)%float
    then mkPriceRanges (low ranges + 1) (mid ranges) (high ranges)
    else if (Trending.price productData <=? 200)%float
         then mkPriceRanges (low ranges) (mid ranges + 1) (high ranges)
         else mkPriceRanges (low ranges) (mid ranges) (high ranges + 1) in
  (mkInsights (count (Trending.category productData) (top_categories insights))
              (count (Trending.supplier productData) (top_suppliers insights))
              (average_score insights)
              ranges,
   acc.2 + Trending.score productData).

(** [analyzeTrendingInsights], lines 276-317. *)
Definition analyzeTrendingInsights (trendingProducts : list Trending.TrendingRow) : Insights :=
  let start := mkInsights ∅ ∅ 0%float (mkPriceRanges 0 0 0) in
  let done := fold_left tally trendingProducts (start, 0) in
  let insights := done.1 in
  let totalScore := done.2 in
  mkInsights (top_categories insights) (top_suppliers insights)
    (match trendingProducts with
     | [] => 0%float
     | _ => (JS.Z2float totalScore / JS.Z2float (Z.of_nat (length trendingProducts)))%float
     end)
    (price_ranges insights).

(** ** The stock keeping unit *)

Definition alphanumeric (c : ascii) : bool :=
  Text.is_digit c || Text.is_upper c || Text.is_lower c.

(** [s.slice(-n)] *)
Definition last_chars (n : nat) (s : string) : string :=
  String.substring (String.length s - n) n s.

(** [n.toString()] of a whole number. *)
Definition decimal (n : Z) : string :=
  DecimalString.NilZero.string_of_int (Z.to_int n).

(** [generateSKU], lines 365-379; [now] is the reading of the clock. *)
Definition generateSKU (now : Z) (title supplier : string) : string :=
  let cleanTitle :=
    Text.toUpperCase (String.substring 0 10 (Text.keep alphanumeric title)) in
  let supplierCode :=
    Text.toUpperCase (String.substring 0 3 (Text.keep alphanumeric supplier)) in
  let timestamp := last_chars 6 (decimal now) in
  supplierCode +:+ "-" +:+ cleanTitle +:+ "-" +:+ timestamp.

(** ** Registering the jobs *)

Inductive Job :=
| DailyProductAnalysis
| PendingOrders
| MarketingCampaigns
| DailyAnalyticsReport
| StockLevels
| WeeklyTrendingAnalysis
| SystemHealthCheck.

Inductive Line :=
| LogAlreadyInitialized
| LogInitializing
| LogInitialized.

(** The module's [schedulerStarted], the jobs [cron.schedule] was given
    with their expressions, and the console. *)
Record State := mkState {
  schedulerStarted : bool;
  scheduled : list (string * Job);
  console : list Line
}.

(** [initializeScheduler], lines 11-77. *)
Definition initializeScheduler (st : State) : State :=
  if schedulerStarted st then
    mkState true (scheduled st) (console st ++ [LogAlreadyInitialized])
  else
    mkState true
      (scheduled st ++
       [("0 2 * * *", DailyProductAnalysis);
        ("*/5 8-22 * * *", PendingOrders);
        ("0 * * * *", MarketingCampaigns);
        ("0 6 * * *", DailyAnalyticsReport);
        ("*/30 8-22 * * *", StockLevels);
        ("0 3 * * 0", WeeklyTrendingAnalysis);
        ("0 1 * * *", SystemHealthCheck)])
      (console st ++ [LogInitializing; LogInitialized]).

End Scheduler.

(** ** The scheduler: definitions used in the statements *)

(** The names every object answers to: members of [Object.prototype]. *)
Definition prototype_member (key : string) : Prop :=
  key ∈ ["constructor"; "__proto__"; "__defineGetter__"; "__defineSetter__";
         "__lookupGetter__"; "__lookupSetter__"; "hasOwnProperty"; "isPrototypeOf";
         "propertyIsEnumerable"; "toLocaleString"; "toString"; "valueOf"].

Definition plain_keys (row : Trending.TrendingRow) : Prop :=
  ~ prototype_member (Trending.category (Trending.product_data row)) /\
  ~ prototype_member (Trending.supplier (Trending.product_data row)).

(** The number of rows whose product has the key [k] under [f]; a key
    no row has is not in the table. *)
Definition occurrences (f : Trending.Product -> string) (k : string)
    (rows : list Trending.TrendingRow) : Z :=
  Z.of_nat (length (List.filter
                      (fun row => bool_decide (f (Trending.product_data row) = k)) rows)).

Definition counted (n : Z) : option Z := if n =? 0 then None else Some n.

Fixpoint all_chars (f : ascii -> bool) (s : string) : bool :=
  match s with
  | EmptyString => true
  | String c r => f c && all_chars f r
  end.

Definition upper_or_digit (c : ascii) : bool := Text.is_digit c || Text.is_upper c.

(** The first [n] letters and digits of [s], the letters in capitals. *)
Fixpoint leading (s : string) (n : nat) : string :=
  match s with
  | EmptyString => EmptyString
  | String c r =>
      match n with
      | O => EmptyString
      | S n' =>
          if Scheduler.alphanumeric c then String (Text.upper_ascii c) (leading r n')
          else leading r n
      end
  end.

#[global] Instance prototype_member_dec key : Decision (prototype_member key).
Proof. unfold prototype_member. apply _. Defined.

#[global] Instance plain_keys_dec row : Decision (plain_keys row).
Proof. unfold plain_keys. apply _. Defined.

(** The rows the concrete search stored. *)
Definition demo_rows : list Trending.TrendingRow :=
  Trending.trending_products
    (Trending.searchTrendingProducts demo_search (Some "Home") (Some 10) None empty_state).2.

(** * Product analysis: a model of [productAnalysis.js] *)

Module Analysis.

(** The product an analysis is asked for, or the one read off a page;
    a field the object does not have is [None]. *)
Record ProductData := mkProductData {
  url : option string;
  title : string;
  price : option float;
  original_price : option float;
  image_url : option string;
  category : option string;
  supplier : option string;
  rating : float;
  reviews_count : Z
}.

(** The selections the extraction makes on a page: [$(sel).text()],
    [$(sel).first().text()], the same two followed by [.trim()],
    [$(sel).attr('src')] and [$(sel).first().attr('src')]. *)
Record Page := mkPage {
  text : string -> string;
  first_text : string -> string;
  trimmed_text : string -> string;
  first_trimmed_text : string -> string;
  attr_src : string -> option string;
  first_attr_src : string -> option string
}.

(** The fields of the answer the code reads. *)
Record AnalysisResult := mkAnalysisResult {
  score : option float;
  demand : option float;
  competition : option float;
  recommended_price : option float;
  recommended_margin : option float;
  market_trends : option string;
  competitor_analysis : option string
}.

(** A row of [product_analysis]. *)
Record AnalysisRow := mkAnalysisRow {
  source_url : option string;
  product_title : string;
  analysis_price : option float;
  analysis_category : option string;
  analysis_supplier : option string;
  trends_data : option string;
  row_competitor_analysis : option string;
  demand_forecast : float;
  competition_level : string;
  row_recommended_price : option float;
  profit_margin : float;
  status : string
}.

Inductive Line :=
| ErrAIAnalysis (error : Error)
| ErrExtracting (error : Error)
| ErrSaving (error : Error).

Record State := mkState {
  product_analysis : list AnalysisRow;
  console : list Line
}.

Record Env := mkEnv {
  parseFloat : string -> float;                 (* the runtime's [parseFloat] *)
  fetch : string -> Completion Page;            (* [axios.get], then [cheerio.load] *)
  chat : ProductData -> Completion string;      (* the content of the completion *)
  JSON_parse : string -> Completion AnalysisResult;
  random : nat -> float;                        (* the draws of [Math.random()] *)
  GOOGLE_TRENDS_API_KEY : bool;                 (* [process.env] has it *)
  initialized : bool;
  insert : State -> AnalysisRow -> StoreOutcome
}.

Definition say (line : Line) (st : State) : State :=
  mkState (product_analysis st) (console st ++ [line]).

(** [extractPrice], lines 153-157. *)
Definition extractPrice (env : Env) (priceText : string) : float :=
  if bool_decide (priceText = "") then 0%float
  else
    let price :=
      Trending.replace_first_comma (Text.keep Trending.digit_or_separator priceText) in
    let parsed := parseFloat env price in
    if JS.truthy parsed then parsed else 0%float.

(** [a || b] on prices. *)
Definition or_price (a b : float) : float := if JS.truthy a then a else b.

(** [a || b] on attributes; the empty string counts as missing. *)
Definition or_attr (a b : option string) : option string :=
  match a with
  | Some s => if bool_decide (s = "") then b else a
  | None => b
  end.

(** [s.split(' ')[0]] *)
Fixpoint first_word (s : string) : string :=
  match s with
  | EmptyString => EmptyString
  | String c r => if Nat.eqb (nat_of_ascii c) 32 then EmptyString else String c (first_word r)
  end.

(** [parseInt(s.replace(/\D/g, '')) || 0] *)
Definition count_of (s : string) : Z :=
  default 0 (parse_digits (Text.keep Text.is_digit s) None).

Definition blank : ProductData :=
  mkProductData None "" (Some 0%float) (Some 0%float) (Some "") (Some "") None 0%float 0.

Definition supportedSites : list string :=
  ["amazon.com"; "amazon.es"; "aliexpress.com"; "mercadolibre.com"; "ebay.com"].

(** The [try] block of [extractProductFromURL], lines 85-146. *)
Definition extract (env : Env) (address : string) : Completion ProductData :=
  if negb (existsb (fun site => Text.includes address site) supportedSites) then
    Throw (mkError "Sitio no soportado para extracción automática")
  else
    match fetch env address with
    | Throw error => Throw error
    | Normal page =>
        if Text.includes address "amazon" then
          let rated := parseFloat env (first_word (text page ".a-icon-alt")) in
          Normal
            (mkProductData None
               (trimmed_text page "#productTitle")
               (Some (or_price (extractPrice env (text page "#priceblock_dealprice"))
                        (or_price (extractPrice env (text page "#priceblock_ourprice"))
                           (extractPrice env (first_text page ".a-price-whole")))))
               (Some (extractPrice env (text page ".a-text-price")))
               (or_attr (attr_src page "#landingImage") (attr_src page "#main-image"))
               (Some "") None
               (if JS.truthy rated then rated else 0%float)
               (count_of (text page "#acrCustomerReviewText")))
        else if Text.includes address "aliexpress" then
          Normal
            (mkProductData None
               (first_trimmed_text page "h1")
               (Some (extractPrice env (first_text page ".notranslate")))
               (Some (extractPrice env (text page ".price-original")))
               (first_attr_src page ".gallery-preview-frame img")
               (Some "") None 0%float 0)
        else if Text.includes address "mercadolibre" then
          Normal
            (mkProductData None
               (first_trimmed_text page "h1")
               (Some (or_price (extractPrice env (text page ".andes-money-amount--previous"))
                        (extractPrice env (text page ".andes-money-amount"))))
               (Some (extractPrice env (text page ".andes-money-amount--previous")))
               (first_attr_src page "img")
               (Some "") None 0%float 0)
        else Normal blank
    end.

(** [extractProductFromURL], lines 83-151. *)
Definition extractProductFromURL (env : Env) (address : string) (st : State)
  : Completion ProductData * State :=
  match extract env address with
  | Normal extractedData => (Normal extractedData, st)
  | Throw error =>
      (Throw (mkError "No se pudo extraer información del producto"),
       say (ErrExtracting error) st)
  end.

(** [Math.max(a, b)] and [Math.min(a, b)]: [NaN] if either is, and
    [+0] above [-0]. *)
Definition Math_max (a b : float) : float :=
  if PrimFloat.is_nan a || PrimFloat.is_nan b then PrimFloat.nan
  else if (a <? b)%float then b
  else if (b <? a)%float then a
  else if PrimFloat.get_sign a then b else a.

Definition Math_min (a b : float) : float :=
  if PrimFloat.is_nan a || PrimFloat.is_nan b then PrimFloat.nan
  else if (a <? b)%float then a
  else if (b <? a)%float then b
  else if PrimFloat.get_sign a then a else b.

(** [x * y] where [x] may be missing. *)
Definition times (x : option float) (y : float) : float :=
  (default PrimFloat.nan x * y)%float.

(** [generateFallbackAnalysis], lines 248-268; [draws] counts the calls
    of [Math.random()] so far. *)
Definition generateFallbackAnalysis (env : Env) (draws : nat) (productData : ProductData)
  : AnalysisResult :=
  let baseScore := 70%float in
  let marginVariation := (random env draws * 20 - 10)%float in
  {| score := Some (Math_max 0 (Math_min 100 (baseScore + marginVariation)%float));
     demand := Some (JS.Z2float (Trending.Math_floor (random env (1 + draws) * 60)%float + 20));
     competition :=
       Some (JS.Z2float (Trending.Math_floor (random env (2 + draws) * 80)%float + 10));
     recommended_price := Some (times (price productData) 1.25);
     recommended_margin := Some 25%float;
     market_trends := Some "Análisis automático básico - requiere revisión humana";
     competitor_analysis := None |}.

(** [x > y] where [x] may be missing. *)
Definition above (x : option float) (y : float) : bool :=
  match x with
  | Some v => (y <? v)%float
  | None => false
  end.

(** [saveProductAnalysis], lines 222-246. *)
Definition saveProductAnalysis (env : Env) (productData : ProductData)
    (analysisResult : AnalysisResult) (st : State) : State :=
  if initialized env then
    let row :=
      {| source_url := or_attr (url productData) None;
         product_title := title productData;
         analysis_price := price productData;
         analysis_category := category productData;
         analysis_supplier := supplier productData;
         trends_data := or_attr (market_trends analysisResult) None;
         row_competitor_analysis := or_attr (competitor_analysis analysisResult) None;
         demand_forecast := JS.or_default (demand analysisResult) 0;
         competition_level :=
           if above (competition analysisResult) 70 then "high"
           else if above (competition analysisResult) 40 then "medium"
           else "low";
         row_recommended_price :=
           match recommended_price analysisResult with
           | Some p => if JS.truthy p then Some p else price productData
           | None => price productData
           end;
         profit_margin := JS.or_default (recommended_margin analysisResult) 25;
         status := "completed" |} in
    match insert env st row with
    | Applied => mkState (product_analysis st ++ [row]) (console st)
    | Rejected => st
    | Raises error => say (ErrSaving error) st
    end
  else
    say (ErrSaving (mkError "Database not initialized. Call initializeDatabase() first.")) st.

(** The [try] block of [analyzeProductWithAI], lines 12-74, with the
    value of the variable [productData] and the number of draws of
    [Math.random()] at its end. The market data of
    [getMarketAnalysisData], which draw once for the search trends when
    the key is set and twice for the competitors, only enter the prompt;
    they are part of what [chat] answers to. *)
Definition analyze (env : Env) (productData : ProductData) (st : State)
  : Completion AnalysisResult * State * ProductData * nat :=
  let extracted :=
    match or_attr (url productData) None with
    | Some address => extractProductFromURL env address st
    | None => (Normal productData, st)
    end in
  match extracted with
  | (Throw error, st) => (Throw error, st, productData, 0%nat)
  | (Normal productData, st) =>
      let draws := if GOOGLE_TRENDS_API_KEY env then 3%nat else 2%nat in
      match chat env productData with
      | Throw error => (Throw error, st, productData, draws)
      | Normal content =>
          match JSON_parse env content with
          | Throw error => (Throw error, st, productData, draws)
          | Normal analysisResult =>
              (Normal analysisResult, saveProductAnalysis env productData analysisResult st,
               productData, draws)
          end
      end
  end.

(** [analyzeProductWithAI], lines 10-81. *)
Definition analyzeProductWithAI (env : Env) (productData : ProductData) (st : State)
  : AnalysisResult * State :=
  match analyze env productData st with
  | (Normal analysisResult, st, _, _) => (analysisResult, st)
  | (Throw error, st, productData, draws) =>
      (generateFallbackAnalysis env draws productData, say (ErrAIAnalysis error) st)
  end.

End Analysis.

(** ** Product analysis: definitions used in the statements *)

Definition masked : Error := mkError "No se pudo extraer información del producto".

(** The address is taken for one of a supported site, and for none of
    the three sites the extraction knows. *)
Definition supported_only (address : string) : Prop :=
  existsb (fun site => Text.includes address site) Analysis.supportedSites = true /\
  Text.includes address "amazon" = false /\
  Text.includes address "aliexpress" = false /\
  Text.includes address "mercadolibre" = false.

(** An analysis that cannot reach its service, asked for a page that
    cannot be fetched. *)
Definition offline : Analysis.Env :=
  {| Analysis.parseFloat := parse_whole;
     Analysis.fetch := fun address =>
       if Text.includes address "ebay"
       then Normal (Analysis.mkPage (fun _ => "x") (fun _ => "x") (fun _ => "x")
                      (fun _ => "x") (fun _ => None) (fun _ => None))
       else Throw (mkError "getaddrinfo ENOTFOUND");
     Analysis.chat := fun _ => Throw (mkError "Connection error.");
     Analysis.JSON_parse := fun _ => Throw (mkError "Unexpected end of JSON input");
     Analysis.random := fun _ => 0.5%float;
     Analysis.GOOGLE_TRENDS_API_KEY := false;
     Analysis.initialized := true;
     Analysis.insert := fun _ _ => Applied |}.

(** A request that names a page and nothing else. *)
Definition by_address (address : string) : Analysis.ProductData :=
  Analysis.mkProductData (Some address) "" None None None None None 0%float 0.

Definition no_analysis : Analysis.State := Analysis.mkState [] [].

(** * The product controller: a model of two handlers of
    [productController.js] *)

Module Products.

(** ** The window of [getProducts] *)

(** A value of the pagination arithmetic: a whole number, or a string of
    the query. *)
Inductive Value :=
| Num (n : Z)
| Str (s : string).

(** [Number.MAX_SAFE_INTEGER]. Numbers are binary64 values: on whole
    numbers up to this bound their arithmetic is the arithmetic of whole
    numbers, and a whole number prints as its decimal numeral. The model
    covers the queries whose numbers stay within the bound and gives
    [None] for the others. *)
Definition MAX_SAFE_INTEGER : Z := 9007199254740991.

Definition safe (n : Z) : option Z :=
  if Z.abs n <=? MAX_SAFE_INTEGER then Some n else None.

(** The number a string of decimal digits converts to; the model covers
    no other string ([None]). *)
Fixpoint digits_value (s : string) (acc : Z) : option Z :=
  match s with
  | EmptyString => Some acc
  | String c r =>
      if Text.is_digit c
      then digits_value r (acc * 10 + Z.of_nat (nat_of_ascii c - 48))
      else None
  end.

Definition ToNumber (v : Value) : option Z :=
  match v with
  | Num n => safe n
  | Str s => digits_value s 0 ≫= safe
  end.

Definition ToString (v : Value) : option string :=
  match v with
  | Num n => Scheduler.decimal <$> safe n
  | Str s => Some s
  end.

(** [a - b] and [a * b] convert both sides to numbers; [a + b] joins
    the two as strings unless both are numbers. *)
Definition minus (a b : Value) : option Z :=
  x ← ToNumber a; y ← ToNumber b; safe (x - y).

Definition times (a b : Value) : option Z :=
  x ← ToNumber a; y ← ToNumber b; safe (x * y).

Definition plus (a b : Value) : option Value :=
  match a, b with
  | Num _, Num _ => x ← ToNumber a; y ← ToNumber b; Num <$> safe (x + y)
  | _, _ => x ← ToString a; y ← ToString b; Some (Str (x +:+ y))
  end.

(** The arguments of [query.range(offset, offset + limit - 1)] in
    [getProducts], lines 35-44 and 64, from the [page] and [limit] of the
    query, each a string, or [None] where the query has none; a
    parameter the query gives more than once is not covered. The result
    is [None] where the model does not cover the numbers. *)
Definition getProducts_range (page limit : option string) : option (Z * Z) :=
  let page := default (Num 1) (Str <$> page) in
  let limit := default (Num 12) (Str <$> limit) in
  page_minus_1 ← minus page (Num 1);
  offset ← times (Num page_minus_1) limit;
  offset_plus_limit ← plus (Num offset) limit;
  to ← minus offset_plus_limit (Num 1);
  Some (offset, to).

(** ** [bulkImportProducts] *)

(** A product of the request; what the analysis adds is [None] before. *)
Record Item := mkItem {
  title : option string;
  price : option float;
  category : option string;
  supplier : option string;
  rest : string;                      (* the other fields, as they came *)
  score : option float;
  demand_score : option float;
  competition_score : option float;
  margin_percentage : option float
}.

(** An element of the array of the request: [null], or an object. An
    element that is a number, a string, a truth value or an array is not
    covered. *)
Inductive Element :=
| NullElement
| Product (item : Item).

Inductive BatchResult :=
| BatchError (error : string) (products : list Element)
| BatchSuccess (count : nat) (products : list Item).

Inductive Body :=
| BadRequest (message : string)
| ServerError (message : string)
| Imported (processed : nat) (results : list BatchResult).

Record Response := mkResponse {
  code : Z;
  body : Body
}.

(** What the awaited insert of a batch does: it resolves with the rows
    or with an [error], or it rejects. *)
Inductive Answer :=
| Data (rows : list Item)
| Failed (error : Error)
| Rejects (error : Error).

(** What a run leaves behind: the lines it prints, kept by the place
    that prints them, and the batches it sends to the store. The lines
    of the analyses are printed as the analyses settle, which need not
    be in the order of the products. *)
Record State := mkState {
  analyzing : list (option string * Error);   (* 'Error analyzing product:' *)
  inserting : list Error;                     (* 'Error inserting batch:' *)
  importing : list Error;                     (* 'Error bulk importing products:' *)
  inserted : list (list Item)
}.

(** The collaborators: [try_analysis] is the [try] block of the function
    mapped over a batch, the awaited analysis and the reading of its
    result, by the index of the product in the array; [insert] is the
    insert of the batch that starts at an index. *)
Record Env := mkEnv {
  initialized : bool;
  try_analysis : nat -> Item -> Completion Analysis.AnalysisResult;
  insert : nat -> list Item -> Answer
}.

(** The function mapped over a batch, lines 353-373. Reading
    [product.title] of [null] throws inside the [try], and again inside
    the [catch], whose [console.error] reads it too: the promise of that
    product rejects. For an object the [catch] returns the product as it
    came. *)
Definition analyzed (env : Env) (index : nat) (product : Element) : Completion Item :=
  match product with
  | NullElement => Throw (mkError "Cannot read properties of null (reading 'title')")
  | Product item =>
      match try_analysis env index item with
      | Normal analysisResult =>
          Normal
            (mkItem (title item) (price item) (category item) (supplier item) (rest item)
               (Analysis.score analysisResult) (Analysis.demand analysisResult)
               (Analysis.competition analysisResult)
               (Analysis.recommended_margin analysisResult))
      | Throw _ => Normal item
      end
  end.

(** What the [catch] prints for a product. *)
Definition complaint (env : Env) (index : nat) (product : Element)
  : list (option string * Error) :=
  match product with
  | NullElement => []
  | Product item =>
      match try_analysis env index item with
      | Normal _ => []
      | Throw error => [(title item, error)]
      end
  end.

(** [Promise.all(batch.map(...))]: the analysed batch, or the first
    rejection. *)
Fixpoint analyze_each (env : Env) (index : nat) (batch : list Element)
  : Completion (list Item) :=
  match batch with
  | [] => Normal []
  | product :: rest =>
      match analyzed env index product with
      | Throw error => Throw error
      | Normal item =>
          match analyze_each env (S index) rest with
          | Throw error => Throw error
          | Normal items => Normal (item :: items)
          end
      end
  end.

Fixpoint complaints (env : Env) (index : nat) (batch : list Element)
  : list (option string * Error) :=
  match batch with
  | [] => []
  | product :: rest => complaint env index product ++ complaints env (S index) rest
  end.

(** The loop of lines 348-388, from the index [i] on. *)
Fixpoint import_from (env : Env) (fuel i : nat) (products : list Element)
    (results : list BatchResult) (st : State) : Completion (list BatchResult) * State :=
  match fuel with
  | O => (Normal results, st)
  | S fuel' =>
      if (i <? length products)%nat then
        let batch := take 10 (drop i products) in
        let st := mkState (analyzing st ++ complaints env i batch) (inserting st)
                    (importing st) (inserted st) in
        match analyze_each env i batch with
        | Throw error => (Throw error, st)
        | Normal analyzedBatch =>
            let st := mkState (analyzing st) (inserting st) (importing st)
                        (inserted st ++ [analyzedBatch]) in
            match insert env i analyzedBatch with
            | Rejects error => (Throw error, st)
            | Failed error =>
                import_from env fuel' (i + 10) products
                  (results ++ [BatchError (message error) batch])
                  (mkState (analyzing st) (inserting st ++ [error]) (importing st)
                     (inserted st))
            | Data data =>
                import_from env fuel' (i + 10) products
                  (results ++ [BatchSuccess (length data) data]) st
            end
        end
      else (Normal results, st)
  end.

(** [bulkImportProducts], lines 330-406; [products] is [None] when the
    body holds no array. The loop takes a turn per ten products, and
    one more look at its test. *)
Definition bulkImportProducts (env : Env) (products : option (list Element)) (st : State)
  : Response * State :=
  let failed error st :=
    (mkResponse 500 (ServerError "Error al importar productos en lote"),
     mkState (analyzing st) (inserting st) (importing st ++ [error]) (inserted st)) in
  match products with
  | None | Some [] => (mkResponse 400 (BadRequest "Se requiere un array de productos"), st)
  | Some products =>
      if initialized env then
        match import_from env (S (length products)) 0 products [] st with
        | (Normal results, st) =>
            (mkResponse 200 (Imported (length products) results), st)
        | (Throw error, st) => failed error st
        end
      else failed (mkError "Database not initialized. Call initializeDatabase() first.") st
  end.

End Products.

(** ** The product controller: definitions used in the statements *)

(** The last index of a window of [limit] rows from [offset] on. *)
Definition window_end (offset limit : Z) : Z := offset + limit - 1.

(** The batches of ten of [bulkImportProducts]. *)
Fixpoint batches_of (fuel : nat) (products : list Products.Element)
  : list (list Products.Element) :=
  match fuel, products with
  | S fuel', _ :: _ => take 10 products :: batches_of fuel' (drop 10 products)
  | _, _ => []
  end.

Definition batch_of (result : Products.BatchResult) (batch : list Products.Element) : Prop :=
  match result with
  | Products.BatchError _ products => products = batch
  | Products.BatchSuccess count products => count = length products
  end.

(** The error of reading the title of [null]. *)
Definition null_title : Error :=
  mkError "Cannot read properties of null (reading 'title')".

(** A store that takes nothing, and analyses that fail. *)
Definition refusing : Products.Env :=
  {| Products.initialized := true;
     Products.try_analysis := fun _ _ => Throw (mkError "Connection error.");
     Products.insert := fun _ _ => Products.Failed (mkError "permission denied") |}.

Definition lamp (n : Z) : Products.Element :=
  Products.Product
    (Products.mkItem (Some ("Lamp " +:+ Scheduler.decimal n)) (Some 25%float) None None ""
       None None None None).

Definition idle : Products.State := Products.mkState [] [] [] [].

(** The number the digits of a numeral spell, read after [acc]. *)
Fixpoint horner (d : Decimal.uint) (acc : Z) : Z :=
  match d with
  | Decimal.Nil => acc
  | Decimal.D0 l => horner l (acc * 10)
  | Decimal.D1 l => horner l (acc * 10 + 1)
  | Decimal.D2 l => horner l (acc * 10 + 2)
  | Decimal.D3 l => horner l (acc * 10 + 3)
  | Decimal.D4 l => horner l (acc * 10 + 4)
  | Decimal.D5 l => horner l (acc * 10 + 5)
  | Decimal.D6 l => horner l (acc * 10 + 6)
  | Decimal.D7 l => horner l (acc * 10 + 7)
  | Decimal.D8 l => horner l (acc * 10 + 8)
  | Decimal.D9 l => horner l (acc * 10 + 9)
  end.

(** * Order status and tracking: a model of [getOrderStatus] and
    [trackSupplierOrder] of [orderProcessor.js] *)

Module Tracking.

Record TrackingEvent := mkTrackingEvent {
  timestamp : Z;
  event_status : string;
  location : string
}.

Record TrackingData := mkTrackingData {
  status : string;
  estimated_delivery : Z;
  tracking_events : list TrackingEvent
}.

(** The columns of [order_items] that only the tracking writes. *)
Record Tracked := mkTracked {
  tracking_number : string;
  tracking_data : TrackingData
}.

(** The tables of the store, and those columns by the key of the item. *)
Record Store := mkStore {
  tables : Db;
  tracked : gmap string Tracked
}.

Inductive Line :=
| ErrGettingStatus (error : Error)
| ErrTracking (error : Error).

Record State := mkState {
  store : Store;
  console : list Line
}.

Record Env := mkEnv {
  initialized : bool;
  now : nat -> Z;                       (* the readings of [Date.now()] of the call *)
  update : State -> StoreOutcome;       (* what the awaited update does *)
  select_error : State -> option Error; (* the [error] the select resolves with *)
  no_rows : Error                       (* the [error] of [.single()] without a row *)
}.

Definition say (line : Line) (st : State) : State :=
  mkState (store st) (console st ++ [line]).

(** [new Date(t).toISOString()]: a time outside the range of dates has
    no such string. *)
Definition toISOString (t : Z) : Completion Z :=
  if Z.abs t <=? 8640000000000000 then Normal t
  else Throw (mkError "Invalid time value").

Definition in_transit (r : ItemRow) : ItemRow :=
  {| item_order_id := item_order_id r;
     product_id := product_id r;
     quantity := quantity r;
     unit_price := unit_price r;
     total_price := total_price r;
     profit_margin := profit_margin r;
     supplier := supplier r;
     shipping_address := shipping_address r;
     supplier_order_id := supplier_order_id r;
     supplier_status := "in_transit" |}.

(** [.update({tracking_number, supplier_status: 'in_transit',
    tracking_data}).eq('supplier_order_id', supplierOrderId)] *)
Definition matches (supplierOrderId : string) (r : ItemRow) : bool :=
  bool_decide (supplier_order_id r = Some supplierOrderId).

Definition set_tracking (supplierOrderId : string) (trackingData : TrackingData)
    (s : Store) : Store :=
  let items := db_order_items (tables s) in
  mkStore
    (mkDb (db_orders (tables s))
       ((fun r => if matches supplierOrderId r then in_transit r else r) <$> items)
       (db_profit_transfers (tables s)))
    (((fun _ => mkTracked ("TRK" +:+ supplierOrderId) trackingData)
        <$> filter (fun kv => matches supplierOrderId kv.2 = true) items)
     ∪ tracked s).

(** The [try] block of [trackSupplierOrder], lines 324-355. *)
Definition track (env : Env) (supplierOrderId supplier : string) (st : State)
  : Completion TrackingData * State :=
  match toISOString (now env 0 + 2 * 24 * 60 * 60 * 1000) with
  | Throw error => (Throw error, st)
  | Normal estimated =>
      match toISOString (now env 1 - 24 * 60 * 60 * 1000) with
      | Throw error => (Throw error, st)
      | Normal processed =>
          match toISOString (now env 2 - 12 * 60 * 60 * 1000) with
          | Throw error => (Throw error, st)
          | Normal shipped =>
              let trackingData :=
                {| status := "in_transit";
                   estimated_delivery := estimated;
                   tracking_events :=
                     [mkTrackingEvent processed "order_processed" "Supplier warehouse";
                      mkTrackingEvent shipped "shipped" "Origin facility"] |} in
              if initialized env then
                match update env st with
                | Applied =>
                    (Normal trackingData,
                     mkState (set_tracking supplierOrderId trackingData (store st))
                       (console st))
                | Rejected => (Normal trackingData, st)
                | Raises error => (Throw error, st)
                end
              else
                (Throw
                   (mkError "Database not initialized. Call initializeDatabase() first."),
                 st)
          end
      end
  end.

(** [trackSupplierOrder], lines 322-360. *)
Definition trackSupplierOrder (env : Env) (supplierOrderId supplier : string) (st : State)
  : Completion TrackingData * State :=
  match track env supplierOrderId supplier st with
  | (Normal trackingData, st) => (Normal trackingData, st)
  | (Throw error, st) => (Throw error, say (ErrTracking error) st)
  end.

(** An entry of [supplierOrders]. *)
Record SupplierOrderStatus := mkSupplierOrderStatus {
  entry_supplier_order_id : option string;
  entry_supplier : Field;
  entry_status : string;
  entry_tracking_number : option string
}.

Record OrderStatus := mkOrderStatus {
  order : Order;
  supplierOrders : list SupplierOrderStatus
}.

Definition entry_of (s : Store) (item : OrderItem) : SupplierOrderStatus :=
  {| entry_supplier_order_id := supplier_order_id item;
     entry_supplier := supplier item;
     entry_status := supplier_status item;
     entry_tracking_number := tracking_number <$> tracked s !! item_id item |}.

(** The [try] block of [getOrderStatus], lines 294-315. *)
Definition read_status (env : Env) (orderId : string) (st : State) : Completion OrderStatus :=
  if initialized env then
    match select_error env st with
    | Some error => Throw error
    | None =>
        match db_orders (tables (store st)) !! orderId with
        | None => Throw (no_rows env)
        | Some row =>
            let items := items_of (tables (store st)) orderId in
            Normal (mkOrderStatus (mkOrder orderId row (Some items))
                      (entry_of (store st) <$> items))
        end
    end
  else Throw (mkError "Database not initialized. Call initializeDatabase() first.").

(** [getOrderStatus], lines 292-320. *)
Definition getOrderStatus (env : Env) (orderId : string) (st : State)
  : Completion OrderStatus * State :=
  match read_status env orderId st with
  | Normal found => (Normal found, st)
  | Throw error => (Throw error, say (ErrGettingStatus error) st)
  end.

End Tracking.

(** ** Order status and tracking: definitions used in the statements *)

(** The clock of a call does not run backwards, shows a date, and the
    call takes less than sixty hours. *)
Definition steady (env : Tracking.Env) : Prop :=
  0 <= Tracking.now env 0 <= Tracking.now env 1 /\
  Tracking.now env 1 <= Tracking.now env 2 /\
  Tracking.now env 2 < Tracking.now env 0 + 60 * 60 * 60 * 1000 /\
  Tracking.now env 2 <= 8000000000000000.

(** The data every successful call reports. *)
Definition reported (env : Tracking.Env) : Tracking.TrackingData :=
  {| Tracking.status := "in_transit";
     Tracking.estimated_delivery := Tracking.now env 0 + 172800000;
     Tracking.tracking_events :=
       [Tracking.mkTrackingEvent (Tracking.now env 1 - 86400000) "order_processed"
          "Supplier warehouse";
        Tracking.mkTrackingEvent (Tracking.now env 2 - 43200000) "shipped"
          "Origin facility"] |}.

(** A store that takes the update, read by a steady clock; and the
    tables of the concrete runs once order 1 went through. *)
Definition tracking_env : Tracking.Env :=
  {| Tracking.initialized := true;
     Tracking.now := fun k => 1700000000000 + Z.of_nat k;
     Tracking.update := fun _ => Applied;
     Tracking.select_error := fun _ => None;
     Tracking.no_rows := mkError "JSON object requested, multiple (or no) rows returned" |}.

Definition tracking_start : Tracking.State :=
  Tracking.mkState
    (Tracking.mkStore (db (processSingleOrder env_ok order1_listed demo_world).2) ∅) [].

(** The row of order 1 once it went through. *)
Definition order1_row_settled : OrderRow :=
  Eval vm_compute in
    default (demo_row "ORD-1" "stripe" "pi_paid" "pending" 1)
      (db_orders (db (processSingleOrder env_ok order1_listed demo_world).2) !! "o1").

(** * Lemmas and theorems *)

(** ** Reasoning about runs *)

Lemma extend_nil w : extend w [] = w.
Proof. destruct w. unfold extend. simpl. by rewrite app_nil_r. Qed.

Lemma extend_app w evs1 evs2 : extend (extend w evs1) evs2 = extend w (evs1 ++ evs2).
Proof. unfold extend, replay. simpl. by rewrite fold_left_app, app_assoc. Qed.

Lemma extend_log w evs : log (extend w evs) = log w ++ evs.
Proof. reflexivity. Qed.

Section Emits.
Context {A B : Type} (P : Event -> Prop).

Lemma emits_ret (a : A) : emits P (ret a).
Proof. intros w. exists []. split; [constructor | symmetry; apply extend_nil]. Qed.

Lemma emits_throw (e : Error) : emits P (@throw A e).
Proof. intros w. exists []. split; [constructor | symmetry; apply extend_nil]. Qed.

Lemma emits_bind (m : M A) (k : A -> M B) :
  emits P m -> (forall a, emits P (k a)) -> emits P (bind m k).
Proof.
  intros Hm Hk w. unfold bind. destruct (Hm w) as (evs1 & H1 & E1).
  destruct (m w) as [[a|e] w1]; simpl in E1; subst w1.
  - destruct (Hk a (extend w evs1)) as (evs2 & H2 & E2).
    exists (evs1 ++ evs2). split; [by apply Forall_app|].
    by rewrite E2, extend_app.
  - by exists evs1.
Qed.

Lemma emits_try_catch (m : M A) (h : Error -> M A) :
  emits P m -> (forall e, emits P (h e)) -> emits P (try_catch m h).
Proof.
  intros Hm Hh w. unfold try_catch. destruct (Hm w) as (evs1 & H1 & E1).
  destruct (m w) as [[a|e] w1]; simpl in E1; subst w1.
  - by exists evs1.
  - destruct (Hh e (extend w evs1)) as (evs2 & H2 & E2).
    exists (evs1 ++ evs2). split; [by apply Forall_app|].
    by rewrite E2, extend_app.
Qed.

Lemma emits_weaken (Q : Event -> Prop) (m : M A) :
  (forall ev, Q ev -> P ev) -> emits Q m -> emits P m.
Proof.
  intros HQ Hm w. destruct (Hm w) as (evs & H & E). exists evs.
  split; [|done]. eapply Forall_impl; eauto.
Qed.
End Emits.

Lemma emits_emit P ev :
  (forall d, replay_event d ev = d) -> P ev -> emits P (emit ev).
Proof.
  intros Hd H w. exists [ev]. split; [by repeat constructor|].
  unfold emit, extend. simpl. by rewrite Hd.
Qed.

Section EmitsPrimitives.
Variable env : Env.
Variable P : Event -> Prop.

Lemma emits_new_Date : emits P (new_Date env).
Proof. intros w. exists []. split; [constructor | symmetry; apply extend_nil]. Qed.

Lemma emits_generateSupplierOrderId : emits P (generateSupplierOrderId env).
Proof. intros w. exists []. split; [constructor | symmetry; apply extend_nil]. Qed.

Lemma emits_getDatabase : emits P (getDatabase env).
Proof. unfold getDatabase. destruct (db_initialized env); [apply emits_ret | apply emits_throw]. Qed.

Lemma emits_store_write op : (forall out, P (EvStore op out)) -> emits P (store_write env op).
Proof.
  intros H w. exists [EvStore op (store_fault env w op)].
  split; [by repeat constructor|].
  unfold store_write, extend. by destruct (store_fault env w op).
Qed.

Lemma emits_retrieve ref : P (EvRetrieve ref) -> emits P (retrieve env ref).
Proof. intros H w. exists [EvRetrieve ref]. split; [by repeat constructor | done]. Qed.

Lemma emits_create_payout req : P (EvPayout req) -> emits P (create_payout env req).
Proof. intros H w. exists [EvPayout req]. split; [by repeat constructor | done]. Qed.

Lemma emits_select_pending : emits P (select_pending env).
Proof.
  intros w. exists []. split; [constructor|].
  unfold select_pending. destruct (select_error env w); symmetry; apply extend_nil.
Qed.
End EmitsPrimitives.

(** Decomposes a goal [emits P m] along the structure of [m]; what is left
    are the side conditions [P ev] of the events [m] may emit. *)
Ltac emits_step :=
  match goal with
  | |- emits _ (bind _ _) => apply emits_bind; [|intros ?]
  | |- emits _ (try_catch _ _) => apply emits_try_catch; [|intros ?]
  | |- emits _ (ret _) => apply emits_ret
  | |- emits _ (throw _) => apply emits_throw
  | |- emits _ (emit _) => apply emits_emit; [reflexivity|]
  | |- emits _ (console_log _) => apply emits_emit; [reflexivity|]
  | |- emits _ (console_error _) => apply emits_emit; [reflexivity|]
  | |- emits _ (new_Date _) => apply emits_new_Date
  | |- emits _ (getDatabase _) => apply emits_getDatabase
  | |- emits _ (store_write _ _) => apply emits_store_write; intros ?
  | |- emits _ (retrieve _ _) => apply emits_retrieve
  | |- emits _ (create_payout _ _) => apply emits_create_payout
  | |- emits _ (select_pending _) => apply emits_select_pending
  | |- emits _ (generateSupplierOrderId _) => apply emits_generateSupplierOrderId
  | |- emits _ (if ?b then _ else _) => destruct b
  | |- emits _ (match ?x with Some _ => _ | None => _ end) => destruct x
  | |- emits _ (match ?x with Missing => _ | Null => _ | Given _ => _ end) => destruct x
  end.

Ltac emits_auto := repeat emits_step; simpl; try done.

(** Brings the worlds of a goal to the form [log w ++ [ev1; ...; evn]]. *)
Ltac norm_world :=
  unfold extend;
  cbn [replay fold_left replay_event db log fst snd];
  rewrite <- ?app_assoc; cbn [app].

(** ** The events of each phase *)

Section PhaseEvents.
Variable env : Env.

Lemma processPayment_emits o : emits (payment_event o) (processPayment env o).
Proof. unfold processPayment. emits_auto. Qed.

Lemma createSupplierOrder_emits items item :
  item ∈ items -> emits (dispatch_event items) (createSupplierOrder env item).
Proof.
  intros Hin. unfold createSupplierOrder, getEstimatedDeliveryDate. emits_auto.
Qed.

Lemma dispatch_item_emits items item acc :
  item ∈ items -> emits (dispatch_event items) (dispatch_item env item acc).
Proof.
  intros Hin. unfold dispatch_item. emits_step.
  - emits_step; [by apply createSupplierOrder_emits|]. emits_auto.
    by apply list_elem_of_fmap_2.
  - emits_auto.
Qed.

Lemma dispatch_items_emits items rest acc :
  rest ⊆ items -> emits (dispatch_event items) (dispatch_items env rest acc).
Proof.
  revert acc. induction rest as [|item rest IH]; intros acc Hsub; simpl.
  - apply emits_ret.
  - apply emits_bind.
    + apply dispatch_item_emits. apply Hsub. by left.
    + intros acc'. apply IH. intros x Hx. apply Hsub. by right.
Qed.

Lemma processSupplierOrders_emits items :
  emits (dispatch_event (default [] items)) (processSupplierOrders env items).
Proof.
  destruct items as [items|]; simpl; [|apply emits_throw].
  by apply dispatch_items_emits.
Qed.

Lemma handleProfitTransfer_emits o amount :
  emits (payout_event o amount) (handleProfitTransfer env o amount).
Proof.
  unfold handleProfitTransfer, transferToBankAccount, markPayPalTransfer.
  emits_auto; auto.
Qed.

Lemma verify_payment_emits o : emits (order_event o) (verify_payment env o).
Proof.
  unfold verify_payment. emits_step; [emits_auto|].
  emits_step; [emits_auto; by do 3 right|].
  destruct (bool_decide _); [|apply emits_ret].
  eapply emits_weaken; [|apply processPayment_emits]. intros; by left.
Qed.

Lemma record_profit_emits o : emits (order_event o) (record_profit env o).
Proof. unfold record_profit. emits_auto. do 3 right. simpl. auto. Qed.

Lemma reach_dispatch_emits o : emits (order_event o) (reach_dispatch env o).
Proof.
  unfold reach_dispatch. emits_step;
    [apply verify_payment_emits | apply record_profit_emits].
Qed.

Lemma fulfil_emits o : emits (order_event o) (fulfil env o).
Proof.
  unfold fulfil. emits_step; [apply reach_dispatch_emits|].
  emits_step; [|apply emits_ret].
  eapply emits_weaken; [|apply processSupplierOrders_emits]. intros; by right; left.
Qed.

Lemma settle_emits o :
  emits (order_event o) (settle env o (calculateProfit o)).
Proof.
  unfold settle. emits_step.
  { eapply emits_weaken; [|apply handleProfitTransfer_emits].
    intros; by right; right; left. }
  emits_auto; do 3 right; simpl; auto.
Qed.

Lemma reach_dispatch_result o w p w' :
  reach_dispatch env o w = (Normal p, w') -> p = calculateProfit o.
Proof.
  unfold reach_dispatch, record_profit, bind. intros H.
  repeat match type of H with
         | match ?m with _ => _ end = _ =>
             destruct m as [[?|?] ?] eqn:?; try discriminate
         end.
  unfold ret in H. congruence.
Qed.

Lemma fulfil_result o w p w' :
  fulfil env o w = (Normal p, w') -> p = calculateProfit o.
Proof.
  unfold fulfil, bind. intros H.
  destruct (reach_dispatch env o w) as [[p'|?] w1] eqn:Hr; [|discriminate].
  apply reach_dispatch_result in Hr. subst p'.
  destruct (processSupplierOrders _ _ _) as [[?|?] ?]; [|discriminate].
  unfold ret in H. congruence.
Qed.

Lemma processSingleOrder_emits o : emits (order_event o) (processSingleOrder env o).
Proof.
  intros w. unfold processSingleOrder, bind.
  destruct (fulfil_emits o w) as (evs1 & H1 & E1).
  destruct (fulfil env o w) as [[p|e] w1] eqn:Hf; simpl in E1; subst w1.
  - apply fulfil_result in Hf. subst p.
    destruct (settle_emits o (extend w evs1)) as (evs2 & H2 & E2).
    exists (evs1 ++ evs2). split; [by apply Forall_app|].
    by rewrite E2, extend_app.
  - by exists evs1.
Qed.

Lemma mark_failed_emits o e : emits (order_event o) (mark_failed env o e).
Proof. unfold mark_failed. emits_auto; do 3 right; simpl; auto. Qed.

Lemma process_order_emits o : emits (order_event o) (process_order env o).
Proof.
  unfold process_order. apply emits_try_catch.
  - apply processSingleOrder_emits.
  - intros e. apply mark_failed_emits.
Qed.

End PhaseEvents.

(** ** What a replay leaves alone *)

Lemma replay_app evs1 evs2 d : replay (evs1 ++ evs2) d = replay evs2 (replay evs1 d).
Proof. apply fold_left_app. Qed.

Lemma replay_orders_other id evs d :
  Forall (fun ev => order_write_id ev <> Some id) evs ->
  db_orders (replay evs d) !! id = db_orders d !! id.
Proof.
  revert d. induction evs as [|ev evs IH]; intros d H; [done|].
  inversion H as [|? ? Hev Hevs]; subst. simpl. rewrite IH by done.
  destruct ev as [| | | | | |[id' p|id' so|t] []]; simpl; try done.
  apply lookup_alter_ne. simpl in Hev. congruence.
Qed.

Lemma replay_orders_is_Some id evs d :
  is_Some (db_orders (replay evs d) !! id) <-> is_Some (db_orders d !! id).
Proof.
  revert d. induction evs as [|ev evs IH]; intros d; [done|].
  simpl. rewrite IH.
  destruct ev as [| | | | | |[id' p|id' so|t] []]; simpl; try done.
  rewrite lookup_alter. case_decide; subst; [|done].
  by rewrite fmap_is_Some.
Qed.

Lemma replay_orders_unchanged evs d :
  Forall (fun ev => order_write_id ev = None) evs ->
  db_orders (replay evs d) = db_orders d.
Proof.
  revert d. induction evs as [|ev evs IH]; intros d H; [done|].
  inversion H as [|? ? Hev Hevs]; subst. simpl. rewrite IH by done.
  by destruct ev as [| | | | | |[id' p|id' so|t] []].
Qed.

Lemma replay_items_unchanged evs d :
  Forall (fun ev => is_item_write ev = false) evs ->
  db_order_items (replay evs d) = db_order_items d.
Proof.
  revert d. induction evs as [|ev evs IH]; intros d H; [done|].
  inversion H as [|? ? Hev Hevs]; subst. simpl. rewrite IH by done.
  by destruct ev as [| | | | | |[id' p|id' so|t] []].
Qed.

Lemma replay_transfers_unchanged evs d :
  Forall (fun ev => is_transfer_insert ev = false) evs ->
  db_profit_transfers (replay evs d) = db_profit_transfers d.
Proof.
  revert d. induction evs as [|ev evs IH]; intros d H; [done|].
  inversion H as [|? ? Hev Hevs]; subst. simpl. rewrite IH by done.
  by destruct ev as [| | | | | |[id' p|id' so|t] []].
Qed.

Lemma created_app evs1 evs2 : created (evs1 ++ evs2) = created evs1 ++ created evs2.
Proof. apply omap_app. Qed.

Lemma created_none evs :
  Forall (fun ev => match ev with EvSupplierOrder _ _ => False | _ => True end) evs ->
  created evs = [].
Proof.
  induction 1 as [|ev evs Hev _ IH]; [done|].
  unfold created in *. by destruct ev.
Qed.

Lemma verifications_app evs1 evs2 :
  verifications (evs1 ++ evs2) = (verifications evs1 + verifications evs2)%nat.
Proof. unfold verifications. by rewrite List.filter_app, length_app. Qed.

Lemma verifications_none evs :
  Forall (fun ev => is_verification ev = false) evs ->
  verifications evs = 0%nat.
Proof.
  induction 1 as [|ev evs Hev _ IH]; [done|].
  unfold verifications in *. cbn. by rewrite Hev.
Qed.

(** ** Reliable store *)

Lemma unsupported_tests env (o : Order) :
  unsupported env o ->
  bool_decide (payment_method o = "stripe") && stripe env = false /\
  bool_decide (payment_method o = "paypal") = false.
Proof.
  intros [H1 H2]. split.
  - apply andb_false_iff. destruct (stripe env); [left|by right].
    apply bool_decide_eq_false. tauto.
  - by apply bool_decide_eq_false.
Qed.

Lemma processSingleOrder_unsupported env (o : Order) w :
  db_initialized env = true -> payment_status o = "pending" -> unsupported env o ->
  processSingleOrder env o w =
    (Throw (mkError "Unsupported payment method"),
     extend w [EvLog (LogProcessingOrder (order_number o));
               EvProcessPayment (order_id o);
               EvError (ErrPaymentFailed (order_number o)
                          (mkError "Unsupported payment method"))]).
Proof.
  intros Hdb Hpend [Hs Hp]%unsupported_tests.
  unfold processSingleOrder, fulfil, reach_dispatch, verify_payment, processPayment,
    getDatabase, bind at 1 2 3 4 5.
  rewrite Hdb. simpl. rewrite Hpend. simpl.
  unfold bind, try_catch. simpl. rewrite Hs, Hp. simpl.
  unfold extend. simpl. by rewrite <- !app_assoc.
Qed.

Lemma mark_failed_run env (o : Order) e w :
  mark_failed env o e w =
    let w1 := extend w [EvError (ErrProcessingOrder (order_id o) e)] in
    store_write env (UpdateOrder (order_id o) (failed_patch e (Date_now env w1))) w1.
Proof. reflexivity. Qed.

Lemma store_write_applied env op w :
  store_fault env w op = Applied ->
  store_write env op w = (Normal tt, extend w [EvStore op Applied]).
Proof. intros H. unfold store_write. by rewrite H. Qed.


(** ** The batch trigger never throws *)

(** C10. Whatever the collaborators do, [processOrders] (and the
    scheduler's [processPendingOrders] around it) returns normally. An
    error thrown while an order is processed is caught by the loop, which
    logs it and issues the write that marks that order [failed] with the
    error's message; whatever else is thrown, by the select, by the
    client's initialisation check or by that marking write itself, is
    caught at the top level, where it is logged and nothing more is
    done. *)
Theorem processOrders_never_throws env w :
  (processOrders env w).1 = Normal tt /\
  (processPendingOrders env w).1 = Normal tt /\
  match processOrders_body env w with
  | (Normal _, w1) => processOrders env w = (Normal tt, w1)
  | (Throw e, w1) =>
      processOrders env w = (Normal tt, extend w1 [EvError (ErrOrderProcessing e)])
  end /\
  (forall order w0,
     match processSingleOrder env order w0 with
     | (Normal _, w1) => process_order env order w0 = (Normal tt, w1)
     | (Throw e, w1) =>
         let w2 := extend w1 [EvError (ErrProcessingOrder (order_id order) e)] in
         let op := UpdateOrder (order_id order) (failed_patch e (Date_now env w2)) in
         (process_order env order w0).2 = extend w2 [EvStore op (store_fault env w2 op)] /\
         (process_order env order w0).1 =
           match store_fault env w2 op with
           | Raises e' => Throw e'
           | _ => Normal tt
           end
     end).
Proof.
  assert (H1 : (processOrders env w).1 = Normal tt).
  { unfold processOrders, try_catch.
    by destruct (processOrders_body env w) as [[[]|e] w1]. }
  split; [exact H1|]. split.
  { unfold processPendingOrders, try_catch.
    destruct (processOrders env w) as [[[]|e] w1]; [done | discriminate]. }
  split.
  { unfold processOrders, try_catch.
    by destruct (processOrders_body env w) as [[[]|e] w1]. }
  intros order w0. unfold process_order, try_catch.
  destruct (processSingleOrder env order w0) as [[[]|e] w1]; [done|].
  rewrite mark_failed_run. cbn zeta. unfold store_write.
  by destruct (store_fault env _ _).
Qed.

(** ** Payment verifier *)

Lemma stripe_branch_test env (o : Order) :
  stripe_branch env o -> bool_decide (payment_method o = "stripe") && stripe env = true.
Proof. intros [H1 H2]. rewrite H2. by rewrite bool_decide_eq_true_2. Qed.

Lemma paypal_branch_test env (o : Order) :
  paypal_branch env o ->
  bool_decide (payment_method o = "stripe") && stripe env = false /\
  bool_decide (payment_method o = "paypal") = true.
Proof.
  intros [H1 H2]. split; [|by apply bool_decide_eq_true_2].
  apply andb_false_iff. destruct (stripe env) eqn:Hs; [left|by right].
  apply bool_decide_eq_false. intros H. apply H1. by split.
Qed.

Lemma branch_cases env (o : Order) :
  stripe_branch env o \/ paypal_branch env o \/ unsupported env o.
Proof.
  unfold paypal_branch, unsupported, stripe_branch.
  destruct (decide (payment_method o = "stripe")), (stripe env),
    (decide (payment_method o = "paypal")); intuition congruence.
Qed.

Lemma processPayment_run env (o : Order) w :
  db_initialized env = true ->
  processPayment env o w =
    let w0 := extend w [EvProcessPayment (order_id o)] in
    let w1 := extend w0 [EvRetrieve (stripe_payment_id o)] in
    let paid := UpdateOrder (order_id o) paid_patch in
    if bool_decide (payment_method o = "stripe") && stripe env then
      match paymentIntents_retrieve env w0 (stripe_payment_id o) with
      | Normal s =>
          if bool_decide (s = "succeeded")
          then payment_finish o (store_write env paid w1)
          else payment_failed o (mkError ("Payment not completed: " +:+ s)) w1
      | Throw e => payment_failed o e w1
      end
    else if bool_decide (payment_method o = "paypal") then
      payment_finish o (store_write env paid w0)
    else payment_failed o (mkError "Unsupported payment method") w0.
Proof.
  intros Hdb. unfold processPayment, getDatabase. rewrite Hdb.
  unfold bind at 1 2, try_catch, bind at 1. cbn zeta.
  change (emit (EvProcessPayment (order_id o)) w)
    with (Normal tt, extend w [EvProcessPayment (order_id o)]).
  cbn iota beta. unfold ret at 1. cbn iota beta.
  destruct (bool_decide (payment_method o = "stripe") && stripe env).
  - unfold bind, retrieve.
    destruct (paymentIntents_retrieve env _ _) as [s|e]; [|reflexivity].
    destruct (bool_decide (s = "succeeded")); [|reflexivity].
    by destruct (store_write env _ _) as [[[]|e] w'].
  - destruct (bool_decide (payment_method o = "paypal")); [|reflexivity].
    by destruct (store_write env _ _) as [[[]|e] w'].
Qed.

Lemma store_write_db env op w :
  (store_write env op w).2 =
    extend w [EvStore op (store_fault env w op)].
Proof. unfold store_write, extend. by destruct (store_fault env w op). Qed.

(** C1, as amended. With the client initialised, [processPayment]
    - for a [stripe] order with a configured processor asks the processor
      once and returns normally only if the answer is [succeeded]; any
      other answer [s] makes it throw "Payment not completed: s", and an
      error thrown by the processor is thrown on; in both failures nothing
      is written;
    - for a [paypal] order asks nobody and issues the write that marks
      the order paid;
    - for every other order throws "Unsupported payment method" and writes
      nothing. *)
Theorem processPayment_cases env (o : Order) w :
  db_initialized env = true ->
  let r := processPayment env o w in
  let w1 := extend w [EvProcessPayment (order_id o); EvRetrieve (stripe_payment_id o)] in
  let paid := UpdateOrder (order_id o) paid_patch in
  (stripe_branch env o ->
     match paymentIntents_retrieve env (extend w [EvProcessPayment (order_id o)])
             (stripe_payment_id o) with
     | Normal s =>
         if bool_decide (s = "succeeded") then
           r.1 = (store_write env paid w1).1 /\
           db r.2 = db (store_write env paid w1).2
         else
           r = (Throw (mkError ("Payment not completed: " +:+ s)),
                extend w1 [EvError (ErrPaymentFailed (order_number o)
                             (mkError ("Payment not completed: " +:+ s)))])
     | Throw e =>
         r = (Throw e, extend w1 [EvError (ErrPaymentFailed (order_number o) e)])
     end) /\
  (paypal_branch env o ->
     let w2 := extend w [EvProcessPayment (order_id o)] in
     r.1 = (store_write env paid w2).1 /\
     db r.2 = db (store_write env paid w2).2 /\
     Forall (fun ev => forall ref, ev <> EvRetrieve ref) (drop (length (log w)) (log r.2))) /\
  (unsupported env o ->
     r = (Throw (mkError "Unsupported payment method"),
          extend w [EvProcessPayment (order_id o);
                    EvError (ErrPaymentFailed (order_number o)
                               (mkError "Unsupported payment method"))])).
Proof.
  intros Hdb. cbn zeta. rewrite processPayment_run by done. cbn zeta.
  split; [|split].
  - intros Hs%stripe_branch_test. rewrite Hs. rewrite !extend_app. cbn [app].
    destruct (paymentIntents_retrieve env _ _) as [s|e]; [|done].
    destruct (bool_decide (s = "succeeded")); [|done].
    by destruct (store_write env _ _) as [[[]|e] w'].
  - intros [Hs Hp]%paypal_branch_test. rewrite Hs, Hp.
    pose proof (store_write_db env (UpdateOrder (order_id o) paid_patch)
                  (extend w [EvProcessPayment (order_id o)])) as Hw.
    destruct (store_write env _ _) as [[[]|e] w']; cbn [fst snd] in *; subst w';
      unfold payment_finish, payment_failed; cbn [fst snd];
      (split; [done|split; [done|]]);
      rewrite !extend_app, extend_log, drop_app_length;
      repeat constructor; discriminate.
  - intros [Hs Hp]%unsupported_tests. rewrite Hs, Hp.
    unfold payment_failed. by rewrite extend_app.
Qed.

(** ** Payout initiator *)

Lemma stripe_not_unsupported env (o : Order) :
  stripe_branch env o -> unsupported env o -> False.
Proof. intros H [H1 _]. by apply H1. Qed.

Lemma stripe_not_paypal env (o : Order) :
  stripe_branch env o -> paypal_branch env o -> False.
Proof. intros H [H1 _]. by apply H1. Qed.

Lemma paypal_not_unsupported env (o : Order) :
  paypal_branch env o -> unsupported env o -> False.
Proof. intros [_ H] [_ H1]. by apply H1. Qed.

(** Closes the cases of the payout phase once the run has been
    computed. *)
Ltac close_payout :=
  split_and!; cbn;
  try done; try (by left);
  try (intros; exfalso;
       eauto using stripe_not_unsupported, stripe_not_paypal, paypal_not_unsupported; fail);
  try (right; eexists; split; [reflexivity|]; cbn; split_and!; auto; fail);
  try (intros; eexists; split; [reflexivity|]; done).

(** C3, as amended. [handleProfitTransfer] always returns normally and
    writes at most one transfer record. For a positive profit, an
    initialised client and a store that takes the insert it writes
    exactly one: the [pending] record of the payout, under the id the
    processor gave it, once the processor has created the payout of a
    [stripe] order, and a [pending_manual] record for a [paypal] order.
    It writes none when the profit is not positive, when the method is
    neither of the two, and when the payout call fails: that failure is
    logged and leaves no record. *)
Theorem handleProfitTransfer_records env (o : Order) (p : float) w :
  let r := handleProfitTransfer env o p w in
  let before := db_profit_transfers (db w) in
  let after := db_profit_transfers (db r.2) in
  r.1 = Normal tt /\
  (after = before \/
   exists t, after = before ++ [t] /\ pt_order_id t = order_id o /\ pt_amount t = p /\
             (p <=? 0)%float = false /\
             ((stripe_branch env o /\ pt_status t = "pending" /\
               payouts_create env w (payout_request o p) = Normal (pt_transfer_id t)) \/
              (paypal_branch env o /\ pt_status t = "pending_manual"))) /\
  ((p <=? 0)%float = true -> after = before) /\
  (unsupported env o -> after = before) /\
  (stripe_branch env o ->
   forall e, payouts_create env w (payout_request o p) = Throw e -> after = before) /\
  (stripe_branch env o -> (p <=? 0)%float = false -> reliable env ->
   forall pid, payouts_create env w (payout_request o p) = Normal pid ->
     let w1 := extend w [EvPayout (payout_request o p); EvLog (LogStripePayout pid)] in
     after = before ++ [stripe_transfer o p pid (Date_now env w1)]) /\
  (paypal_branch env o -> (p <=? 0)%float = false -> reliable env ->
   after = before ++ [paypal_transfer o p (Date_now env w)]).
Proof.
  cbn zeta. remember (handleProfitTransfer env o p w) as r eqn:Hr.
  unfold handleProfitTransfer, try_catch in Hr.
  destruct (p <=? 0)%float eqn:Hp.
  { cbn in Hr. subst r. close_payout. }
  destruct (branch_cases env o) as [Hb|[Hb|Hb]].
  - rewrite (stripe_branch_test _ _ Hb) in Hr.
    unfold transferToBankAccount, bind at 1, try_catch, bind at 1, create_payout in Hr.
    fold (payout_request o p) in Hr.
    destruct (payouts_create env w (payout_request o p)) as [pid|e] eqn:Hpay.
    + unfold bind, getDatabase in Hr. cbn -[store_write] in Hr.
      destruct (db_initialized env) eqn:Hdb; cbn -[store_write] in Hr.
      * unfold store_write in Hr.
        destruct (store_fault env _ _) eqn:Hsf; cbn in Hr; subst r; close_payout.
        -- intros _ _ _ pid' [= <-]. unfold stripe_transfer, extend. cbn.
           by rewrite <- app_assoc.
        -- intros _ _ [_ Hrel]. rewrite Hrel in Hsf. discriminate.
        -- intros _ _ [_ Hrel]. rewrite Hrel in Hsf. discriminate.
      * subst r. close_payout. intros _ _ [Hrel _]. congruence.
    + cbn in Hr. subst r. close_payout.
  - destruct (paypal_branch_test _ _ Hb) as [Hs Hpp]. rewrite Hs, Hpp in Hr.
    unfold markPayPalTransfer, bind, getDatabase in Hr.
    destruct (db_initialized env) eqn:Hdb; cbn -[store_write] in Hr.
    + unfold store_write in Hr.
      destruct (store_fault env _ _) eqn:Hsf; cbn in Hr; subst r; close_payout;
        intros _ _ [_ Hrel]; rewrite Hrel in Hsf; discriminate.
    + subst r. close_payout. intros _ _ [Hrel _]. congruence.
  - destruct (unsupported_tests _ _ Hb) as [Hs Hpp]. rewrite Hs, Hpp in Hr.
    cbn in Hr. subst r. close_payout.
Qed.

(** ** When the verifier is called *)

Lemma emits_silent {A} (m : M A) w :
  emits silent m -> verifications (log (m w).2) = verifications (log w).
Proof.
  intros H. destruct (H w) as (evs & Hevs & ->).
  rewrite extend_log, verifications_app, (verifications_none evs) by done. lia.
Qed.

Lemma processPayment_entry env o w :
  processPayment env o w = payment_body env o (extend w [EvProcessPayment (order_id o)]).
Proof. reflexivity. Qed.

Lemma payment_body_silent env o : emits silent (payment_body env o).
Proof. unfold payment_body. emits_auto. Qed.

Lemma dispatch_items_silent env items acc : emits silent (dispatch_items env items acc).
Proof.
  revert acc. induction items as [|item rest IH]; intros acc; simpl; [apply emits_ret|].
  apply emits_bind; [|intros; apply IH].
  unfold dispatch_item, createSupplierOrder, getEstimatedDeliveryDate. emits_auto.
Qed.

Lemma after_payment_silent env o : emits silent (after_payment env o).
Proof.
  unfold after_payment, record_profit, processSupplierOrders, settle,
    handleProfitTransfer, transferToBankAccount, markPayPalTransfer.
  repeat first [apply dispatch_items_silent | emits_step]; simpl; done.
Qed.

Lemma processSingleOrder_split env o w :
  processSingleOrder env o w =
    match verify_payment env o w with
    | (Normal _, w1) => after_payment env o w1
    | (Throw e, w1) => (Throw e, w1)
    end.
Proof.
  unfold processSingleOrder, fulfil, reach_dispatch, after_payment, bind.
  destruct (verify_payment env o w) as [[[]|e] w1]; [|done].
  by destruct (record_profit env o w1) as [[p|e] w2].
Qed.

Lemma verify_payment_run env (o : Order) w :
  db_initialized env = true ->
  verify_payment env o w =
    let w0 := extend w [EvLog (LogProcessingOrder (order_number o))] in
    if bool_decide (payment_status o = "pending") then processPayment env o w0
    else (Normal tt, w0).
Proof.
  intros Hdb. unfold verify_payment, getDatabase. rewrite Hdb.
  unfold bind, ret, console_log, emit. cbn zeta.
  by destruct (bool_decide _).
Qed.

(** C5, as amended. With the client initialised, a run of
    [processSingleOrder] calls the payment verifier once when the order's
    [payment_status] is [pending] and not at all otherwise: an order
    already [paid] is never verified again, and neither is an order whose
    [payment_status] is anything else. When the verifier is called and
    throws, the run ends there with that error. *)
Theorem verified_iff_pending env (o : Order) w :
  db_initialized env = true ->
  let w0 := extend w [EvLog (LogProcessingOrder (order_number o))] in
  verifications (log (processSingleOrder env o w).2)
  = (verifications (log w) + if bool_decide (payment_status o = "pending") then 1 else 0)%nat /\
  (payment_status o <> "pending" ->
   verifications (log (processSingleOrder env o w).2) = verifications (log w) /\
   processSingleOrder env o w = after_payment env o w0) /\
  (payment_status o = "pending" ->
   match processPayment env o w0 with
   | (Normal _, w1) => processSingleOrder env o w = after_payment env o w1
   | (Throw e, w1) => processSingleOrder env o w = (Throw e, w1)
   end).
Proof.
  intros Hdb. cbn zeta.
  assert (Hcount : verifications (log (processSingleOrder env o w).2)
    = (verifications (log w) + if bool_decide (payment_status o = "pending") then 1 else 0)%nat).
  { rewrite processSingleOrder_split, verify_payment_run by done. cbn zeta.
    destruct (bool_decide (payment_status o = "pending")).
    - rewrite processPayment_entry.
      pose proof (emits_silent (payment_body env o)
        (extend (extend w [EvLog (LogProcessingOrder (order_number o))])
                [EvProcessPayment (order_id o)]) (payment_body_silent env o)) as Hp.
      rewrite !extend_log, !verifications_app in Hp. cbn in Hp.
      destruct (payment_body env o _) as [[[]|e] w1]; cbn [snd] in *.
      + rewrite (emits_silent _ _ (after_payment_silent env o)). lia.
      + lia.
    - rewrite (emits_silent _ _ (after_payment_silent env o)).
      rewrite extend_log, verifications_app. cbn. lia. }
  split; [exact Hcount|]. split.
  - intros Hne. rewrite Hcount. rewrite bool_decide_eq_false_2 by done.
    split; [lia|].
    rewrite processSingleOrder_split, verify_payment_run by done. cbn zeta.
    by rewrite bool_decide_eq_false_2.
  - intros Heq.
    rewrite processSingleOrder_split, verify_payment_run by done. cbn zeta.
    rewrite bool_decide_eq_true_2 by done.
    by destruct (processPayment env o _) as [[[]|e] w1].
Qed.

(** ** The payout phase and the order's status *)

Lemma payout_event_no_order_write o p ev :
  payout_event o p ev -> order_write_id ev = None.
Proof. by destruct ev as [[]|[]| | | | |[] ?]. Qed.

Lemma payout_event_no_item_write o p ev :
  payout_event o p ev -> is_item_write ev = false.
Proof. by destruct ev as [[]|[]| | | | |[] ?]. Qed.

Lemma handleProfitTransfer_normal env o p w :
  (handleProfitTransfer env o p w).1 = Normal tt.
Proof.
  unfold handleProfitTransfer, try_catch.
  by destruct (_ w) as [[[]|e] w'].
Qed.

Lemma handleProfitTransfer_orders env o p w :
  db_orders (db (handleProfitTransfer env o p w).2) = db_orders (db w) /\
  db_order_items (db (handleProfitTransfer env o p w).2) = db_order_items (db w).
Proof.
  destruct (handleProfitTransfer_emits env o p w) as (evs & Hevs & ->).
  split.
  - apply replay_orders_unchanged. eapply Forall_impl; [exact Hevs|].
    apply payout_event_no_order_write.
  - apply replay_items_unchanged. eapply Forall_impl; [exact Hevs|].
    apply payout_event_no_item_write.
Qed.

Lemma settle_run env (o : Order) p w :
  settle env o p w =
    let w2 := (handleProfitTransfer env o p w).2 in
    match store_write env (UpdateOrder (order_id o) (completed_patch (Date_now env w2))) w2 with
    | (Normal _, w3) => (Normal tt, extend w3 [EvLog (LogOrderProcessed (order_number o))])
    | (Throw e, w3) => (Throw e, w3)
    end.
Proof.
  unfold settle, bind at 1. pose proof (handleProfitTransfer_normal env o p w) as Hn.
  destruct (handleProfitTransfer env o p w) as [[[]|e] w2]; [|discriminate].
  cbn zeta. unfold bind, new_Date. cbn [fst snd].
  by destruct (store_write env _ w2) as [[[]|e] w3].
Qed.

Lemma settle_completes env (o : Order) w p w1 row :
  fulfil env o w = (Normal p, w1) ->
  db_orders (db w1) !! order_id o = Some row ->
  let w2 := (handleProfitTransfer env o p w1).2 in
  let completed := UpdateOrder (order_id o) (completed_patch (Date_now env w2)) in
  store_fault env w2 completed = Applied ->
  process_order env o w =
    (Normal tt, extend w2 [EvStore completed Applied;
                           EvLog (LogOrderProcessed (order_number o))]) /\
  db_orders (db (process_order env o w).2) !! order_id o
    = Some (apply_patch (completed_patch (Date_now env w2)) row).
Proof.
  intros Hf Hrow w2 completed Hst.
  destruct (handleProfitTransfer_orders env o p w1) as [Ho Hi].
  assert (Hrun : process_order env o w =
    (Normal tt, extend w2 [EvStore completed Applied;
                           EvLog (LogOrderProcessed (order_number o))])).
  { unfold process_order, try_catch, processSingleOrder, bind. rewrite Hf.
    rewrite settle_run. cbn zeta. fold w2. fold completed.
    rewrite store_write_applied by done. by rewrite extend_app. }
  split; [exact Hrun|].
  rewrite Hrun. cbn [snd]. unfold extend.
  cbn [db replay fold_left replay_event apply_op completed db_orders].
  unfold w2. by rewrite lookup_alter_eq, Ho, Hrow.
Qed.

(** C7. Once an order has passed payment verification, the profit write
    and the supplier dispatch ([fulfil] has returned), nothing the payout
    phase does reaches the order: [handleProfitTransfer] returns normally
    whatever the processor and the store answer, it leaves the tables of
    orders and items as they were, and the run goes on to the write of
    [completed]. When the store takes that write, the order ends
    [completed] and is not marked [failed]. *)
Theorem payout_failure_not_escalated env (o : Order) w p w1 row :
  fulfil env o w = (Normal p, w1) ->
  db_orders (db w1) !! order_id o = Some row ->
  let w2 := (handleProfitTransfer env o p w1).2 in
  let completed := UpdateOrder (order_id o) (completed_patch (Date_now env w2)) in
  store_fault env w2 completed = Applied ->
  (handleProfitTransfer env o p w1).1 = Normal tt /\
  db_orders (db w2) = db_orders (db w1) /\
  db_order_items (db w2) = db_order_items (db w1) /\
  process_order env o w =
    (Normal tt, extend w2 [EvStore completed Applied;
                           EvLog (LogOrderProcessed (order_number o))]) /\
  status <$> db_orders (db (process_order env o w).2) !! order_id o = Some "completed" /\
  error_message <$> db_orders (db (process_order env o w).2) !! order_id o
    = Some (error_message row).
Proof.
  intros Hf Hrow w2 completed Hst.
  destruct (handleProfitTransfer_orders env o p w1) as [Ho Hi].
  destruct (settle_completes env o w p w1 row Hf Hrow Hst) as [Hrun Hfinal].
  split; [apply handleProfitTransfer_normal|].
  split; [exact Ho|]. split; [exact Hi|]. split; [exact Hrun|].
  rewrite Hfinal. by split.
Qed.

(** ** The batch *)

#[global] Instance older_total : Total older.
Proof. intros a b. unfold older. lia. Qed.

#[global] Instance older_trans : Transitive older.
Proof. intros a b c. unfold older. lia. Qed.

Lemma pending_rows_sublist d :
  exists l, pending_rows d `sublist_of` l /\ l ≡ₚ
    filter (fun kv : string * OrderRow => status kv.2 = "pending") (map_to_list (db_orders d)).
Proof.
  eexists. split; [apply sublist_take | apply merge_sort_Permutation].
Qed.

Lemma pending_rows_elem d id row :
  (id, row) ∈ pending_rows d -> db_orders d !! id = Some row /\ status row = "pending".
Proof.
  intros Hin. destruct (pending_rows_sublist d) as (l & Hsub & Hperm).
  eapply elem_of_sublist in Hin; [|exact Hsub]. rewrite Hperm in Hin.
  apply list_elem_of_filter in Hin as [Hp Hin].
  by apply elem_of_map_to_list in Hin.
Qed.

Lemma pending_rows_NoDup d : NoDup (pending_rows d).*1.
Proof.
  destruct (pending_rows_sublist d) as (l & Hsub & Hperm).
  eapply sublist_NoDup; [|by apply fmap_sublist].
  rewrite Hperm. eapply sublist_NoDup; [apply (NoDup_fst_map_to_list (db_orders d))|].
  apply fmap_sublist, sublist_filter.
Qed.

Lemma pending_rows_sorted d : StronglySorted older (pending_rows d).
Proof.
  unfold pending_rows.
  pose proof (StronglySorted_merge_sort older
    (filter (fun kv : string * OrderRow => status kv.2 = "pending")
            (map_to_list (db_orders d)))) as Hs.
  rewrite <- (take_drop 10 (merge_sort older _)) in Hs.
  by apply StronglySorted_app_1_l in Hs.
Qed.

Lemma pending_orders_ids d : order_id <$> pending_orders d = (pending_rows d).*1.
Proof.
  unfold pending_orders. rewrite <- list_fmap_compose. done.
Qed.

(** What the select returns: at most ten orders, all of them rows of the
    table in state [pending], oldest first, no order twice. *)
Lemma pending_orders_spec d :
  (length (pending_orders d) <= 10)%nat /\
  NoDup (order_id <$> pending_orders d) /\
  StronglySorted (fun a b : Order => created_at a ≤ created_at b) (pending_orders d) /\
  Forall (fun o : Order =>
            db_orders d !! order_id o = Some (order_row o) /\ status o = "pending")
         (pending_orders d).
Proof.
  split_and!.
  - unfold pending_orders, pending_rows. rewrite length_fmap, length_take. lia.
  - rewrite pending_orders_ids. apply pending_rows_NoDup.
  - unfold pending_orders.
    apply (StronglySorted_fmap _ older); [done | apply pending_rows_sorted].
  - apply Forall_forall. intros o Hin. unfold pending_orders in Hin.
    apply list_elem_of_fmap in Hin as ([id row] & -> & Hin).
    by apply pending_rows_elem.
Qed.

Lemma order_event_write_id o ev id :
  order_event o ev -> order_write_id ev = Some id -> id = order_id o.
Proof.
  intros [H|[H|[H|H]]] Hid; destruct ev as [[]|[]| | | | |[] ?];
    simpl in *; try done; destruct H; congruence.
Qed.

Lemma process_batch_emits env batch : emits (batch_event batch) (process_batch env batch).
Proof.
  induction batch as [|o rest IH]; simpl; [apply emits_ret|].
  apply emits_bind.
  - eapply emits_weaken; [|apply process_order_emits].
    intros ev Hev. exists o. split; [by left|done].
  - intros _. eapply emits_weaken; [|apply IH].
    intros ev (o' & Hin & Hev). exists o'. split; [by right|done].
Qed.

Lemma process_batch_frame env batch w id :
  id ∉ order_id <$> batch ->
  db_orders (db (process_batch env batch w).2) !! id = db_orders (db w) !! id.
Proof.
  intros Hid. destruct (process_batch_emits env batch w) as (evs & Hevs & ->).
  apply replay_orders_other. eapply Forall_impl; [exact Hevs|].
  intros ev (o & Hin & Hev) Heq. apply Hid.
  apply (order_event_write_id _ _ _ Hev) in Heq. subst id.
  by apply list_elem_of_fmap_2.
Qed.

Lemma emits_is_Some {A} P (m : M A) w id :
  emits P m ->
  is_Some (db_orders (db w) !! id) -> is_Some (db_orders (db (m w).2) !! id).
Proof.
  intros H Hs. destruct (H w) as (evs & _ & ->). by apply replay_orders_is_Some.
Qed.

Lemma takes_completed env w id t :
  takes_status_writes env ->
  store_fault env w (UpdateOrder id (completed_patch t)) = Applied.
Proof. intros H. apply H. by eexists. Qed.

Lemma takes_failed env w id e t :
  takes_status_writes env ->
  store_fault env w (UpdateOrder id (failed_patch e t)) = Applied.
Proof. intros H. apply H. by eexists. Qed.

(** The outcome of one turn of the loop when the store takes the writes
    of the status. *)
Lemma process_order_outcome env (o : Order) w :
  takes_status_writes env -> is_Some (db_orders (db w) !! order_id o) ->
  (process_order env o w).1 = Normal tt /\
  match (processSingleOrder env o w).1 with
  | Normal _ =>
      status <$> db_orders (db (process_order env o w).2) !! order_id o = Some "completed"
  | Throw e =>
      status <$> db_orders (db (process_order env o w).2) !! order_id o = Some "failed" /\
      error_message <$> db_orders (db (process_order env o w).2) !! order_id o
        = Some (Some (message e))
  end.
Proof.
  intros Hst Hsome. unfold process_order, try_catch.
  destruct (processSingleOrder env o w) as [[[]|e] w1] eqn:Hrun; cbn [fst snd].
  - split; [done|]. unfold processSingleOrder, bind in Hrun.
    destruct (fulfil env o w) as [[p|e] w0] eqn:Hf; [|discriminate].
    assert (Hs0 : is_Some (db_orders (db w0) !! order_id o)).
    { replace w0 with (fulfil env o w).2 by by rewrite Hf.
      eapply emits_is_Some; [apply fulfil_emits|done]. }
    destruct Hs0 as [row Hrow].
    destruct (settle_completes env o w p w0 row Hf Hrow (takes_completed _ _ _ _ Hst))
      as [_ Hfinal].
    unfold process_order, try_catch, processSingleOrder, bind in Hfinal.
    rewrite Hf, Hrun in Hfinal. cbn [snd] in Hfinal. by rewrite Hfinal.
  - assert (Hs1 : is_Some (db_orders (db w1) !! order_id o)).
    { replace w1 with (processSingleOrder env o w).2 by by rewrite Hrun.
      eapply emits_is_Some; [apply processSingleOrder_emits|done]. }
    destruct Hs1 as [row Hrow].
    rewrite mark_failed_run. cbn zeta.
    rewrite store_write_applied by by apply takes_failed.
    cbn [fst snd]. unfold extend.
    cbn [db replay fold_left replay_event apply_op db_orders].
    rewrite lookup_alter_eq, Hrow. by split.
Qed.

Lemma process_batch_step env o rest w :
  process_batch env (o :: rest) w =
    match process_order env o w with
    | (Normal _, w1) => process_batch env rest w1
    | (Throw e, w1) => (Throw e, w1)
    end.
Proof. reflexivity. Qed.

(** When the store takes the writes of the status, the loop gets through
    the whole batch, and every order ends in the state its own run
    decides. *)
Lemma process_batch_outcomes env batch w :
  takes_status_writes env ->
  NoDup (order_id <$> batch) ->
  Forall (fun o : Order => is_Some (db_orders (db w) !! order_id o)) batch ->
  (process_batch env batch w).1 = Normal tt /\
  forall k (o : Order), batch !! k = Some o ->
    let wk := (process_batch env (take k batch) w).2 in
    let final := (process_batch env batch w).2 in
    match (processSingleOrder env o wk).1 with
    | Normal _ => status <$> db_orders (db final) !! order_id o = Some "completed"
    | Throw e =>
        status <$> db_orders (db final) !! order_id o = Some "failed" /\
        error_message <$> db_orders (db final) !! order_id o = Some (Some (message e))
    end.
Proof.
  intros Hrel. revert w. induction batch as [|o rest IH]; intros w Hnd Hall.
  { split; [done|]. intros k o Hk. by destruct k. }
  rewrite fmap_cons in Hnd. apply NoDup_cons in Hnd as [Hnotin Hnd].
  inversion Hall as [|? ? Ho Hrest]; subst.
  destruct (process_order_outcome env o w Hrel Ho) as [Hn Hout].
  assert (Hall' : Forall (fun o' : Order =>
            is_Some (db_orders (db (process_order env o w).2) !! order_id o')) rest).
  { eapply Forall_impl; [exact Hrest|]. intros o' Hs.
    eapply emits_is_Some; [apply process_order_emits|done]. }
  destruct (IH (process_order env o w).2 Hnd Hall') as [IHn IHk].
  rewrite process_batch_step.
  destruct (process_order env o w) as [[[]|e] w1] eqn:Hpo; [|discriminate].
  cbn [fst snd] in *. split; [exact IHn|].
  intros [|k] o' Hk; cbn zeta.
  - injection Hk as <-. cbn [take process_batch ret snd].
    rewrite process_batch_frame by done. exact Hout.
  - cbn [take]. rewrite process_batch_step, Hpo. by apply IHk.
Qed.

Lemma processOrders_body_run env w :
  db_initialized env = true -> takes_status_writes env -> select_error env w = None ->
  let batch := pending_orders (db w) in
  let w0 := extend w [EvLog (LogProcessingBatch (length batch))] in
  processOrders env w =
    (Normal tt, extend (process_batch env batch w0).2 [EvLog LogBatchCompleted]).
Proof.
  intros Hdb Hrel Hsel batch w0.
  destruct (pending_orders_spec (db w)) as (_ & Hnd & _ & Hall).
  destruct (process_batch_outcomes env batch w0 Hrel Hnd) as [Hn _].
  { eapply Forall_impl; [exact Hall|]. intros o [Ho _]. unfold w0. cbn. by rewrite Ho. }
  unfold processOrders, try_catch, processOrders_body, getDatabase, select_pending.
  rewrite Hdb. unfold bind at 1. cbn [ret]. unfold bind at 1. rewrite Hsel.
  fold batch. unfold bind at 1. cbn [console_log emit]. fold w0.
  unfold bind.
  by destruct (process_batch env batch _) as [[[]|e] w1].
Qed.


(** ** Supplier dispatch *)

Lemma created_snoc_other evs ev :
  match ev with EvSupplierOrder _ _ => False | _ => True end ->
  created (evs ++ [ev]) = created evs.
Proof.
  intros H. rewrite created_app. destruct ev; try done; apply app_nil_r.
Qed.

Lemma created_snoc_order evs item so :
  created (evs ++ [EvSupplierOrder item so]) = created evs ++ [item].
Proof. by rewrite created_app. Qed.

(** One turn of the loop of [processSupplierOrders]. *)
Lemma dispatch_item_cases env item acc w :
  match dispatch_item env item acc w with
  | (Normal sos, w') =>
      created (log w') = created (log w) ++ [item] /\ length sos = S (length acc)
  | (Throw e, w') =>
      last (log w') = Some (EvError (ErrSupplierOrder (item_id item) e)) /\
      (created (log w') = created (log w) \/
       created (log w') = created (log w) ++ [item])
  end.
Proof.
  remember (dispatch_item env item acc w) as r eqn:Hr.
  unfold dispatch_item, try_catch, createSupplierOrder, getEstimatedDeliveryDate,
    bind at 1 2 in Hr.
  cbn [generateSupplierOrderId] in Hr.
  destruct (supplier item) as [| |s] eqn:Hs.
  1, 2: cbn in Hr; unfold throw in Hr; subst r; cbn [log];
    rewrite last_snoc, created_snoc_other by done; auto.
  unfold bind at 1, new_Date in Hr.
  destruct (bool_decide (inherited_key (JS.toLowerCase s))).
  { cbn in Hr. unfold throw in Hr. subst r. cbn [log].
    rewrite last_snoc, created_snoc_other by done. auto. }
  unfold bind, getDatabase in Hr. cbn -[store_write] in Hr.
  destruct (db_initialized env); cbn -[store_write] in Hr.
  - unfold store_write in Hr.
    destruct (store_fault env _ _); cbn in Hr; unfold throw in Hr; subst r;
      cbn [log];
      rewrite ?last_snoc, ?created_snoc_other, ?created_snoc_order,
        ?created_snoc_other, ?length_app by done; cbn; auto with lia.
  - unfold throw in Hr. subst r. cbn [log].
    rewrite ?last_snoc, ?created_snoc_other, ?created_snoc_order,
      ?created_snoc_other by done. auto.
Qed.

(** The supplier orders are created in the order of the list, and the
    loop stops at the first item whose turn throws. *)
Lemma dispatch_items_prefix env items acc w :
  match dispatch_items env items acc w with
  | (Normal sos, w') =>
      created (log w') = created (log w) ++ items /\
      length sos = (length acc + length items)%nat
  | (Throw e, w') =>
      exists j item,
        items !! j = Some item /\
        last (log w') = Some (EvError (ErrSupplierOrder (item_id item) e)) /\
        (created (log w') = created (log w) ++ take j items \/
         created (log w') = created (log w) ++ take (S j) items)
  end.
Proof.
  revert acc w. induction items as [|item rest IH]; intros acc w.
  { cbn. rewrite app_nil_r. split; [done|lia]. }
  cbn [dispatch_items]. unfold bind.
  pose proof (dispatch_item_cases env item acc w) as Hitem.
  destruct (dispatch_item env item acc w) as [[sos|e] w1].
  - destruct Hitem as [Hc Hl]. specialize (IH sos w1).
    destruct (dispatch_items env rest sos w1) as [[sos'|e] w2].
    + destruct IH as [Hc' Hl']. rewrite Hc', Hc, <- app_assoc. cbn. split; [done|lia].
    + destruct IH as (j & it & Hj & Hlast & Hcr). exists (S j), it.
      split; [done|]. split; [done|].
      rewrite Hc, <- !app_assoc in Hcr. exact Hcr.
  - destruct Hitem as [Hlast Hcr]. exists 0%nat, item. split; [done|].
    split; [done|]. cbn. rewrite app_nil_r. exact Hcr.
Qed.

Lemma emits_no_creation {A} (m : M A) w :
  emits no_creation m -> created (log (m w).2) = created (log w).
Proof.
  intros H. destruct (H w) as (evs & Hevs & ->).
  by rewrite extend_log, created_app, (created_none evs), app_nil_r.
Qed.

Lemma reach_dispatch_no_creation env o : emits no_creation (reach_dispatch env o).
Proof.
  unfold reach_dispatch, verify_payment, processPayment, record_profit. emits_auto.
Qed.

Lemma settle_no_creation env o p : emits no_creation (settle env o p).
Proof.
  unfold settle, handleProfitTransfer, transferToBankAccount, markPayPalTransfer.
  emits_auto.
Qed.

Lemma mark_failed_no_creation env o e : emits no_creation (mark_failed env o e).
Proof. unfold mark_failed. emits_auto. Qed.

Lemma processSingleOrder_after_reach env o w p w1 :
  reach_dispatch env o w = (Normal p, w1) ->
  processSingleOrder env o w =
    match processSupplierOrders env (order_items o) w1 with
    | (Normal _, w2) => settle env o p w2
    | (Throw e, w2) => (Throw e, w2)
    end.
Proof.
  intros H. unfold processSingleOrder, fulfil, bind. rewrite H.
  by destruct (processSupplierOrders env (order_items o) w1) as [[sos|e] w2].
Qed.

(** C6. The supplier orders of an order are created one item after the
    other, in the order of [order_items]. When the turn of an item throws
    (the supplier order cannot be built, or recording it on the item
    fails), the error is logged for that item, no later item is handed
    to the dispatcher, and the items dispatched in the whole run are the
    items before it, with or without the item itself: a prefix of the
    list. The run of the order ends with that error, the loop of
    [processOrders] issues the write that marks the order [failed], and
    when the store takes that write the order is [failed] with the
    error's message. When no turn throws, every item is dispatched, in
    order. *)
Theorem dispatch_is_a_prefix env (o : Order) items w p w1 :
  order_items o = Some items ->
  reach_dispatch env o w = (Normal p, w1) ->
  let final := (process_order env o w).2 in
  created (log w1) = created (log w) /\
  match processSupplierOrders env (order_items o) w1 with
  | (Normal sos, w2) =>
      created (log final) = created (log w) ++ items /\ length sos = length items
  | (Throw e, w2) =>
      (exists j item,
         items !! j = Some item /\
         last (log w2) = Some (EvError (ErrSupplierOrder (item_id item) e)) /\
         (created (log final) = created (log w) ++ take j items \/
          created (log final) = created (log w) ++ take (S j) items)) /\
      processSingleOrder env o w = (Throw e, w2) /\
      let w3 := extend w2 [EvError (ErrProcessingOrder (order_id o) e)] in
      let failed := UpdateOrder (order_id o) (failed_patch e (Date_now env w3)) in
      final = extend w3 [EvStore failed (store_fault env w3 failed)] /\
      (store_fault env w3 failed = Applied ->
       is_Some (db_orders (db w) !! order_id o) ->
       status <$> db_orders (db final) !! order_id o = Some "failed" /\
       error_message <$> db_orders (db final) !! order_id o = Some (Some (message e)))
  end.
Proof.
  intros Hitems Hreach final.
  assert (Hc1 : created (log w1) = created (log w)).
  { replace w1 with (reach_dispatch env o w).2 by by rewrite Hreach.
    apply emits_no_creation, reach_dispatch_no_creation. }
  split; [exact Hc1|].
  assert (Hs1 : is_Some (db_orders (db w) !! order_id o) ->
                is_Some (db_orders (db w1) !! order_id o)).
  { intros Hs. replace w1 with (reach_dispatch env o w).2 by by rewrite Hreach.
    eapply emits_is_Some; [apply reach_dispatch_emits|done]. }
  unfold final, process_order, try_catch.
  rewrite (processSingleOrder_after_reach env o w p w1 Hreach).
  rewrite Hitems in *. cbn [processSupplierOrders].
  pose proof (dispatch_items_prefix env items [] w1) as Hpre.
  pose proof (emits_is_Some _ _ w1 (order_id o)
                (dispatch_items_emits env items items [] (reflexivity _))) as Hs2.
  destruct (dispatch_items env items [] w1) as [[sos|e] w2].
  - destruct Hpre as [Hc2 Hl]. split; [|exact Hl].
    pose proof (emits_no_creation _ w2 (settle_no_creation env o p)) as Hc3.
    destruct (settle env o p w2) as [[[]|e] w3]; cbn [snd] in *.
    + by rewrite Hc3, Hc2, Hc1.
    + rewrite (emits_no_creation _ _ (mark_failed_no_creation env o e)).
      by rewrite Hc3, Hc2, Hc1.
  - destruct Hpre as (j & item & Hj & Hlast & Hcr).
    rewrite mark_failed_run. cbn zeta.
    rewrite store_write_db.
    split; [|split; [done|split; [done|]]].
    + exists j, item. split; [done|]. split; [done|].
      rewrite !extend_log, !created_snoc_other by done. by rewrite <- Hc1.
    + intros Happ Hs. rewrite Happ.
      destruct (Hs2 (Hs1 Hs)) as [row Hrow]. cbn [snd] in Hrow.
      unfold extend. cbn [db replay fold_left replay_event apply_op db_orders].
      rewrite lookup_alter_eq, Hrow. by split.
Qed.

(** ** The sign of the profit *)

Lemma Prim2SF_zero : Prim2SF 0%float = S754_zero false.
Proof. reflexivity. Qed.

Lemma not_negative_sf (x : float) :
  not_negative x <-> sf_not_negative (Prim2SF x) = true.
Proof.
  unfold not_negative. rewrite ltb_spec, Prim2SF_zero.
  destruct (Prim2SF x) as [[]|[]| |[] m e]; done.
Qed.

Lemma leb_zero_sf (x : float) :
  (0 <=? x)%float = true -> sf_not_negative (Prim2SF x) = true.
Proof.
  rewrite leb_spec, Prim2SF_zero.
  destruct (Prim2SF x) as [[]|[]| |[] m e]; done.
Qed.

Lemma binary_round_aux_sign mx ex lx :
  sf_not_negative (binary_round_aux prec emax false mx ex lx) = true.
Proof.
  unfold binary_round_aux.
  destruct (shr_fexp prec emax mx ex lx) as [mrs' e'].
  destruct (shr_fexp prec emax _ e' loc_Exact) as [mrs'' e''].
  destruct (shr_m mrs''); try done.
  by destruct (Z.leb _ _).
Qed.

Lemma binary_round_sign m e : sf_not_negative (binary_round prec emax false m e) = true.
Proof.
  unfold binary_round. destruct (shl_align _ _ _). apply binary_round_aux_sign.
Qed.

Lemma SFmul_sign a b :
  sf_not_negative a = true -> sf_not_negative b = true ->
  sf_not_negative (SFmul prec emax a b) = true.
Proof.
  destruct a as [[]|[]| |[] ma ea], b as [[]|[]| |[] mb eb]; simpl; try done.
  intros _ _. apply binary_round_aux_sign.
Qed.

Lemma SFadd_sign a b :
  sf_not_negative a = true -> sf_not_negative b = true ->
  sf_not_negative (SFadd prec emax a b) = true.
Proof.
  destruct a as [[]|[]| |[] ma ea], b as [[]|[]| |[] mb eb]; simpl; try done.
  intros _ _. apply binary_round_sign.
Qed.

Lemma mul_not_negative (x y : float) :
  not_negative x -> not_negative y -> not_negative (x * y)%float.
Proof. rewrite !not_negative_sf, mul_spec. apply SFmul_sign. Qed.

Lemma add_not_negative (x y : float) :
  not_negative x -> not_negative y -> not_negative (x + y)%float.
Proof. rewrite !not_negative_sf, add_spec. apply SFadd_sign. Qed.

Lemma leb_not_negative (x : float) : (0 <=? x)%float = true -> not_negative x.
Proof. intros H. by apply not_negative_sf, leb_zero_sf. Qed.

Lemma parseFloat_not_negative (x : float) :
  not_negative x -> not_negative (JS.parseFloat x).
Proof. intros H. unfold JS.parseFloat. by destruct (is_zero x). Qed.

Lemma or_default_not_negative (v : option float) :
  (forall m, v = Some m -> (0 <=? m)%float = true) ->
  not_negative (JS.or_default v 0.25).
Proof.
  intros H. destruct v as [m|]; simpl; [|done].
  destruct (JS.truthy m); [|done]. by apply leb_not_negative, H.
Qed.

Lemma itemProfit_not_negative item : nonneg_item item -> not_negative (itemProfit item).
Proof.
  intros [Hp Hm]. apply mul_not_negative.
  - by apply parseFloat_not_negative, leb_not_negative.
  - by apply or_default_not_negative.
Qed.

Lemma sum_not_negative items (acc : float) :
  Forall nonneg_item items -> not_negative acc ->
  not_negative (fold_left (fun sum item => (sum + itemProfit item)%float) items acc).
Proof.
  intros H. revert acc. induction H as [|item items Hi _ IH]; intros acc Hacc; [done|].
  simpl. apply IH. apply add_not_negative; [done|]. by apply itemProfit_not_negative.
Qed.

Lemma calculateProfit_not_negative (o : Order) :
  nonneg_order o -> not_negative (calculateProfit o).
Proof.
  intros [Ht Hi]. unfold calculateProfit.
  assert (Hfall : not_negative (JS.parseFloat (total_amount o) * 0.25)%float).
  { apply mul_not_negative; [|done]. by apply parseFloat_not_negative, leb_not_negative. }
  destruct (order_items o) as [[|item items]|] eqn:Ho; try done.
  apply sum_not_negative; [by apply Hi | done].
Qed.

Lemma replay_profit_ok evs d :
  Forall profit_write_ok evs -> db_profit_ok d -> db_profit_ok (replay evs d).
Proof.
  intros H. revert d. induction H as [|ev evs Hev _ IH]; intros d Hd; [done|].
  simpl. apply IH. clear IH.
  destruct ev as [| | | | | |[id p|id so|t] []]; try done.
  intros id' row. simpl. rewrite lookup_alter.
  case_decide as Heq; [|apply Hd]. subst id'.
  destruct (db_orders d !! id) as [row0|] eqn:Hrow; [|done].
  intros [= <-]. simpl in *.
  destruct (p_profit_amount p); [done|]. by eapply Hd.
Qed.

Lemma order_event_profit_ok o ev :
  not_negative (calculateProfit o) -> order_event o ev -> profit_write_ok ev.
Proof.
  intros Hp [H|[H|[H|H]]]; destruct ev as [[]|[]| | | | |[id q|id so|t] ?];
    simpl in *; try done.
  - by destruct H as [_ ->].
  - destruct H as (_ & _ & H). destruct (p_profit_amount q); [|done].
    by destruct H as [-> _].
Qed.

(** C9. For an order whose [total_amount] is at least zero and whose
    items all have a [total_price] of at least zero and, where a margin
    is set, a margin of at least zero, the profit the calculator returns
    is not negative, and so is every [profit_amount] the run of the order
    writes: if no row of [orders] held a negative [profit_amount] before
    the run, none does after it, and all writes of a [profit_amount]
    logged during the run carry a value that is not negative. *)
Theorem profit_never_negative env (o : Order) w :
  nonneg_order o ->
  not_negative (calculateProfit o) /\
  (db_profit_ok (db w) -> db_profit_ok (db (process_order env o w).2)) /\
  (Forall profit_write_ok (log w) ->
   Forall profit_write_ok (log (process_order env o w).2)).
Proof.
  intros Ho. pose proof (calculateProfit_not_negative o Ho) as Hp.
  split; [exact Hp|].
  destruct (process_order_emits env o w) as (evs & Hevs & ->).
  assert (Hok : Forall profit_write_ok evs).
  { eapply Forall_impl; [exact Hevs|]. intros ev. by apply order_event_profit_ok. }
  split.
  - intros Hd. by apply replay_profit_ok.
  - intros Hl. rewrite extend_log. by apply Forall_app.
Qed.

(** ** The profit calculator against its specification *)

Lemma calculateProfit_scenario : calculateProfit scenario_order = 12.5%float.
Proof. reflexivity. Qed.

(** Without line items the profit is a quarter of the order's total. *)
Lemma calculateProfit_no_items (o : Order) :
  order_items o = None \/ order_items o = Some [] ->
  calculateProfit o = (JS.parseFloat (total_amount o) * 0.25)%float.
Proof. unfold calculateProfit. by intros [-> | ->]. Qed.

Lemma calculateProfit_items (o : Order) item items :
  order_items o = Some (item :: items) ->
  calculateProfit o =
    fold_left
      (fun sum (it : OrderItem) =>
         (sum + JS.parseFloat (total_price it) * JS.or_default (profit_margin it) 0.25)%float)
      (item :: items) 0%float.
Proof. unfold calculateProfit. by intros ->. Qed.

(** X2. The calculator and its specification agree on every order in which
    no item has a margin that JavaScript takes for false (zero or [NaN]). *)
Lemma calculateProfit_meets_spec (o : Order) :
  (forall items, order_items o = Some items ->
     Forall (fun item : OrderItem =>
               forall m, profit_margin item = Some m -> JS.truthy m = true) items) ->
  calculateProfit o = calculateProfit_spec o.
Proof.
  intros H. unfold calculateProfit, calculateProfit_spec.
  destruct (order_items o) as [[|item items]|]; try done.
  specialize (H _ eq_refl). generalize 0%float as acc. revert H.
  generalize (item :: items) as l. clear.
  induction l as [|it l IH]; intros H acc; [done|].
  inversion H as [|? ? Hit Hl]; subst. simpl. rewrite IH by done.
  do 2 f_equal. unfold itemProfit, margin_fraction_spec, JS.or_default.
  destruct (profit_margin it) as [m|]; [|done]. by rewrite Hit.
Qed.

(** C4, where it fails. For an item whose margin is set to zero the
    calculator uses the default margin: on an order of one item of total
    price 100 and margin 0 it returns 25, where the sum of
    [total_price × margin] is 0. *)
Theorem calculateProfit_zero_margin :
  calculateProfit zero_margin_order = 25%float /\
  calculateProfit_spec zero_margin_order = 0%float /\
  calculateProfit zero_margin_order <> calculateProfit_spec zero_margin_order.
Proof.
  split; [reflexivity|]. split; [reflexivity|].
  intros H. apply (f_equal (fun x => (x =? 0)%float)) in H. vm_compute in H. discriminate.
Qed.



(** ** Concrete runs: counterexamples and instances *)

(** C1 as stated fails: the paypal order 3 is confirmed and marked paid
    although the processor was not asked and would not have reported its
    payment as cleared. *)
Lemma paypal_confirmed_unchecked :
  ~ confirmed_only_if_cleared env_ok order3 demo_world /\
  (processPayment env_ok order3 demo_world).1 = Normal tt /\
  payment_status <$> db_orders (db (processPayment env_ok order3 demo_world).2) !! "o3"
    = Some "paid" /\
  Forall (fun ev => forall ref, ev <> EvRetrieve ref)
         (log (processPayment env_ok order3 demo_world).2).
Proof.
  split.
  - intros H. destruct (H eq_refl) as [w0 Hw0]. discriminate Hw0.
  - split; [reflexivity|]. split; [reflexivity|].
    vm_compute. repeat constructor; discriminate.
Qed.

Lemma processPayment_cases_witness :
  db_initialized env_ok = true /\
  processPayment env_ok order4 demo_world =
    (Throw (mkError "Payment not completed: requires_payment_method"),
     extend demo_world
       [EvProcessPayment "o4"; EvRetrieve "pi_open";
        EvError (ErrPaymentFailed "ORD-4"
                   (mkError "Payment not completed: requires_payment_method"))]).
Proof.
  split; [reflexivity|].
  exact (proj1 (processPayment_cases env_ok order4 demo_world eq_refl)
               (conj eq_refl eq_refl)).
Defined.

(** C3 as stated fails: the payout of order 1 fails and no record is
    written. *)
Lemma payout_failure_leaves_no_record :
  ~ one_transfer_per_invocation env_ok order1 12.5 demo_world /\
  db_profit_transfers (db (handleProfitTransfer env_ok order1 12.5 demo_world).2) = [].
Proof. split; [|reflexivity]. intros H. vm_compute in H. discriminate. Qed.

(** C5 as stated fails: order 1 with [payment_status] [failed] is not
    [paid], yet its run never calls the verifier, and goes through. *)
Lemma unpaid_order_not_verified :
  ~ verified_iff_not_paid env_ok order1_payment_failed demo_world /\
  verifications (log (processSingleOrder env_ok order1_payment_failed demo_world).2) = 0%nat /\
  (processSingleOrder env_ok order1_payment_failed demo_world).1 = Normal tt.
Proof.
  split; [|split; reflexivity]. intros H. vm_compute in H. discriminate.
Qed.

Lemma verified_iff_pending_witness :
  db_initialized env_ok = true /\
  verifications (log (processSingleOrder env_ok order1 demo_world).2) = 1%nat /\
  verifications (log (processSingleOrder env_ok order1_payment_failed demo_world).2) = 0%nat.
Proof.
  split; [reflexivity|]. split.
  - exact (proj1 (verified_iff_pending env_ok order1 demo_world eq_refl)).
  - exact (proj1 (verified_iff_pending env_ok order1_payment_failed demo_world eq_refl)).
Defined.

Lemma env_ok_takes_status_writes : takes_status_writes env_ok.
Proof. intros w id p _. reflexivity. Defined.



Lemma payout_failure_not_escalated_witness :
  let w1 := (fulfil env_ok order1 demo_world).2 in
  fulfil env_ok order1 demo_world = (Normal 12.5%float, w1) /\
  (handleProfitTransfer env_ok order1 12.5 w1).1 = Normal tt /\
  db_profit_transfers (db (handleProfitTransfer env_ok order1 12.5 w1).2) = [] /\
  status <$> db_orders (db (process_order env_ok order1 demo_world).2) !! order_id order1
    = Some "completed".
Proof.
  cbn zeta.
  assert (Hf : fulfil env_ok order1 demo_world
               = (Normal 12.5%float, (fulfil env_ok order1 demo_world).2))
    by (vm_compute; reflexivity).
  assert (Hrow : db_orders (db (fulfil env_ok order1 demo_world).2) !! order_id order1
                 = Some order1_row_fulfilled) by (vm_compute; reflexivity).
  split; [exact Hf|].
  pose proof (payout_failure_not_escalated env_ok order1 demo_world 12.5%float
    (fulfil env_ok order1 demo_world).2 order1_row_fulfilled Hf Hrow eq_refl)
    as (Hn & _ & _ & _ & Hs & _).
  split; [exact Hn|]. split; [vm_compute; reflexivity|]. exact Hs.
Defined.

(** Order 6 of the wider store has three items, the second with [null]
    for a supplier: the first item is dispatched, the turn of the second
    throws, the third is never handed to the dispatcher, and the order
    ends [failed]. *)
Lemma dispatch_is_a_prefix_witness :
  let w1 := (reach_dispatch env_ok order6 demo_world_wide).2 in
  let final := (process_order env_ok order6 demo_world_wide).2 in
  let e := mkError "Cannot read properties of null (reading 'toLowerCase')" in
  order_items order6 = Some order6_items /\
  reach_dispatch env_ok order6 demo_world_wide = (Normal 4.5%float, w1) /\
  (processSupplierOrders env_ok (order_items order6) w1).1 = Throw e /\
  last (log (processSupplierOrders env_ok (order_items order6) w1).2)
  = Some (EvError (ErrSupplierOrder "i6b" e)) /\
  created (log final) = take 1 order6_items /\
  (status <$> db_orders (db final) !! "o6" = Some "failed" /\
   error_message <$> db_orders (db final) !! "o6" = Some (Some (message e))) /\
  supplier_status <$> db_order_items (db final) !! "i6a" = Some "ordered" /\
  supplier_status <$> db_order_items (db final) !! "i6c" = Some "pending".
Proof.
  cbv zeta.
  assert (Hr : reach_dispatch env_ok order6 demo_world_wide
               = (Normal 4.5%float, (reach_dispatch env_ok order6 demo_world_wide).2))
    by (vm_compute; reflexivity).
  split; [reflexivity|]. split; [exact Hr|].
  pose proof (dispatch_is_a_prefix env_ok order6 order6_items demo_world_wide
    4.5%float (reach_dispatch env_ok order6 demo_world_wide).2 eq_refl Hr) as [_ H].
  destruct (processSupplierOrders env_ok (order_items order6)
              (reach_dispatch env_ok order6 demo_world_wide).2) as [[sos|e] w2] eqn:Hd;
    [vm_compute in Hd; discriminate Hd|].
  assert (He : e = mkError "Cannot read properties of null (reading 'toLowerCase')").
  { vm_compute in Hd. by injection Hd as <- _. }
  subst e.
  destruct H as ((j & item & Hj & Hlast & Hcr) & _ & _ & Hst).
  split; [reflexivity|].
  split.
  { replace w2 with (processSupplierOrders env_ok (order_items order6)
                       (reach_dispatch env_ok order6 demo_world_wide).2).2
      by (by rewrite Hd).
    vm_compute. reflexivity. }
  split; [vm_compute; reflexivity|].
  split.
  { refine (Hst eq_refl (mk_is_Some _ (demo_row "ORD-6" "paypal" "" "pending" 6) _)).
    vm_compute. reflexivity. }
  split; vm_compute; reflexivity.
Defined.

Lemma profit_never_negative_witness :
  nonneg_order scenario_order /\ not_negative (calculateProfit scenario_order).
Proof.
  assert (H : nonneg_order scenario_order).
  { split; [reflexivity|]. intros items Hitems. injection Hitems as <-.
    repeat constructor; try reflexivity; intros m Hm; discriminate Hm. }
  split; [exact H|].
  exact (proj1 (profit_never_negative env_ok scenario_order demo_world H)).
Defined.

(** An order with a margin of one half on its first item and none on its
    second: calculator and specification agree, on 15. *)
Lemma calculateProfit_meets_spec_witness :
  (forall items, order_items margin_order = Some items ->
     Forall (fun item : OrderItem =>
               forall m, profit_margin item = Some m -> JS.truthy m = true) items) /\
  calculateProfit margin_order = calculateProfit_spec margin_order /\
  calculateProfit_spec margin_order = 15%float.
Proof.
  assert (H : forall items, order_items margin_order = Some items ->
     Forall (fun item : OrderItem =>
               forall m, profit_margin item = Some m -> JS.truthy m = true) items).
  { intros items Hitems. injection Hitems as <-.
    repeat constructor; intros m Hm; [|discriminate Hm].
    injection Hm as <-. reflexivity. }
  split; [exact H|]. split; [exact (calculateProfit_meets_spec margin_order H)|].
  reflexivity.
Defined.


(** ** What a batch run may touch *)

Lemma emits_unique {A} (P Q : Event -> Prop) (m : M A) :
  emits P m -> emits Q m -> emits (fun ev => P ev /\ Q ev) m.
Proof.
  intros HP HQ w. destruct (HP w) as (evs & Hevs & E), (HQ w) as (evs' & Hevs' & E').
  assert (evs = evs') as <-.
  { rewrite E in E'. apply (f_equal log) in E'. rewrite !extend_log in E'.
    by apply app_inv_head in E'. }
  exists evs. split; [|done]. apply Forall_forall. intros ev Hin. split.
  - by eapply Forall_forall in Hevs.
  - by eapply Forall_forall in Hevs'.
Qed.

(** The world after [processOrders]: the world before, extended by
    events of the orders of the batch and by console lines. *)
Lemma processOrders_extends_by env w (P : Event -> Prop) :
  (forall ev, is_console ev -> P ev) ->
  emits P (process_batch env (pending_orders (db w))) ->
  exists evs, (processOrders env w).2 = extend w evs /\ Forall P evs.
Proof.
  intros Hc Hbatch.
  unfold processOrders, try_catch, processOrders_body, getDatabase.
  destruct (db_initialized env).
  2:{ exists [EvError (ErrOrderProcessing
        (mkError "Database not initialized. Call initializeDatabase() first."))].
      split; [reflexivity|]. apply Forall_singleton. by apply Hc. }
  unfold bind at 1. cbn [ret]. unfold bind at 1, select_pending.
  destruct (select_error env w) as [e|].
  { exists [EvError (ErrOrderProcessing e)].
    split; [reflexivity|]. apply Forall_singleton. by apply Hc. }
  unfold bind at 1. cbn [console_log emit].
  set (batch := pending_orders (db w)) in *.
  change (mkWorld (db w) (log w ++ [EvLog (LogProcessingBatch (length batch))]))
    with (extend w [EvLog (LogProcessingBatch (length batch))]).
  unfold bind.
  destruct (Hbatch (extend w [EvLog (LogProcessingBatch (length batch))]))
    as (evs & Hevs & E).
  destruct (process_batch env batch _) as [[[]|e] w1]; cbn [snd] in E; subst w1.
  - exists ([EvLog (LogProcessingBatch (length batch))] ++ evs ++ [EvLog LogBatchCompleted]).
    split.
    + cbn [console_log emit fst snd]. rewrite <- !extend_app. reflexivity.
    + apply Forall_app. split; [apply Forall_singleton; by apply Hc|].
      apply Forall_app. split; [done|apply Forall_singleton; by apply Hc].
  - exists ([EvLog (LogProcessingBatch (length batch))] ++ evs ++ [EvError (ErrOrderProcessing e)]).
    split.
    + cbn [console_error emit fst snd]. rewrite <- !extend_app. reflexivity.
    + apply Forall_app. split; [apply Forall_singleton; by apply Hc|].
      apply Forall_app. split; [done|apply Forall_singleton; by apply Hc].
Qed.

Lemma processOrders_extends env w :
  exists evs, (processOrders env w).2 = extend w evs /\
              Forall (run_event (pending_orders (db w))) evs.
Proof.
  apply processOrders_extends_by; [intros; by right|].
  eapply emits_weaken; [|apply process_batch_emits]. intros; by left.
Qed.

Lemma run_event_write_id batch ev id :
  run_event batch ev -> order_write_id ev = Some id -> id ∈ order_id <$> batch.
Proof.
  intros [(o & Hin & Hev)|Hc] Hid.
  - apply (order_event_write_id _ _ _ Hev) in Hid. subst id.
    by apply list_elem_of_fmap_2.
  - by destruct ev.
Qed.

Lemma not_pending_not_selected d id row :
  db_orders d !! id = Some row -> status row <> "pending" ->
  id ∉ order_id <$> pending_orders d.
Proof.
  intros Hrow Hst Hin. rewrite pending_orders_ids in Hin.
  apply list_elem_of_fmap in Hin as ([id' row'] & -> & Hin).
  apply pending_rows_elem in Hin as [Hrow' Hp]. cbn in *. congruence.
Qed.

Lemma replay_items_other id evs d :
  Forall (fun ev => item_write_id ev <> Some id) evs ->
  db_order_items (replay evs d) !! id = db_order_items d !! id.
Proof.
  revert d. induction evs as [|ev evs IH]; intros d H; [done|].
  inversion H as [|? ? Hev Hevs]; subst. simpl. rewrite IH by done.
  destruct ev as [| | | | | |[id' p|id' so|t] []]; simpl; try done.
  apply lookup_alter_ne. simpl in Hev. congruence.
Qed.

Lemma items_of_elem d oid (item : OrderItem) :
  item ∈ items_of d oid ->
  db_order_items d !! item_id item = Some (item_row item) /\
  item_order_id item = oid.
Proof.
  unfold items_of. intros ([iid row] & -> & Hin)%list_elem_of_fmap.
  apply list_elem_of_filter in Hin as [Hoid Hin].
  by apply elem_of_map_to_list in Hin.
Qed.

Lemma pending_orders_items d (o : Order) :
  o ∈ pending_orders d -> order_items o = Some (items_of d (order_id o)).
Proof.
  unfold pending_orders. by intros ([id row] & -> & _)%list_elem_of_fmap.
Qed.

Lemma run_event_item_write d ev iid :
  run_event (pending_orders d) ev -> item_write_id ev = Some iid ->
  exists row, db_order_items d !! iid = Some row /\
              item_order_id row ∈ order_id <$> pending_orders d.
Proof.
  intros [(o & Hin & Hev)|Hc] Hid; [|by destruct ev].
  destruct ev as [| | | | | |[id' p|id' so|t] out]; try discriminate Hid.
  injection Hid as ->.
  destruct Hev as [H|[H|[H|H]]]; try done. simpl in H.
  rewrite (pending_orders_items _ _ Hin) in H. simpl in H.
  apply list_elem_of_fmap in H as (item & -> & Hitem).
  apply items_of_elem in Hitem as [Hrow Hoid].
  exists (item_row item). split; [done|]. rewrite Hoid.
  by apply list_elem_of_fmap_2.
Qed.

(** X3. The orders outside the selected batch. A run of [processOrders]
    changes neither the row of an order it did not select nor the rows
    of that order's items, whatever the collaborators do. *)
Theorem processOrders_leaves_other_orders env w id :
  id ∉ order_id <$> pending_orders (db w) ->
  db_orders (db (processOrders env w).2) !! id = db_orders (db w) !! id /\
  forall iid irow,
    db_order_items (db w) !! iid = Some irow -> item_order_id irow = id ->
    db_order_items (db (processOrders env w).2) !! iid = Some irow.
Proof.
  intros Hid. destruct (processOrders_extends env w) as (evs & -> & Hevs). split.
  - apply replay_orders_other. eapply Forall_impl; [exact Hevs|].
    intros ev Hev Heq. apply Hid. by eapply run_event_write_id.
  - intros iid irow Hrow Hoid. rewrite <- Hrow.
    apply replay_items_other. eapply Forall_impl; [exact Hevs|].
    intros ev Hev Heq.
    destruct (run_event_item_write _ _ _ Hev Heq) as (row & Hrow' & Hin).
    apply Hid. congruence.
Qed.

(** X4. An order that is not [pending] is not selected, so a run leaves
    it as it is: [completed] and [failed] orders are never processed
    again. *)
Theorem settled_orders_untouched env w id row :
  db_orders (db w) !! id = Some row -> status row <> "pending" ->
  db_orders (db (processOrders env w).2) !! id = Some row.
Proof.
  intros Hrow Hst. destruct (processOrders_extends env w) as (evs & -> & Hevs).
  rewrite <- Hrow. apply replay_orders_other. eapply Forall_impl; [exact Hevs|].
  intros ev Hev Heq.
  eapply not_pending_not_selected; [exact Hrow | exact Hst |].
  by eapply run_event_write_id.
Qed.

Lemma order_event_pipeline_write o ev : order_event o ev -> pipeline_write ev.
Proof.
  intros [H|[H|[H|H]]]; destruct ev as [[]|[]| | | | |[id q|id so|t] ?];
    simpl in *; try done.
  - destruct H as [_ ->]. split; [by right | by left].
  - destruct H as (_ & Hp & H). split; [by left|].
    destruct (p_profit_amount q); [destruct H as [_ ->]; by left | by right].
Qed.

Lemma run_event_pipeline_write batch ev : run_event batch ev -> pipeline_write ev.
Proof.
  intros [(o & _ & H)|H]; [by eapply order_event_pipeline_write | by destruct ev].
Qed.

Lemma row_step_refl r : row_step r r.
Proof. unfold row_step. tauto. Qed.

Lemma row_step_trans r1 r2 r3 : row_step r1 r2 -> row_step r2 r3 -> row_step r1 r3.
Proof.
  unfold row_step. intros (?&?&?&?&?&Hp&Hs) (?&?&?&?&?&Hp'&Hs').
  split_and!; try congruence.
  - destruct Hp' as [->| ->]; [exact Hp | by right].
  - destruct Hs' as [->|[->| ->]]; [exact Hs | by right; left | by right; right].
Qed.

Lemma apply_patch_step p r : pipeline_patch p -> row_step r (apply_patch p r).
Proof.
  intros [Hp Hs]. unfold row_step, apply_patch. cbn.
  split_and!; try done.
  - destruct Hp as [->| ->]; [by left | by right].
  - destruct Hs as [->|[->| ->]]; [by left | by right; left | by right; right].
Qed.

Lemma replay_row_step evs d id :
  Forall pipeline_write evs ->
  match db_orders d !! id, db_orders (replay evs d) !! id with
  | Some r, Some r' => row_step r r'
  | None, None => True
  | _, _ => False
  end.
Proof.
  intros H. revert d. induction H as [|ev evs Hev _ IH]; intros d.
  { cbn. destruct (db_orders d !! id); [apply row_step_refl | done]. }
  cbn [replay fold_left]. specialize (IH (replay_event d ev)).
  fold (replay evs (replay_event d ev)).
  assert (Hone : match db_orders d !! id, db_orders (replay_event d ev) !! id with
                 | Some r, Some r' => row_step r r'
                 | None, None => True
                 | _, _ => False
                 end).
  { destruct ev as [| | | | | |[id' p|id' so|t] []]; cbn;
      try (destruct (db_orders d !! id); [apply row_step_refl | done]).
    rewrite lookup_alter. case_decide as Heq.
    - subst id'. destruct (db_orders d !! id); cbn; [by apply apply_patch_step | done].
    - destruct (db_orders d !! id); [apply row_step_refl | done]. }
  destruct (db_orders d !! id) as [r|], (db_orders (replay_event d ev) !! id) as [r1|];
    try done;
    destruct (db_orders (replay evs (replay_event d ev)) !! id) as [r2|]; try done.
  by eapply row_step_trans.
Qed.

(** X5. What a run does to the table of orders. No row is created or
    deleted; a row keeps its number, amount, payment method, payment
    reference and creation time; its [payment_status] stays or becomes
    [paid]; and its [status] changes only if it was [pending], and then
    to [completed] or [failed]. *)
Theorem processOrders_row_changes env w id :
  match db_orders (db w) !! id, db_orders (db (processOrders env w).2) !! id with
  | Some r, Some r' =>
      row_step r r' /\
      (status r' = status r \/
       status r = "pending" /\ (status r' = "completed" \/ status r' = "failed"))
  | None, None => True
  | _, _ => False
  end.
Proof.
  destruct (processOrders_extends env w) as (evs & E & Hevs).
  pose proof (replay_row_step evs (db w) id) as Hstep.
  assert (Hframe : forall r, db_orders (db w) !! id = Some r -> status r <> "pending" ->
                             db_orders (db (processOrders env w).2) !! id = Some r).
  { intros r Hr Hs. rewrite E, <- Hr. apply replay_orders_other.
    eapply Forall_impl; [exact Hevs|]. intros ev Hev Heq.
    eapply not_pending_not_selected; [exact Hr | exact Hs |].
    by eapply run_event_write_id. }
  rewrite E. cbn [db extend].
  rewrite E in Hframe. cbn [db extend] in Hframe.
  destruct (db_orders (db w) !! id) as [r|] eqn:Hr.
  - destruct (db_orders (replay evs (db w)) !! id) as [r'|] eqn:Hr'.
    + assert (Hs : row_step r r').
      { apply Hstep. eapply Forall_impl; [exact Hevs|]. apply run_event_pipeline_write. }
      split; [exact Hs|].
      destruct (decide (status r = "pending")) as [Hp|Hp].
      * destruct Hs as (_&_&_&_&_&_&[?|?]); [by left | by right].
      * left. specialize (Hframe r eq_refl Hp). congruence.
    + apply Hstep. eapply Forall_impl; [exact Hevs|]. apply run_event_pipeline_write.
  - destruct (db_orders (replay evs (db w)) !! id) as [r'|] eqn:Hr'; [|done].
    apply Hstep. eapply Forall_impl; [exact Hevs|]. apply run_event_pipeline_write.
Qed.

(** ** The ledger of transfers *)

Lemma replay_transfers evs d :
  db_profit_transfers (replay evs d) = db_profit_transfers d ++ inserted evs.
Proof.
  revert d. induction evs as [|ev evs IH]; intros d; [by rewrite app_nil_r|].
  cbn [replay fold_left]. fold (replay evs (replay_event d ev)). rewrite IH.
  destruct ev as [| | | | | |[id' p|id' so|t] []]; cbn; try done.
  by rewrite <- app_assoc.
Qed.

Lemma inserted_Forall (P : ProfitTransfer -> Prop) evs :
  Forall (fun ev => forall t out, ev = EvStore (InsertTransfer t) out -> P t) evs ->
  Forall P (inserted evs).
Proof.
  induction 1 as [|ev evs Hev _ IH]; [constructor|].
  destruct ev as [| | | | | |[id' p|id' so|t] []]; cbn; try done.
  constructor; [by eapply Hev | done].
Qed.

Lemma dispatch_items_positive env items acc :
  emits positive_transfer (dispatch_items env items acc).
Proof.
  revert acc. induction items as [|item rest IH]; intros acc; simpl; [apply emits_ret|].
  apply emits_bind; [|intros; apply IH].
  unfold dispatch_item, createSupplierOrder, getEstimatedDeliveryDate. emits_auto.
Qed.

Lemma handleProfitTransfer_positive env o p :
  emits positive_transfer (handleProfitTransfer env o p).
Proof.
  unfold handleProfitTransfer, transferToBankAccount, markPayPalTransfer.
  destruct (p <=? 0)%float eqn:Hp; emits_auto.
Qed.

Lemma process_order_positive env o : emits positive_transfer (process_order env o).
Proof.
  unfold process_order, processSingleOrder, fulfil, reach_dispatch, verify_payment,
    processPayment, record_profit, processSupplierOrders, settle, mark_failed.
  repeat first [apply dispatch_items_positive | apply handleProfitTransfer_positive
               | emits_step]; simpl; done.
Qed.

Lemma process_batch_positive env batch : emits positive_transfer (process_batch env batch).
Proof.
  induction batch as [|o rest IH]; simpl; [apply emits_ret|].
  apply emits_bind; [apply process_order_positive | intros; apply IH].
Qed.

(** X6. The ledger of transfers. A run of [processOrders] never removes
    or rewrites a transfer record: it only appends, and every record it
    appends belongs to an order of the batch, carries that order's profit,
    which is above zero, and has status [pending] or [pending_manual]. *)
Theorem transfers_append_only env w :
  exists new,
    db_profit_transfers (db (processOrders env w).2) = db_profit_transfers (db w) ++ new /\
    Forall (fun t =>
              exists o : Order,
                o ∈ pending_orders (db w) /\ pt_order_id t = order_id o /\
                pt_amount t = calculateProfit o /\ (pt_amount t <=? 0)%float = false /\
                (pt_status t = "pending" \/ pt_status t = "pending_manual")) new.
Proof.
  destruct (processOrders_extends_by env w
              (fun ev => run_event (pending_orders (db w)) ev /\ positive_transfer ev))
    as (evs & E & Hevs).
  { intros ev Hc. split; [by right | by destruct ev]. }
  { apply emits_unique; [|apply process_batch_positive].
    eapply emits_weaken; [|apply process_batch_emits]. intros; by left. }
  exists (inserted evs). rewrite E. split; [apply replay_transfers|].
  apply inserted_Forall. eapply Forall_impl; [exact Hevs|].
  intros ev [[(o & Hin & Hev)|Hc] Hpos] t out ->; [|done].
  exists o. split; [done|].
  destruct Hev as [H|[H|[H|H]]]; try done. simpl in H, Hpos. tauto.
Qed.

(** ** A run that goes through *)

Lemma dispatch_item_ok env (item : OrderItem) acc w :
  reliable env -> known_supplier item ->
  dispatch_item env item acc w =
    (Normal (acc ++ [supplier_order_of env item w]), extend w (dispatched env item w)).
Proof.
  intros [Hinit Hst] (s & Hs & Hkey).
  unfold dispatch_item, try_catch, createSupplierOrder, getEstimatedDeliveryDate,
    dispatched, supplier_order_of, supplier_name.
  rewrite Hs. unfold bind, getDatabase. rewrite Hinit.
  rewrite (bool_decide_eq_false_2 _ Hkey).
  cbn -[store_write]. unfold store_write. rewrite Hst. cbn.
  unfold extend. cbn. rewrite <- ?app_assoc. reflexivity.
Qed.

Lemma mark_ordered_twice so so' r : mark_ordered so' (mark_ordered so r) = mark_ordered so' r.
Proof. reflexivity. Qed.

(** The loop of [processSupplierOrders] when nothing fails. *)
Lemma dispatch_items_ok env items acc w :
  reliable env -> Forall known_supplier items ->
  exists sos w',
    dispatch_items env items acc w = (Normal (acc ++ sos), w') /\
    Forall2 order_for items sos /\
    created (log w') = created (log w) ++ items /\
    db_orders (db w') = db_orders (db w) /\
    db_profit_transfers (db w') = db_profit_transfers (db w) /\
    forall iid,
      (iid ∉ item_id <$> items ->
       db_order_items (db w') !! iid = db_order_items (db w) !! iid) /\
      (iid ∈ item_id <$> items ->
       exists so, so ∈ sos /\
         db_order_items (db w') !! iid
         = mark_ordered (so_id so) <$> db_order_items (db w) !! iid).
Proof.
  intros Hrel. revert acc w.
  induction items as [|item rest IH]; intros acc w Hall.
  { exists [], w. cbn. rewrite !app_nil_r. split_and!; try done.
    intros iid. split; [done|]. by intros ?%elem_of_nil. }
  apply Forall_cons in Hall as [Hs Hall].
  cbn [dispatch_items]. unfold bind. rewrite dispatch_item_ok by done.
  destruct (IH (acc ++ [supplier_order_of env item w])
               (extend w (dispatched env item w)) Hall)
    as (sos & w' & Hrun & Hfor & Hcr & Hord & Htr & Hrows).
  exists (supplier_order_of env item w :: sos), w'.
  split_and!.
  - rewrite Hrun. by rewrite <- app_assoc.
  - constructor; [by repeat split | done].
  - rewrite Hcr. cbn. rewrite !created_app. cbn. by rewrite <- !app_assoc.
  - by rewrite Hord.
  - by rewrite Htr.
  - intros iid. destruct (Hrows iid) as [Hout Hin].
    assert (Hfirst : db_order_items (db (extend w (dispatched env item w))) !! iid
                     = if decide (iid = item_id item)
                       then mark_ordered (fresh_id env w) <$> db_order_items (db w) !! iid
                       else db_order_items (db w) !! iid).
    { cbn. case_decide as Hid.
      - subst iid. apply lookup_alter_eq.
      - by apply lookup_alter_ne. }
    cbn [fmap list_fmap]. split.
    + intros Hnotin. apply not_elem_of_cons in Hnotin as [Hne Hnotin].
      rewrite Hout, Hfirst by done. by rewrite decide_False.
    + intros Hel. destruct (decide (iid ∈ item_id <$> rest)) as [Hr|Hr].
      * destruct (Hin Hr) as (so & Hso & Hlook). exists so. split; [by right|].
        rewrite Hlook, Hfirst. case_decide; [|done].
        destruct (db_order_items (db w) !! iid); reflexivity.
      * apply elem_of_cons in Hel as [->|Hel]; [|done].
        exists (supplier_order_of env item w). split; [by left|].
        rewrite Hout, Hfirst by done. by rewrite decide_True.
Qed.

(** X7. Supplier dispatch when nothing fails. With a store that takes every
    write and items that all name a supplier, [processSupplierOrders]
    returns one supplier order per item, in the order of the items and
    with the item's fields; every row of [order_items] whose key is the
    id of one of the items carries the id of one of these supplier orders
    and the status [ordered], its other columns as they were; no other row
    of any table is changed. *)
Theorem processSupplierOrders_all_ordered env items w :
  reliable env -> Forall known_supplier items ->
  exists sos w',
    processSupplierOrders env (Some items) w = (Normal sos, w') /\
    Forall2 order_for items sos /\
    created (log w') = created (log w) ++ items /\
    db_orders (db w') = db_orders (db w) /\
    db_profit_transfers (db w') = db_profit_transfers (db w) /\
    forall iid,
      (iid ∉ item_id <$> items ->
       db_order_items (db w') !! iid = db_order_items (db w) !! iid) /\
      (iid ∈ item_id <$> items ->
       exists so, so ∈ sos /\
         db_order_items (db w') !! iid
         = mark_ordered (so_id so) <$> db_order_items (db w) !! iid).
Proof.
  intros Hrel Hall.
  destruct (dispatch_items_ok env items [] w Hrel Hall) as (sos & w' & H).
  by exists sos, w'.
Qed.

(** Step 1 of [processSingleOrder] when the payment clears. *)
Lemma verify_payment_ok env (o : Order) w :
  reliable env -> payment_clears env o ->
  exists w1,
    verify_payment env o w = (Normal tt, w1) /\
    db w1 = (if bool_decide (payment_status o = "pending")
             then apply_op (UpdateOrder (order_id o) paid_patch) (db w) else db w) /\
    created (log w1) = created (log w).
Proof.
  intros [Hinit Hst] Hpay. rewrite verify_payment_run by done. cbn zeta.
  case_bool_decide as Hp.
  2:{ eexists. split; [reflexivity|]. split; [reflexivity|].
      cbn. rewrite created_app. cbn. by rewrite app_nil_r. }
  rewrite processPayment_run by done. cbn zeta.
  destruct Hpay as [Hn|[Hpp|[Hsb Hok]]]; [done| |].
  - destruct (paypal_branch_test env o Hpp) as [-> ->].
    rewrite store_write_applied by apply Hst. cbn [payment_finish].
    eexists. split; [reflexivity|]. split; [reflexivity|].
    cbn. rewrite !created_app. cbn. by rewrite !app_nil_r.
  - rewrite (stripe_branch_test env o Hsb), Hok. cbn [bool_decide].
    rewrite bool_decide_eq_true_2 by done.
    rewrite store_write_applied by apply Hst. cbn [payment_finish].
    eexists. split; [reflexivity|]. split; [reflexivity|].
    cbn. rewrite !created_app. cbn. by rewrite !app_nil_r.
Qed.

(** Step 2 of [processSingleOrder] on a store that takes the write. *)
Lemma record_profit_ok env (o : Order) w :
  reliable env ->
  record_profit env o w =
    (Normal (calculateProfit o),
     extend w [EvStore (UpdateOrder (order_id o)
                 (mkOrderPatch None None (Some (calculateProfit o)) None
                    (Some (Date_now env w)))) Applied]).
Proof.
  intros [_ Hst]. unfold record_profit, bind, new_Date. cbn -[store_write].
  by rewrite store_write_applied by apply Hst.
Qed.

(** The run of [processSingleOrder] when nothing fails. *)
Lemma processSingleOrder_through env (o : Order) items row w :
  reliable env -> payment_clears env o ->
  order_items o = Some items -> Forall known_supplier items ->
  db_orders (db w) !! order_id o = Some row ->
  exists w' row',
    processSingleOrder env o w = (Normal tt, w') /\
    db_orders (db w') !! order_id o = Some row' /\
    status row' = "completed" /\
    profit_amount row' = calculateProfit o /\
    payment_status row'
    = (if bool_decide (payment_status o = "pending") then "paid" else payment_status row) /\
    error_message row' = error_message row /\
    order_number row' = order_number row /\ total_amount row' = total_amount row /\
    payment_method row' = payment_method row /\
    stripe_payment_id row' = stripe_payment_id row /\
    created_at row' = created_at row /\
    created (log w') = created (log w) ++ items /\
    forall item : OrderItem, item ∈ items ->
      exists so, db_order_items (db w') !! item_id item
                 = mark_ordered so <$> db_order_items (db w) !! item_id item.
Proof.
  intros Hrel Hpay Hitems Hall Hrow.
  destruct (verify_payment_ok env o w Hrel Hpay) as (w1 & Hv & Hdb1 & Hc1).
  pose proof (record_profit_ok env o w1 Hrel) as Hrec.
  set (w2 := extend w1 _) in Hrec.
  assert (Hreach : reach_dispatch env o w = (Normal (calculateProfit o), w2)).
  { unfold reach_dispatch, bind. by rewrite Hv, Hrec. }
  rewrite (processSingleOrder_after_reach env o w _ w2 Hreach), Hitems.
  destruct (dispatch_items_ok env items [] w2 Hrel Hall)
    as (sos & w3 & Hd & _ & Hc3 & Ho3 & _ & Hrows).
  cbn [processSupplierOrders]. rewrite Hd. cbn [app].
  rewrite settle_run. cbn zeta.
  destruct (handleProfitTransfer_orders env o (calculateProfit o) w3) as [Ho4 Hi4].
  pose proof (emits_no_creation (handleProfitTransfer env o (calculateProfit o)) w3) as Hc4.
  set (w4 := (handleProfitTransfer env o (calculateProfit o) w3).2) in *.
  destruct Hrel as [Hinit Hst].
  rewrite store_write_applied by apply Hst.
  set (row1 := if bool_decide (payment_status o = "pending")
               then apply_patch paid_patch row else row).
  assert (Hrow1 : db_orders (db w1) !! order_id o = Some row1).
  { rewrite Hdb1. unfold row1. case_bool_decide; [|done].
    cbn. by rewrite lookup_alter_eq, Hrow. }
  assert (Hrow2 : db_orders (db w2) !! order_id o
                  = Some (apply_patch (mkOrderPatch None None (Some (calculateProfit o)) None
                                         (Some (Date_now env w1))) row1)).
  { unfold w2. cbn. by rewrite lookup_alter_eq, Hrow1. }
  eexists _, _. split; [reflexivity|]. split.
  { cbn. rewrite lookup_alter_eq, Ho4, Ho3, Hrow2. reflexivity. }
  assert (Hitems1 : db_order_items (db w2) = db_order_items (db w)).
  { unfold w2. cbn. rewrite Hdb1. by case_bool_decide. }
  split_and!; try (unfold row1; case_bool_decide; reflexivity).
  - cbn. rewrite !created_app. cbn. rewrite app_nil_r.
    rewrite Hc4.
    + rewrite Hc3. unfold w2. cbn. rewrite created_app. cbn.
      by rewrite !app_nil_r, Hc1.
    + unfold handleProfitTransfer, transferToBankAccount, markPayPalTransfer.
      emits_auto.
  - intros item Hin. destruct (Hrows (item_id item)) as [_ Hin'].
    destruct Hin' as (so & _ & Hlook); [by apply list_elem_of_fmap_2|].
    exists (so_id so). cbn. by rewrite Hi4, Hlook, Hitems1.
Qed.

(** X8. The run of an order that goes through. With a store that takes
    every write, a payment that clears and items that all name a
    supplier, [processSingleOrder] returns; the row of the order is then
    [completed], carries the computed profit and is [paid] when its
    payment was pending, its other columns apart from [updated_at] as
    they were; one supplier order was created per item, and the row of
    every item is marked [ordered]. *)
Theorem order_goes_through env (o : Order) items row w :
  reliable env -> payment_clears env o ->
  order_items o = Some items -> Forall known_supplier items ->
  db_orders (db w) !! order_id o = Some row ->
  exists w' row',
    processSingleOrder env o w = (Normal tt, w') /\
    db_orders (db w') !! order_id o = Some row' /\
    status row' = "completed" /\
    profit_amount row' = calculateProfit o /\
    payment_status row'
    = (if bool_decide (payment_status o = "pending") then "paid" else payment_status row) /\
    error_message row' = error_message row /\
    order_number row' = order_number row /\ total_amount row' = total_amount row /\
    payment_method row' = payment_method row /\
    stripe_payment_id row' = stripe_payment_id row /\
    created_at row' = created_at row /\
    created (log w') = created (log w) ++ items /\
    forall item : OrderItem, item ∈ items ->
      exists so, db_order_items (db w') !! item_id item
                 = mark_ordered so <$> db_order_items (db w) !! item_id item.
Proof.
  intros Hrel Hpay Hitems Hall Hrow.
  exact (processSingleOrder_through env o items row w Hrel Hpay Hitems Hall Hrow).
Qed.

(** ** An unsupported payment method *)

Lemma dispatch_items_no_transfer env items acc :
  emits no_transfer (dispatch_items env items acc).
Proof.
  revert acc. induction items as [|item rest IH]; intros acc; simpl; [apply emits_ret|].
  apply emits_bind; [|intros; apply IH].
  unfold dispatch_item, createSupplierOrder, getEstimatedDeliveryDate. emits_auto.
Qed.

(** With an unsupported method the payout phase writes no record. *)
Lemma after_payment_no_transfer env o :
  unsupported env o -> emits no_transfer (after_payment env o).
Proof.
  intros [Hs Hp]%unsupported_tests. unfold after_payment.
  apply emits_bind.
  - unfold record_profit, processSupplierOrders.
    repeat first [apply dispatch_items_no_transfer | emits_step]; simpl; done.
  - intros p. unfold settle, handleProfitTransfer. rewrite Hs, Hp. emits_auto.
Qed.

Lemma mark_failed_no_transfer env o e : emits no_transfer (mark_failed env o e).
Proof. unfold mark_failed. emits_auto. Qed.

Lemma mark_failed_silent env o e : emits silent (mark_failed env o e).
Proof. unfold mark_failed. emits_auto. Qed.

Lemma emits_no_transfer {A} (m : M A) w :
  emits no_transfer m -> db_profit_transfers (db (m w).2) = db_profit_transfers (db w).
Proof.
  intros H. destruct (H w) as (evs & Hevs & ->). by apply replay_transfers_unchanged.
Qed.

(** The turn of an order whose payment is not [pending]: step 1 does
    nothing but print. *)
Lemma process_order_not_pending env (o : Order) w :
  db_initialized env = true -> payment_status o <> "pending" ->
  process_order env o w =
    let w0 := extend w [EvLog (LogProcessingOrder (order_number o))] in
    match after_payment env o w0 with
    | (Normal _, w1) => (Normal tt, w1)
    | (Throw e, w1) => mark_failed env o e w1
    end.
Proof.
  intros Hdb Hne. unfold process_order, try_catch.
  rewrite processSingleOrder_split, verify_payment_run by done. cbn zeta.
  rewrite bool_decide_eq_false_2 by done.
  by destruct (after_payment env o _) as [[[]|e] w1].
Qed.

(** C8, as amended. Take an order whose payment method is neither
    [stripe] with a configured processor nor [paypal], and an initialised
    client. When its [payment_status] is [pending], its run fails with the
    error "Unsupported payment method": nothing is dispatched, no row of
    [order_items] and no transfer is written, the order is not marked
    paid, and when the store takes the writes of the status the order
    ends [failed] with that [error_message]. When its [payment_status] is
    anything else, the verifier is not called and the method is never
    found unsupported: no transfer is written, and with a store that
    takes every write and items that all name a supplier the order ends
    [completed] with every item dispatched and marked [ordered]. *)
Theorem unsupported_payment_method_fails env (o : Order) w row :
  db_initialized env = true -> unsupported env o ->
  db_orders (db w) !! order_id o = Some row ->
  let w' := (process_order env o w).2 in
  (payment_status o = "pending" ->
   (processSingleOrder env o w).1 = Throw (mkError "Unsupported payment method") /\
   payment_status <$> db_orders (db w') !! order_id o = Some (payment_status row) /\
   db_order_items (db w') = db_order_items (db w) /\
   db_profit_transfers (db w') = db_profit_transfers (db w) /\
   created (log w') = created (log w) /\
   (takes_status_writes env ->
    (process_order env o w).1 = Normal tt /\
    status <$> db_orders (db w') !! order_id o = Some "failed" /\
    error_message <$> db_orders (db w') !! order_id o
    = Some (Some "Unsupported payment method"))) /\
  (payment_status o <> "pending" ->
   verifications (log w') = verifications (log w) /\
   db_profit_transfers (db w') = db_profit_transfers (db w) /\
   (reliable env ->
    forall items, order_items o = Some items -> Forall known_supplier items ->
      (process_order env o w).1 = Normal tt /\
      status <$> db_orders (db w') !! order_id o = Some "completed" /\
      created (log w') = created (log w) ++ items /\
      forall item : OrderItem, item ∈ items ->
        exists so, db_order_items (db w') !! item_id item
                   = mark_ordered so <$> db_order_items (db w) !! item_id item)).
Proof.
  intros Hdb Hun Hrow. cbn zeta. split.
  - intros Hpend. unfold process_order, try_catch.
    rewrite processSingleOrder_unsupported by done. cbn [fst snd].
    split; [done|].
    rewrite mark_failed_run. cbn zeta. unfold store_write.
    set (w2 := extend (extend w _) _).
    assert (Hw2 : db w2 = db w) by reflexivity.
    assert (Hc2 : created (log w2) = created (log w)).
    { unfold w2. rewrite !extend_log, !created_app. cbn. by rewrite !app_nil_r. }
    destruct (store_fault env w2 _) eqn:Hsf; cbn [fst snd db log];
      rewrite ?Hw2, ?created_snoc_other, ?Hc2 by done; cbn [apply_op db_orders
        db_order_items db_profit_transfers]; rewrite ?lookup_alter_eq, ?Hrow;
      (split_and!; [done..|]); intros Hst;
      rewrite (takes_failed env w2 (order_id o) _ _ Hst) in Hsf; try discriminate Hsf.
    by split_and!.
  - intros Hne. rewrite process_order_not_pending by done. cbn zeta.
    set (w0 := extend w [EvLog (LogProcessingOrder (order_number o))]).
    pose proof (emits_silent _ w0 (after_payment_silent env o)) as Hv.
    pose proof (emits_no_transfer _ w0 (after_payment_no_transfer env o Hun)) as Ht.
    split_and!.
    + destruct (after_payment env o w0) as [[[]|e] w1]; cbn [snd] in *.
      * rewrite Hv. unfold w0. rewrite extend_log, verifications_app. cbn. lia.
      * rewrite (emits_silent _ w1 (mark_failed_silent env o e)), Hv.
        unfold w0. rewrite extend_log, verifications_app. cbn. lia.
    + destruct (after_payment env o w0) as [[[]|e] w1]; cbn [snd] in *.
      * by rewrite Ht.
      * by rewrite (emits_no_transfer _ w1 (mark_failed_no_transfer env o e)), Ht.
    + intros Hrel items Hitems Hall.
      destruct (processSingleOrder_through env o items row w Hrel (or_introl Hne)
                  Hitems Hall Hrow)
        as (w1 & row' & Hrun & Hrow' & Hst & _ & _ & _ & _ & _ & _ & _ & _ & Hcr & Hit).
      rewrite processSingleOrder_split, verify_payment_run in Hrun by done.
      cbn zeta in Hrun. rewrite bool_decide_eq_false_2 in Hrun by done.
      fold w0 in Hrun. rewrite Hrun. cbn [fst snd].
      split_and!; [done| |done|done]. by rewrite Hrow', <- Hst.
Qed.

(** ** When the batch is cut short *)

Lemma replay_status evs d id :
  Forall keeps_status evs ->
  status <$> db_orders (replay evs d) !! id = status <$> db_orders d !! id.
Proof.
  revert d. induction evs as [|ev evs IH]; intros d H; [done|].
  apply Forall_cons in H as [Hev H]. cbn [replay fold_left].
  fold (replay evs (replay_event d ev)). rewrite IH by done.
  destruct ev as [| | | | | |[id' p|id' so|t] []]; cbn; try done.
  cbn in Hev. destruct (decide (id' = id)) as [->|Hne].
  - rewrite lookup_alter_eq. destruct (db_orders d !! id); [|done].
    cbn. by rewrite Hev.
  - by rewrite lookup_alter_ne.
Qed.

Lemma dispatch_items_keeps_status env items acc :
  emits keeps_status (dispatch_items env items acc).
Proof.
  revert acc. induction items as [|item rest IH]; intros acc; simpl; [apply emits_ret|].
  apply emits_bind; [|intros; apply IH].
  unfold dispatch_item, createSupplierOrder, getEstimatedDeliveryDate. emits_auto.
Qed.

Lemma fulfil_keeps_status env o : emits keeps_status (fulfil env o).
Proof.
  unfold fulfil, reach_dispatch, verify_payment, processPayment, record_profit,
    processSupplierOrders.
  repeat first [apply dispatch_items_keeps_status | emits_step]; simpl; done.
Qed.

(** An order whose processing throws has not been given a new status. *)
Lemma processSingleOrder_throw_status env o w e w1 id :
  processSingleOrder env o w = (Throw e, w1) ->
  status <$> db_orders (db w1) !! id = status <$> db_orders (db w) !! id.
Proof.
  unfold processSingleOrder, bind.
  destruct (fulfil_keeps_status env o w) as (evs & Hevs & E).
  destruct (fulfil env o w) as [[p|e0] w0]; cbn [snd] in E; subst w0.
  - rewrite settle_run. cbn zeta.
    destruct (handleProfitTransfer_orders env o p (extend w evs)) as [Ho _].
    set (w2 := (handleProfitTransfer env o p (extend w evs)).2) in *.
    unfold store_write. destruct (store_fault env w2 _); [done|done|].
    intros [= <- <-]. cbn [db]. rewrite Ho. cbn. by apply replay_status.
  - intros [= <- <-]. cbn. by apply replay_status.
Qed.

Lemma process_batch_app env l1 l2 w :
  process_batch env (l1 ++ l2) w =
    match process_batch env l1 w with
    | (Normal _, w1) => process_batch env l2 w1
    | (Throw e, w1) => (Throw e, w1)
    end.
Proof.
  revert w. induction l1 as [|o l1 IH]; intros w; [done|].
  cbn [app]. rewrite !process_batch_step.
  destruct (process_order env o w) as [[[]|e] w1]; [apply IH | done].
Qed.

Lemma processOrders_run env w :
  db_initialized env = true -> select_error env w = None ->
  let batch := pending_orders (db w) in
  processOrders env w =
    match process_batch env batch (extend w [EvLog (LogProcessingBatch (length batch))]) with
    | (Normal _, w1) => (Normal tt, extend w1 [EvLog LogBatchCompleted])
    | (Throw e, w1) => (Normal tt, extend w1 [EvError (ErrOrderProcessing e)])
    end.
Proof.
  intros Hinit Hsel batch.
  unfold processOrders, try_catch, processOrders_body, getDatabase.
  rewrite Hinit. unfold bind at 1. cbn [ret]. unfold bind at 1, select_pending.
  rewrite Hsel. unfold bind at 1. cbn [console_log emit]. fold batch.
  change (mkWorld (db w) (log w ++ [EvLog (LogProcessingBatch (length batch))]))
    with (extend w [EvLog (LogProcessingBatch (length batch))]).
  unfold bind.
  by destruct (process_batch env batch _) as [[[]|e] w1].
Qed.

(** The run of a batch that the marking write cuts short. *)
Lemma cut_batch env w pre (o : Order) post wk e w1 e' :
  db_initialized env = true -> select_error env w = None ->
  pending_orders (db w) = pre ++ o :: post ->
  process_batch env pre
    (extend w [EvLog (LogProcessingBatch (length (pending_orders (db w))))])
  = (Normal tt, wk) ->
  processSingleOrder env o wk = (Throw e, w1) ->
  let w2 := extend w1 [EvError (ErrProcessingOrder (order_id o) e)] in
  let marking := UpdateOrder (order_id o) (failed_patch e (Date_now env w2)) in
  store_fault env w2 marking = Raises e' ->
  let final := extend w2 [EvStore marking (Raises e'); EvError (ErrOrderProcessing e')] in
  processOrders env w = (Normal tt, final) /\
  status <$> db_orders (db final) !! order_id o = Some "pending" /\
  forall o' : Order, o' ∈ post ->
    db_orders (db final) !! order_id o' = Some (order_row o') /\ status o' = "pending".
Proof.
  intros Hinit Hsel Hbatch Hpre Ho w2 marking Hfault final.
  destruct (pending_orders_spec (db w)) as (_ & Hnd & _ & Hrows).
  rewrite Hbatch in Hnd, Hrows.
  rewrite fmap_app, fmap_cons in Hnd.
  apply NoDup_app in Hnd as (_ & Hdisj & Hnd2). apply NoDup_cons in Hnd2 as [Hopost _].
  set (w0 := extend w [EvLog (LogProcessingBatch (length (pending_orders (db w))))]) in *.
  destruct (process_batch_emits env pre w0) as (evs1 & Hevs1 & E1).
  rewrite Hpre in E1. cbn [snd] in E1.
  destruct (processSingleOrder_emits env o wk) as (evs2 & Hevs2 & E2).
  rewrite Ho in E2. cbn [snd] in E2.
  assert (Hframe : forall id, id ∉ order_id <$> pre ->
            db_orders (db wk) !! id = db_orders (db w) !! id).
  { intros id Hid. rewrite E1. cbn. apply replay_orders_other.
    eapply Forall_impl; [exact Hevs1|]. intros ev (o1 & Hin & Hev) Hw.
    apply (order_event_write_id _ _ _ Hev) in Hw. subst id.
    apply Hid. by apply list_elem_of_fmap_2. }
  split; [|split].
  - rewrite processOrders_run by done. cbn zeta. fold w0. rewrite Hbatch.
    rewrite process_batch_app, Hpre, process_batch_step.
    unfold process_order, try_catch. rewrite Ho, mark_failed_run. cbn zeta.
    fold w2. fold marking. unfold store_write. rewrite Hfault.
    unfold final.
    change (mkWorld (db w2) (log w2 ++ [EvStore marking (Raises e')]))
      with (extend w2 [EvStore marking (Raises e')]).
    by rewrite extend_app.
  - change (db final) with (db w1).
    rewrite (processSingleOrder_throw_status env o wk e w1 _ Ho).
    rewrite Hframe.
    + apply Forall_app in Hrows as [_ Hrows]. apply Forall_cons in Hrows as [[-> Hst] _].
      cbn. by rewrite Hst.
    + intros Hin. apply (Hdisj _ Hin). by left.
  - intros o' Hin.
    apply Forall_app in Hrows as [_ Hrows]. apply Forall_cons in Hrows as [_ Hrows].
    rewrite Forall_forall in Hrows. destruct (Hrows o' Hin) as [Hrow Hst].
    split; [|done]. rewrite <- Hrow.
    change (db final) with (db w1). rewrite E2. cbn [db extend].
    rewrite replay_orders_other.
    + apply Hframe. intros Hin'. apply (Hdisj _ Hin'). right.
      by apply list_elem_of_fmap_2.
    + eapply Forall_impl; [exact Hevs2|]. intros ev Hev Hw.
      apply (order_event_write_id _ _ _ Hev) in Hw.
      apply Hopost. rewrite <- Hw. by apply list_elem_of_fmap_2.
Qed.

(** X9. The batch is cut short when the write that marks an order [failed]
    throws. Let the batch be [pre], then [o], then [post]; let [pre] be
    processed, let the processing of [o] throw [e], and let the store
    throw [e'] on the write that marks [o] as [failed]. Then [e'] leaves
    the loop: [processOrders] logs it and returns, [o] still has the
    status [pending], and the rows of the orders of [post] are as they
    were before the run. *)
Theorem marking_failure_cuts_batch env w pre (o : Order) post wk e w1 e' :
  db_initialized env = true -> select_error env w = None ->
  pending_orders (db w) = pre ++ o :: post ->
  process_batch env pre
    (extend w [EvLog (LogProcessingBatch (length (pending_orders (db w))))])
  = (Normal tt, wk) ->
  processSingleOrder env o wk = (Throw e, w1) ->
  let w2 := extend w1 [EvError (ErrProcessingOrder (order_id o) e)] in
  let marking := UpdateOrder (order_id o) (failed_patch e (Date_now env w2)) in
  store_fault env w2 marking = Raises e' ->
  let final := extend w2 [EvStore marking (Raises e'); EvError (ErrOrderProcessing e')] in
  processOrders env w = (Normal tt, final) /\
  status <$> db_orders (db final) !! order_id o = Some "pending" /\
  forall o' : Order, o' ∈ post ->
    db_orders (db final) !! order_id o' = Some (order_row o') /\ status o' = "pending".
Proof.
  intros Hinit Hsel Hbatch Hpre Ho w2 marking Hfault final.
  exact (cut_batch env w pre o post wk e w1 e' Hinit Hsel Hbatch Hpre Ho Hfault).
Qed.

(** C2, as amended. With the client initialised and a select that
    succeeds, [processOrders] takes the (at most ten) oldest [pending]
    orders and returns normally. When the store takes the writes of the
    status, it runs every one of them, whatever happened to the others:
    an order whose own run ([processSingleOrder] in the world its turn
    starts in) throws, for whatever reason, ends [failed] with the
    error's message as [error_message], and every order whose own run
    returns ends [completed]. When the store throws on the write that
    marks order [k] as [failed], the batch is aborted there: the error is
    logged, order [k] keeps the status [pending], and the orders after it
    are not processed: their rows are as they were, [pending]. *)
Theorem batch_failure_isolation env w :
  db_initialized env = true -> select_error env w = None ->
  let batch := pending_orders (db w) in
  let w0 := extend w [EvLog (LogProcessingBatch (length batch))] in
  let final := (processOrders env w).2 in
  (length batch <= 10)%nat /\
  StronglySorted (fun a b : Order => created_at a ≤ created_at b) batch /\
  Forall (fun o : Order =>
            db_orders (db w) !! order_id o = Some (order_row o) /\ status o = "pending")
         batch /\
  (processOrders env w).1 = Normal tt /\
  (takes_status_writes env ->
   forall k (o : Order), batch !! k = Some o ->
     let wk := (process_batch env (take k batch) w0).2 in
     match (processSingleOrder env o wk).1 with
     | Normal _ => status <$> db_orders (db final) !! order_id o = Some "completed"
     | Throw e =>
         status <$> db_orders (db final) !! order_id o = Some "failed" /\
         error_message <$> db_orders (db final) !! order_id o = Some (Some (message e))
     end) /\
  (forall k (o : Order) wk e w1 e',
     batch !! k = Some o ->
     process_batch env (take k batch) w0 = (Normal tt, wk) ->
     processSingleOrder env o wk = (Throw e, w1) ->
     let w2 := extend w1 [EvError (ErrProcessingOrder (order_id o) e)] in
     let marking := UpdateOrder (order_id o) (failed_patch e (Date_now env w2)) in
     store_fault env w2 marking = Raises e' ->
     final = extend w2 [EvStore marking (Raises e'); EvError (ErrOrderProcessing e')] /\
     status <$> db_orders (db final) !! order_id o = Some "pending" /\
     forall j (o' : Order), (k < j)%nat -> batch !! j = Some o' ->
       db_orders (db final) !! order_id o' = Some (order_row o') /\ status o' = "pending").
Proof.
  intros Hdb Hsel batch w0 final.
  destruct (pending_orders_spec (db w)) as (Hlen & Hnd & Hsorted & Hall).
  split; [exact Hlen|]. split; [exact Hsorted|]. split; [exact Hall|].
  split.
  { unfold processOrders, try_catch.
    by destruct (processOrders_body env w) as [[[]|e] w1]. }
  split.
  - intros Hrel. unfold final. rewrite processOrders_body_run by done. cbn zeta.
    fold batch. fold w0.
    destruct (process_batch_outcomes env batch w0 Hrel Hnd) as [_ Hk].
    { eapply Forall_impl; [exact Hall|]. intros o [Ho _]. unfold w0. cbn. by rewrite Ho. }
    intros k o Hko. specialize (Hk k o Hko). cbn zeta in Hk. exact Hk.
  - intros k o wk e w1 e' Hk Hpre Ho w2 marking Hfault.
    assert (Hsplit : pending_orders (db w) = take k batch ++ o :: drop (S k) batch).
    { symmetry. by apply take_drop_middle. }
    destruct (cut_batch env w (take k batch) o (drop (S k) batch) wk e w1 e'
                Hdb Hsel Hsplit Hpre Ho Hfault) as (Hrun & Hst & Hpost).
    unfold final. rewrite Hrun. cbn [snd]. split; [done|]. split; [exact Hst|].
    intros j o' Hj Ho'. apply Hpost.
    apply (list_elem_of_lookup_2 _ (j - S k)%nat).
    rewrite lookup_drop. rewrite <- Ho'. f_equal. lia.
Qed.

(** X10. A rejected marking write goes unnoticed. When the processing of
    an order throws and the store answers the write that marks it
    [failed] with an error instead of taking it, nothing looks at that
    answer: the turn of the loop ends normally, and every order has the
    status it had before the turn, the one just processed included. *)
Theorem rejected_marking_goes_unnoticed env (o : Order) w e w1 :
  processSingleOrder env o w = (Throw e, w1) ->
  let w2 := extend w1 [EvError (ErrProcessingOrder (order_id o) e)] in
  let marking := UpdateOrder (order_id o) (failed_patch e (Date_now env w2)) in
  store_fault env w2 marking = Rejected ->
  process_order env o w = (Normal tt, extend w2 [EvStore marking Rejected]) /\
  forall id,
    status <$> db_orders (db (process_order env o w).2) !! id
    = status <$> db_orders (db w) !! id.
Proof.
  intros Ho w2 marking Hfault.
  assert (Hrun : process_order env o w = (Normal tt, extend w2 [EvStore marking Rejected])).
  { unfold process_order, try_catch. rewrite Ho, mark_failed_run. cbn zeta.
    fold w2. fold marking. unfold store_write. by rewrite Hfault. }
  split; [exact Hrun|]. intros id. rewrite Hrun. cbn [snd].
  change (db (extend w2 [EvStore marking Rejected])) with (db w1).
  by apply (processSingleOrder_throw_status env o w e w1).
Qed.

(** ** When there is nothing to process *)

Lemma no_pending_orders d :
  (forall id row, db_orders d !! id = Some row -> status row <> "pending") ->
  pending_orders d = [].
Proof.
  intros Hnone. destruct (pending_orders_spec d) as (_ & _ & _ & Hall).
  destruct (pending_orders d) as [|o rest]; [done|].
  apply Forall_cons in Hall as [[Hrow Hst] _]. by destruct (Hnone _ _ Hrow).
Qed.

(** X11. A run without orders. When the client of the store is not
    initialised, when the select of the pending orders resolves with an
    error, or when no order is [pending], [processOrders] returns without
    a call to the store or to the processor: the tables are as they were
    and the run leaves console lines only. *)
Theorem processOrders_nothing_to_do env w :
  db_initialized env = false \/ is_Some (select_error env w) \/
  (forall id row, db_orders (db w) !! id = Some row -> status row <> "pending") ->
  exists lines,
    processOrders env w = (Normal tt, mkWorld (db w) (log w ++ lines)) /\
    Forall is_console lines.
Proof.
  intros H.
  destruct (db_initialized env) eqn:Hinit.
  2:{ eexists [_]. unfold processOrders, try_catch, processOrders_body, getDatabase.
      rewrite Hinit. split; [reflexivity|]. by apply Forall_singleton. }
  destruct (select_error env w) as [e|] eqn:Hsel.
  { exists [EvError (ErrOrderProcessing e)].
    unfold processOrders, try_catch, processOrders_body, getDatabase.
    rewrite Hinit. unfold bind at 1. cbn [ret]. unfold bind at 1, select_pending.
    rewrite Hsel. split; [reflexivity|]. by apply Forall_singleton. }
  destruct H as [H|[[e H]|H]]; [done|done|].
  rewrite processOrders_run by done. cbn zeta.
  rewrite (no_pending_orders _ H). cbn.
  exists [EvLog (LogProcessingBatch 0); EvLog LogBatchCompleted].
  rewrite extend_app. split; [reflexivity|]. by repeat constructor.
Qed.

(** ** The scheduler's trigger *)

(** X12. The scheduler's [catch] is never entered. [processPendingOrders]
    does what [processOrders] does and nothing else: since
    [processOrders] catches whatever its body throws, the line
    "Error processing orders" of the scheduler is never printed. *)
Theorem processPendingOrders_is_processOrders env w :
  processPendingOrders env w = processOrders env w.
Proof.
  unfold processPendingOrders, try_catch at 1.
  destruct (processOrders env w) as [[[]|e] w1] eqn:E; [done|].
  unfold processOrders, try_catch in E.
  by destruct (processOrders_body env w) as [[[]|e0] w0].
Qed.

(** ** Concrete runs of a batch *)

Lemma reliable_env_ok : reliable env_ok.
Proof. split; [reflexivity | intros; reflexivity]. Qed.

Lemma order1_items_known : Forall known_supplier order1_items.
Proof.
  repeat constructor.
  - exists "Amazon". split; [reflexivity|]. intros [H|H]; vm_compute in H; discriminate H.
  - exists "eBay". split; [reflexivity|]. intros [H|H]; vm_compute in H; discriminate H.
Qed.

Lemma processOrders_leaves_other_orders_witness :
  ("o0" ∉ order_id <$> pending_orders (db demo_world_settled)) /\
  db_orders (db (processOrders env_ok demo_world_settled).2) !! "o0"
  = db_orders (db demo_world_settled) !! "o0" /\
  forall iid irow,
    db_order_items (db demo_world_settled) !! iid = Some irow -> item_order_id irow = "o0" ->
    db_order_items (db (processOrders env_ok demo_world_settled).2) !! iid = Some irow.
Proof.
  assert (H : "o0" ∉ order_id <$> pending_orders (db demo_world_settled)).
  { assert (E : order_id <$> pending_orders (db demo_world_settled) = ["o1"; "o2"; "o3"; "o4"])
      by (vm_compute; reflexivity).
    rewrite E. intros Hin.
    repeat (apply elem_of_cons in Hin as [Hin|Hin]; [discriminate Hin|]).
    by apply elem_of_nil in Hin. }
  split; [exact H|].
  exact (processOrders_leaves_other_orders env_ok demo_world_settled "o0" H).
Defined.

Lemma settled_orders_untouched_witness :
  let row := mkOrderRow "ORD-0" 30 7.5 "completed" "paid" "paypal" "" None 0 0 in
  db_orders (db demo_world_settled) !! "o0" = Some row /\
  status row <> "pending" /\
  db_orders (db (processOrders env_ok demo_world_settled).2) !! "o0" = Some row.
Proof.
  cbv zeta.
  assert (H1 : db_orders (db demo_world_settled) !! "o0"
               = Some (mkOrderRow "ORD-0" 30 7.5 "completed" "paid" "paypal" "" None 0 0))
    by (vm_compute; reflexivity).
  assert (H2 : status (mkOrderRow "ORD-0" 30 7.5 "completed" "paid" "paypal" "" None 0 0)
               <> "pending") by discriminate.
  split; [exact H1|]. split; [exact H2|].
  exact (settled_orders_untouched env_ok demo_world_settled "o0" _ H1 H2).
Defined.

Lemma processSupplierOrders_all_ordered_witness :
  reliable env_ok /\ Forall known_supplier order1_items /\
  exists sos w',
    processSupplierOrders env_ok (Some order1_items) demo_world = (Normal sos, w') /\
    Forall2 order_for order1_items sos /\
    created (log w') = created (log demo_world) ++ order1_items /\
    db_orders (db w') = db_orders (db demo_world) /\
    db_profit_transfers (db w') = db_profit_transfers (db demo_world) /\
    forall iid,
      (iid ∉ item_id <$> order1_items ->
       db_order_items (db w') !! iid = db_order_items (db demo_world) !! iid) /\
      (iid ∈ item_id <$> order1_items ->
       exists so, so ∈ sos /\
         db_order_items (db w') !! iid
         = mark_ordered (so_id so) <$> db_order_items (db demo_world) !! iid).
Proof.
  split; [exact reliable_env_ok|]. split; [exact order1_items_known|].
  exact (processSupplierOrders_all_ordered env_ok order1_items demo_world
           reliable_env_ok order1_items_known).
Defined.

Lemma payment_clears_order1 : payment_clears env_ok order1_listed.
Proof. right; right. split; [by split | intros; reflexivity]. Qed.

Lemma order_goes_through_witness :
  let row := demo_row "ORD-1" "stripe" "pi_paid" "pending" 1 in
  reliable env_ok /\ payment_clears env_ok order1_listed /\
  order_items order1_listed = Some order1_items /\ Forall known_supplier order1_items /\
  db_orders (db demo_world) !! order_id order1_listed = Some row /\
  exists w' row',
    processSingleOrder env_ok order1_listed demo_world = (Normal tt, w') /\
    db_orders (db w') !! order_id order1_listed = Some row' /\
    status row' = "completed" /\
    profit_amount row' = calculateProfit order1_listed /\
    payment_status row'
    = (if bool_decide (payment_status order1_listed = "pending")
       then "paid" else payment_status row) /\
    error_message row' = error_message row /\
    order_number row' = order_number row /\ total_amount row' = total_amount row /\
    payment_method row' = payment_method row /\
    stripe_payment_id row' = stripe_payment_id row /\
    created_at row' = created_at row /\
    created (log w') = created (log demo_world) ++ order1_items /\
    forall item : OrderItem, item ∈ order1_items ->
      exists so, db_order_items (db w') !! item_id item
                 = mark_ordered so <$> db_order_items (db demo_world) !! item_id item.
Proof.
  cbv zeta.
  assert (H : db_orders (db demo_world) !! order_id order1_listed
              = Some (demo_row "ORD-1" "stripe" "pi_paid" "pending" 1))
    by (vm_compute; reflexivity).
  split; [exact reliable_env_ok|]. split; [exact payment_clears_order1|].
  split; [reflexivity|]. split; [exact order1_items_known|]. split; [exact H|].
  exact (order_goes_through env_ok order1_listed order1_items _ demo_world
           reliable_env_ok payment_clears_order1 eq_refl order1_items_known H).
Defined.

Lemma marking_failure_cuts_batch_witness :
  let env := env_marking_down in
  let e := mkError "Unsupported payment method" in
  let e' := mkError "store unavailable" in
  let w2 := extend world_order2_thrown [EvError (ErrProcessingOrder "o2" e)] in
  let marking := UpdateOrder "o2" (failed_patch e (Date_now env w2)) in
  let final := extend w2 [EvStore marking (Raises e'); EvError (ErrOrderProcessing e')] in
  pending_orders (db demo_world) = [order1] ++ order2 :: [order3; order4] /\
  processSingleOrder env order2 world_before_order2 = (Throw e, world_order2_thrown) /\
  store_fault env w2 marking = Raises e' /\
  processOrders env demo_world = (Normal tt, final) /\
  status <$> db_orders (db final) !! "o2" = Some "pending" /\
  forall o' : Order, o' ∈ [order3; order4] ->
    db_orders (db final) !! order_id o' = Some (order_row o') /\ status o' = "pending".
Proof.
  cbv zeta.
  assert (H1 : pending_orders (db demo_world) = [order1] ++ order2 :: [order3; order4])
    by (vm_compute; reflexivity).
  assert (H2 : process_batch env_marking_down [order1]
                 (extend demo_world
                    [EvLog (LogProcessingBatch (length (pending_orders (db demo_world))))])
               = (Normal tt, world_before_order2))
    by (vm_compute; reflexivity).
  assert (H3 : processSingleOrder env_marking_down order2 world_before_order2
               = (Throw (mkError "Unsupported payment method"), world_order2_thrown))
    by (vm_compute; reflexivity).
  split; [exact H1|]. split; [exact H3|]. split; [reflexivity|].
  exact (marking_failure_cuts_batch env_marking_down demo_world [order1] order2
           [order3; order4] world_before_order2 _ world_order2_thrown
           (mkError "store unavailable") eq_refl eq_refl H1 H2 H3 eq_refl).
Defined.

(** The batch of the wider store when the store takes every write:
    order 2 fails for its payment method and is marked [failed]; orders
    1 and 5, before and after it, are [completed]. When the store throws
    on the marking write, order 2 stays [pending] and order 5 is not
    reached. *)
Lemma batch_failure_isolation_witness :
  db_initialized env_ok = true /\ select_error env_ok demo_world_wide = None /\
  takes_status_writes env_ok /\
  pending_orders (db demo_world_wide) !! 1%nat = Some order2_wide /\
  pending_orders (db demo_world_wide) !! 4%nat = Some order5 /\
  (let final := (processOrders env_ok demo_world_wide).2 in
   status <$> db_orders (db final) !! "o1" = Some "completed" /\
   (status <$> db_orders (db final) !! "o2" = Some "failed" /\
    error_message <$> db_orders (db final) !! "o2"
    = Some (Some "Unsupported payment method")) /\
   status <$> db_orders (db final) !! "o5" = Some "completed") /\
  (let final := (processOrders env_marking_down demo_world_wide).2 in
   status <$> db_orders (db final) !! "o2" = Some "pending" /\
   db_orders (db final) !! "o5" = Some (order_row order5)).
Proof.
  cbv zeta.
  assert (H0 : pending_orders (db demo_world_wide) !! 0%nat = Some order1)
    by (vm_compute; reflexivity).
  assert (H1 : pending_orders (db demo_world_wide) !! 1%nat = Some order2_wide)
    by (vm_compute; reflexivity).
  assert (H4 : pending_orders (db demo_world_wide) !! 4%nat = Some order5)
    by (vm_compute; reflexivity).
  split; [reflexivity|]. split; [reflexivity|].
  split; [exact env_ok_takes_status_writes|]. split; [exact H1|]. split; [exact H4|].
  split.
  - pose proof (batch_failure_isolation env_ok demo_world_wide eq_refl eq_refl)
      as (_ & _ & _ & _ & Hk & _).
    specialize (Hk env_ok_takes_status_writes).
    pose proof (Hk 0%nat order1 H0) as Hk0. pose proof (Hk 1%nat order2_wide H1) as Hk1.
    pose proof (Hk 4%nat order5 H4) as Hk4.
    cbn zeta in Hk0, Hk1, Hk4.
    destruct (processSingleOrder env_ok order1 _).1 as [[]|e] eqn:E0;
      [|vm_compute in E0; discriminate E0].
    destruct (processSingleOrder env_ok order2_wide _).1 as [[]|e] eqn:E1;
      [vm_compute in E1; discriminate E1|].
    destruct (processSingleOrder env_ok order5 _).1 as [[]|e5] eqn:E4;
      [|vm_compute in E4; discriminate E4].
    vm_compute in E1. injection E1 as <-.
    split; [exact Hk0|]. split; [exact Hk1 | exact Hk4].
  - pose proof (batch_failure_isolation env_marking_down demo_world_wide eq_refl eq_refl)
      as (_ & _ & _ & _ & _ & Hcut).
    set (w0 := extend demo_world_wide
                 [EvLog (LogProcessingBatch (length (pending_orders (db demo_world_wide))))])
      in Hcut.
    set (wk := (process_batch env_marking_down
                  (take 1 (pending_orders (db demo_world_wide))) w0).2).
    set (w1 := (processSingleOrder env_marking_down order2_wide wk).2).
    assert (Hpre : process_batch env_marking_down
                     (take 1 (pending_orders (db demo_world_wide))) w0 = (Normal tt, wk))
      by (vm_compute; reflexivity).
    assert (Ho : processSingleOrder env_marking_down order2_wide wk
                 = (Throw (mkError "Unsupported payment method"), w1))
      by (vm_compute; reflexivity).
    destruct (Hcut 1%nat order2_wide wk _ w1 (mkError "store unavailable") H1 Hpre Ho eq_refl)
      as (_ & Hst & Hpost).
    split; [exact Hst|].
    exact (proj1 (Hpost 4%nat order5 (le_S _ _ (le_S _ _ (le_n 2))) H4)).
Defined.

(** C2 as stated fails: the store throws on the write that marks order 2
    [failed], and order 5, whose own run returns, is never processed. *)
Lemma failed_marking_aborts_the_batch :
  ~ valid_orders_complete env_marking_down demo_world_wide /\
  (let batch := pending_orders (db demo_world_wide) in
   let w0 := extend demo_world_wide [EvLog (LogProcessingBatch (length batch))] in
   batch !! 4%nat = Some order5 /\
   (processSingleOrder env_marking_down order5
      (process_batch env_marking_down (take 4 batch) w0).2).1 = Normal tt) /\
  status <$> db_orders (db (processOrders env_marking_down demo_world_wide).2) !! "o5"
  = Some "pending" /\
  status <$> db_orders (db (processOrders env_marking_down demo_world_wide).2) !! "o2"
  = Some "pending".
Proof.
  assert (H4 : pending_orders (db demo_world_wide) !! 4%nat = Some order5)
    by (vm_compute; reflexivity).
  assert (Hrun : (processSingleOrder env_marking_down order5
            (process_batch env_marking_down (take 4 (pending_orders (db demo_world_wide)))
               (extend demo_world_wide
                  [EvLog (LogProcessingBatch
                            (length (pending_orders (db demo_world_wide))))])).2).1
          = Normal tt) by (vm_compute; reflexivity).
  assert (Hst : status <$> db_orders
                  (db (processOrders env_marking_down demo_world_wide).2) !! "o5"
                = Some "pending") by (vm_compute; reflexivity).
  split; [|split; [by split|split; [exact Hst|vm_compute; reflexivity]]].
  intros H. specialize (H 4%nat order5 H4 Hrun). cbn [order_id order5] in H.
  rewrite Hst in H. discriminate H.
Qed.

(** The payout of order 1 is created and recorded once, under the id the
    processor gave it; the paypal order 3 gets its one record for a
    manual transfer. *)
Lemma handleProfitTransfer_records_witness :
  stripe_branch env_paying order1 /\ reliable env_paying /\
  paypal_branch env_ok order3 /\ reliable env_ok /\
  db_profit_transfers (db (handleProfitTransfer env_paying order1 12.5 demo_world).2)
  = [stripe_transfer order1 12.5 "po_1" 1700000000002] /\
  db_profit_transfers (db (handleProfitTransfer env_ok order3 2 demo_world).2)
  = [paypal_transfer order3 2 1700000000000].
Proof.
  assert (Hs : stripe_branch env_paying order1) by (split; reflexivity).
  assert (Hp : paypal_branch env_ok order3).
  { split; [intros [H _]; discriminate H | reflexivity]. }
  assert (Hrel : reliable env_paying) by (split; [reflexivity | intros; reflexivity]).
  split; [exact Hs|]. split; [exact Hrel|]. split; [exact Hp|].
  split; [exact reliable_env_ok|]. split.
  - destruct (handleProfitTransfer_records env_paying order1 12.5%float demo_world)
      as (_ & _ & _ & _ & _ & H & _).
    exact (H Hs eq_refl Hrel "po_1" eq_refl).
  - destruct (handleProfitTransfer_records env_ok order3 2%float demo_world)
      as (_ & _ & _ & _ & _ & _ & H).
    exact (H Hp eq_refl reliable_env_ok).
Defined.

Lemma unsupported_order2_wide : unsupported env_ok order2_wide.
Proof. split; [intros [H _]; discriminate H | discriminate]. Qed.

Lemma unsupported_order8 : unsupported env_ok order8.
Proof. split; [intros [H _]; discriminate H | discriminate]. Qed.

(** Order 2 of the wider store, paid by bank transfer and [pending]
    payment, fails and its item is left alone; order 8, paid by bank
    transfer too but already marked [paid], is completed and its item
    ordered. *)
Lemma unsupported_payment_method_fails_witness :
  let final2 := (process_order env_ok order2_wide demo_world_wide).2 in
  let final8 := (process_order env_ok order8 demo_world_wide).2 in
  db_initialized env_ok = true /\
  unsupported env_ok order2_wide /\ payment_status order2_wide = "pending" /\
  unsupported env_ok order8 /\ payment_status order8 <> "pending" /\
  (processSingleOrder env_ok order2_wide demo_world_wide).1
  = Throw (mkError "Unsupported payment method") /\
  (status <$> db_orders (db final2) !! "o2" = Some "failed" /\
   error_message <$> db_orders (db final2) !! "o2"
   = Some (Some "Unsupported payment method")) /\
  db_order_items (db final2) = db_order_items demo_db_wide /\
  supplier_status <$> db_order_items (db final2) !! "i7" = Some "pending" /\
  created (log final2) = [] /\
  status <$> db_orders (db final8) !! "o8" = Some "completed" /\
  verifications (log final8) = 0%nat /\
  db_profit_transfers (db final8) = [].
Proof.
  cbv zeta.
  assert (H8 : payment_status order8 <> "pending") by discriminate.
  assert (Hrow2 : db_orders (db demo_world_wide) !! order_id order2_wide
                  = Some (demo_row "ORD-2" "bank_transfer" "" "pending" 2))
    by (vm_compute; reflexivity).
  assert (Hrow8 : db_orders (db demo_world_wide) !! order_id order8
                  = Some (demo_row "ORD-8" "bank_transfer" "" "paid" 8))
    by (vm_compute; reflexivity).
  split; [reflexivity|]. split; [exact unsupported_order2_wide|]. split; [reflexivity|].
  split; [exact unsupported_order8|]. split; [exact H8|].
  destruct (unsupported_payment_method_fails env_ok order2_wide demo_world_wide _
              eq_refl unsupported_order2_wide Hrow2) as [Hpend _].
  destruct (Hpend eq_refl) as (Hthrow & _ & Hitems & _ & Hcr & Hfailed).
  destruct (Hfailed env_ok_takes_status_writes) as (_ & Hst & Hmsg).
  destruct (unsupported_payment_method_fails env_ok order8 demo_world_wide _
              eq_refl unsupported_order8 Hrow8) as [_ Hpaid].
  destruct (Hpaid H8) as (Hv & Htr & Hthrough).
  assert (Hknown : Forall known_supplier
            [mkOrderItem "i8" (demo_item "o8" 3 9 27 (Given "AliExpress"))]).
  { repeat constructor. exists "AliExpress". split; [reflexivity|].
    intros [H|H]; vm_compute in H; discriminate H. }
  destruct (Hthrough reliable_env_ok _ eq_refl Hknown) as (_ & Hdone & _).
  split; [exact Hthrow|]. split; [by split|]. split; [exact Hitems|].
  split; [rewrite Hitems; vm_compute; reflexivity|].
  split; [exact Hcr|]. split; [exact Hdone|]. split; [exact Hv | exact Htr].
Defined.

(** C8 as stated fails: order 8 is paid by bank transfer, and since it is
    already marked [paid] its method is never looked at: the run
    returns, the order is [completed] and its item is ordered. *)
Lemma paid_order_with_unsupported_method_completes :
  ~ unsupported_always_fails env_ok order8 demo_world_wide /\
  unsupported env_ok order8 /\
  (processSingleOrder env_ok order8 demo_world_wide).1 = Normal tt /\
  status <$> db_orders (db (process_order env_ok order8 demo_world_wide).2) !! "o8"
  = Some "completed" /\
  supplier_status
    <$> db_order_items (db (process_order env_ok order8 demo_world_wide).2) !! "i8"
  = Some "ordered" /\
  verifications (log (process_order env_ok order8 demo_world_wide).2) = 0%nat.
Proof.
  assert (Hrun : (processSingleOrder env_ok order8 demo_world_wide).1 = Normal tt)
    by (vm_compute; reflexivity).
  split; [|split; [exact unsupported_order8|split; [exact Hrun|]]].
  - intros H. destruct (H unsupported_order8) as [Hthrow _].
    rewrite Hrun in Hthrow. discriminate Hthrow.
  - split; [|split]; vm_compute; reflexivity.
Qed.

Lemma processOrders_nothing_to_do_witness :
  is_Some (select_error env_select_down demo_world) /\
  exists lines,
    processOrders env_select_down demo_world
    = (Normal tt, mkWorld (db demo_world) (log demo_world ++ lines)) /\
    Forall is_console lines.
Proof.
  assert (H : is_Some (select_error env_select_down demo_world)) by (by eexists).
  split; [exact H|].
  exact (processOrders_nothing_to_do env_select_down demo_world (or_intror (or_introl H))).
Defined.

Lemma rejected_marking_goes_unnoticed_witness :
  let e := mkError "Unsupported payment method" in
  let w1 := (processSingleOrder env_rejecting order2 demo_world).2 in
  let w2 := extend w1 [EvError (ErrProcessingOrder "o2" e)] in
  let marking := UpdateOrder "o2" (failed_patch e (Date_now env_rejecting w2)) in
  processSingleOrder env_rejecting order2 demo_world = (Throw e, w1) /\
  store_fault env_rejecting w2 marking = Rejected /\
  process_order env_rejecting order2 demo_world
  = (Normal tt, extend w2 [EvStore marking Rejected]) /\
  status <$> db_orders (db (process_order env_rejecting order2 demo_world).2) !! "o2"
  = Some "pending".
Proof.
  cbv zeta.
  assert (H1 : processSingleOrder env_rejecting order2 demo_world
               = (Throw (mkError "Unsupported payment method"),
                  (processSingleOrder env_rejecting order2 demo_world).2))
    by (vm_compute; reflexivity).
  split; [exact H1|]. split; [reflexivity|].
  destruct (rejected_marking_goes_unnoticed env_rejecting order2 demo_world _ _ H1 eq_refl)
    as [Hrun Hst].
  split; [exact Hrun|]. rewrite (Hst "o2"). vm_compute. reflexivity.
Defined.

(** * Trending products *)

(** ** The scoring *)

Lemma keyword_count (t : string) :
  (length (List.filter (fun keyword => Text.includes t keyword)
             Trending.positiveKeywords) <= 6)%nat.
Proof.
  etransitivity; [apply List.filter_length_le|]. reflexivity.
Qed.

Lemma calculateProductScore_range pd :
  25 <= Trending.calculateProductScore pd <= 100 /\
  (Trending.pd_rating pd = None -> Trending.pd_reviews_count pd = None ->
   35 <= Trending.calculateProductScore pd <= 83).
Proof.
  unfold Trending.calculateProductScore.
  pose proof (keyword_count (JS.toLowerCase (Trending.pd_title pd))) as Hk.
  set (k := length _) in *.
  split.
  - repeat match goal with |- context [if ?b then _ else _] => destruct b end; lia.
  - intros -> ->. cbn [Trending.test].
    repeat match goal with |- context [if ?b then _ else _] => destruct b end; lia.
Qed.

(** X13. The range of the score. [calculateProductScore] never returns less
    than 25, so the lower end of its clamp to [0, 100] is never used; and
    for a product given by title and price only, as the scrapers give it,
    the score lies between 35 and 83. *)
Theorem calculateProductScore_bounds pd :
  25 <= Trending.calculateProductScore pd <= 100 /\
  forall t p, pd = Trending.mkProductData t p None None ->
    35 <= Trending.calculateProductScore pd <= 83.
Proof.
  split; [apply calculateProductScore_range|].
  intros t p ->. by apply calculateProductScore_range.
Qed.

(** [extractPrice] always returns a number: what the runtime parses from
    the digits, dots and commas of the text when that is neither zero nor
    [NaN], and zero otherwise. *)
Lemma extractPrice_is_a_number env priceText :
  PrimFloat.is_nan (Trending.extractPrice env priceText) = false /\
  (Trending.extractPrice env priceText = 0%float \/
   Trending.extractPrice env priceText
   = Trending.parseFloat env
       (Trending.replace_first_comma
          (Text.keep Trending.digit_or_separator priceText))).
Proof.
  unfold Trending.extractPrice. case_bool_decide; [by split; [|left]|].
  cbn zeta. destruct (JS.truthy _) eqn:Ht; [|by split; [|left]].
  split; [|by right].
  unfold JS.truthy in Ht. apply negb_true_iff, orb_false_iff in Ht. apply Ht.
Qed.

(** ** The searches *)

Lemma amazon_each_keeps env elements index limit products products' :
  Trending.amazon_each env elements index limit products = Normal products' ->
  products' = products.
Proof.
  revert index. induction elements as [|element rest IH]; intros index; cbn.
  - by intros [= <-].
  - destruct (limit <=? index); [by intros [= <-]|].
    destruct (_ && _); [done|]. apply IH.
Qed.

Lemma searchAmazonBestsellers_empty env category limit :
  (Trending.searchAmazonBestsellers env category limit).1 = [].
Proof.
  unfold Trending.searchAmazonBestsellers.
  destruct (Trending.amazon_page env) as [elements|e]; [|done].
  destruct (Trending.amazon_each env elements 0 limit []) as [ps|e] eqn:H; [|done].
  by apply amazon_each_keeps in H as ->.
Qed.

(** X14. The Amazon search finds nothing. Whatever the page and the limit,
    [searchAmazonBestsellers] returns the empty list: the first element
    with a title and a price makes the loop throw (the score is computed
    from an identifier that is not declared), the function catches that
    and returns [[]]; without such an element there is nothing to
    return. *)
Theorem searchAmazonBestsellers_finds_nothing env category limit :
  (Trending.searchAmazonBestsellers env category limit).1 = [] /\
  (forall elements element,
     Trending.amazon_page env = Normal elements ->
     element ∈ take (Z.to_nat limit) elements ->
     Trending.sc_title element <> "" ->
     (0 <? Trending.extractPrice env (Trending.sc_priceText element))%float = true ->
     (Trending.searchAmazonBestsellers env category limit).2
     = [Trending.ErrAmazon (mkError "reviews_count is not defined")]).
Proof.
  split; [apply searchAmazonBestsellers_empty|].
  unfold Trending.searchAmazonBestsellers.
  - intros elements element -> Hin Ht Hp.
    assert (H : forall index ps,
              0 <= index ->
              element ∈ take (Z.to_nat (limit - index)) elements ->
              Trending.amazon_each env elements index limit ps
              = Throw (mkError "reviews_count is not defined")).
    { clear Hin. induction elements as [|el rest IH]; intros index ps Hi Hin.
      - rewrite take_nil in Hin. by apply elem_of_nil in Hin.
      - cbn. destruct (Z.leb_spec limit index) as [Hle|Hlt].
        { replace (Z.to_nat (limit - index)) with 0%nat in Hin by lia.
          by apply elem_of_nil in Hin. }
        replace (Z.to_nat (limit - index)) with (S (Z.to_nat (limit - (index + 1))))
          in Hin by lia.
        cbn in Hin. apply elem_of_cons in Hin as [<-|Hin].
        + rewrite Hp. by rewrite bool_decide_eq_false_2.
        + destruct (_ && _); [done|]. apply IH; [lia|done]. }
    rewrite H; [done|lia|]. by rewrite Z.sub_0_r.
Qed.

Lemma scraped_score t p :
  35 <= Trending.calculateProductScore (Trending.mkProductData t p None None) <= 83.
Proof. by apply calculateProductScore_range. Qed.

Lemma aliexpress_each_sound env category term elements index limit draws products :
  0 <= index ->
  Forall (scraped_from "AliExpress") products ->
  let found :=
    Trending.aliexpress_each env category term elements index limit draws products in
  Forall (scraped_from "AliExpress") found /\
  (length found <= length products + length elements)%nat /\
  (length found <= length products + Z.to_nat (limit - index))%nat.
Proof.
  revert index draws products.
  induction elements as [|element rest IH]; intros index draws products Hi Hall; cbn.
  { split; [done|]. lia. }
  destruct (Z.leb_spec limit index) as [Hle|Hlt]; [split; [done|lia]|].
  destruct (negb _ && _) eqn:Hcond.
  - apply andb_true_iff in Hcond as [Ht Hp].
    apply negb_true_iff, bool_decide_eq_false in Ht.
    edestruct (IH (index + 1) (S (S draws))) as (H1 & H2 & H3); [lia| |].
    2:{ split; [exact H1|]. rewrite length_app in H2, H3. cbn in H2, H3. lia. }
    apply Forall_app. split; [done|]. apply Forall_singleton.
    repeat split; try done; apply scraped_score.
  - edestruct (IH (index + 1) draws products) as (H1 & H2 & H3); [lia|done|].
    split; [exact H1|]. lia.
Qed.

Lemma mercadolibre_each_sound env category cid elements index limit draws products :
  0 <= index ->
  Forall (scraped_from "MercadoLibre") products ->
  let found :=
    Trending.mercadolibre_each env category cid elements index limit draws products in
  Forall (scraped_from "MercadoLibre") found /\
  (length found <= length products + length elements)%nat /\
  (length found <= length products + Z.to_nat (limit - index))%nat.
Proof.
  revert index draws products.
  induction elements as [|element rest IH]; intros index draws products Hi Hall; cbn.
  { split; [done|]. lia. }
  destruct (Z.leb_spec limit index) as [Hle|Hlt]; [split; [done|lia]|].
  destruct (negb _ && _) eqn:Hcond.
  - apply andb_true_iff in Hcond as [Ht Hp].
    apply negb_true_iff, bool_decide_eq_false in Ht.
    edestruct (IH (index + 1) (S (S draws))) as (H1 & H2 & H3); [lia| |].
    2:{ split; [exact H1|]. rewrite length_app in H2, H3. cbn in H2, H3. lia. }
    apply Forall_app. split; [done|]. apply Forall_singleton.
    repeat split; try done; apply scraped_score.
  - edestruct (IH (index + 1) draws products) as (H1 & H2 & H3); [lia|done|].
    split; [exact H1|]. lia.
Qed.

(** X15. What the AliExpress and MercadoLibre searches return. Every
    product has a title and a price above zero, carries the name of its
    source as supplier and a score between 35 and 83; there are at most
    [limit] products, and no more than the page has elements. *)
Theorem scrapers_sound env category limit :
  let aliexpress := (Trending.searchAliExpressTrending env category limit).1 in
  let mercadolibre := (Trending.searchMercadoLibreTrending env category limit).1 in
  Forall (scraped_from "AliExpress") aliexpress /\
  Forall (scraped_from "MercadoLibre") mercadolibre /\
  (length aliexpress <= Z.to_nat limit)%nat /\
  (length mercadolibre <= Z.to_nat limit)%nat /\
  (forall elements, Trending.aliexpress_page env = Normal elements ->
     (length aliexpress <= length elements)%nat) /\
  (forall elements, Trending.mercadolibre_page env = Normal elements ->
     (length mercadolibre <= length elements)%nat).
Proof.
  cbn zeta. unfold Trending.searchAliExpressTrending, Trending.searchMercadoLibreTrending.
  destruct (Trending.aliexpress_page env) as [ea|?];
    destruct (Trending.mercadolibre_page env) as [em|?]; cbn [fst];
    repeat match goal with
    | |- context [Trending.aliexpress_each env ?c ?t ?els 0 limit 0 []] =>
        let H := fresh in
        pose proof (aliexpress_each_sound env c t els 0 limit 0 [] (Z.le_refl 0)
                      (Forall_nil_2 _)) as H;
        cbn zeta in H; rewrite Z.sub_0_r in H;
        destruct H as (? & ? & ?);
        generalize dependent (Trending.aliexpress_each env c t els 0 limit 0 []); intros
    | |- context [Trending.mercadolibre_each env ?c ?t ?els 0 limit 0 []] =>
        let H := fresh in
        pose proof (mercadolibre_each_sound env c t els 0 limit 0 [] (Z.le_refl 0)
                      (Forall_nil_2 _)) as H;
        cbn zeta in H; rewrite Z.sub_0_r in H;
        destruct H as (? & ? & ?);
        generalize dependent (Trending.mercadolibre_each env c t els 0 limit 0 []); intros
    end;
    split_and!; try done; cbn; try lia;
    intros ? [= <-]; cbn in *; lia.
Qed.

(** ** Assembling the result *)

(** Every scraper comes back once. *)
Lemma arrivals_perm env :
  Trending.arrivals env ≡ₚ [Trending.Amazon; Trending.AliExpress; Trending.MercadoLibre].
Proof.
  unfold Trending.arrivals. cbn.
  repeat (match goal with |- context [if ?b then _ else _] => destruct b end; cbn);
    try done; by solve_Permutation.
Qed.

Lemma filter_unprocessed_nil products : Trending.filter_unprocessed [] products = products.
Proof.
  unfold Trending.filter_unprocessed. induction products as [|p ps IH]; [done|].
  cbn. rewrite bool_decide_eq_false_2 by apply not_elem_of_nil. cbn. by rewrite IH.
Qed.

Lemma map_processed_products urls products :
  (Trending.map_processed urls products).1 = products.
Proof.
  unfold Trending.map_processed.
  assert (H : forall acc,
            (fold_left (fun acc product =>
                          (acc.1 ++ [product], acc.2 ++ [Trending.url product]))
                       products acc).1 = acc.1 ++ products).
  { induction products as [|p ps IH]; intros acc; cbn; [by rewrite app_nil_r|].
    rewrite IH. cbn. by rewrite <- app_assoc. }
  by rewrite H.
Qed.

Lemma insert_by_score_perm a sorted : Trending.insert_by_score a sorted ≡ₚ a :: sorted.
Proof.
  induction sorted as [|b rest IH]; [done|]. cbn.
  destruct (_ <? _); [|done]. rewrite IH. apply Permutation_swap.
Qed.

Lemma sort_by_score_perm products : Trending.sort_by_score products ≡ₚ products.
Proof.
  induction products as [|p ps IH]; [done|]. cbn.
  by rewrite insert_by_score_perm, IH.
Qed.

Lemma insert_by_score_sorted a sorted :
  StronglySorted by_score sorted -> StronglySorted by_score (Trending.insert_by_score a sorted).
Proof.
  induction 1 as [|b rest Hs IH Hb]; cbn; [by repeat constructor|].
  destruct (Z.ltb_spec (Trending.score a) (Trending.score b)) as [Hlt|Hge].
  - constructor; [done|]. rewrite insert_by_score_perm. constructor; [|done].
    unfold by_score. lia.
  - constructor; [by constructor|]. constructor; [unfold by_score; lia|].
    eapply Forall_impl; [exact Hb|]. unfold by_score. intros; lia.
Qed.

Lemma sort_by_score_sorted products : StronglySorted by_score (Trending.sort_by_score products).
Proof.
  induction products as [|p ps IH]; [constructor|]. cbn. by apply insert_by_score_sorted.
Qed.

Lemma StronglySorted_take {A} (R : A -> A -> Prop) n (l : list A) :
  StronglySorted R l -> StronglySorted R (take n l).
Proof.
  intros H. revert n. induction H as [|x l Hs IH Hx]; intros [|n]; cbn; try constructor.
  - apply IH.
  - eapply Forall_forall. intros y Hy. rewrite Forall_forall in Hx. apply Hx.
    by eapply elem_of_take in Hy as (? & ?%list_elem_of_lookup_2 & _).
Qed.

Lemma slice0_take limit (products : list Trending.Product) :
  exists n, Trending.slice0 limit products = take n products /\
            (0 <= limit -> n = Z.to_nat limit).
Proof.
  unfold Trending.slice0. destruct (Z.leb_spec 0 limit).
  - by eexists.
  - eexists. split; [done|lia].
Qed.

Lemma searchTrendingProducts_parts env category limit minScore st :
  let limit' := default 20 limit in
  let found :=
    (Trending.searchAliExpressTrending env category limit').1 ++
    (Trending.searchMercadoLibreTrending env category limit').1 ++
    (Trending.searchGoogleTrends env category limit').1 in
  let result := (Trending.searchTrendingProducts env category limit minScore st).1 in
  result = Trending.slice0 limit' (Trending.sort_by_score found) /\
  StronglySorted by_score result /\
  result ⊆+ found /\
  (0 <= limit' -> (length result <= Z.to_nat limit')%nat) /\
  ((length found <= Z.to_nat limit')%nat -> result ≡ₚ found).
Proof.
  cbn zeta. unfold Trending.searchTrendingProducts. cbn [fst].
  rewrite filter_unprocessed_nil, map_processed_products.
  rewrite searchAmazonBestsellers_empty.
  cbn [app].
  set (found := _ ++ _ ++ _).
  destruct (slice0_take (default 20 limit) (Trending.sort_by_score found)) as (n & -> & Hn).
  split_and!.
  - done.
  - apply StronglySorted_take, sort_by_score_sorted.
  - rewrite <- (sort_by_score_perm found) at 2. apply sublist_submseteq, sublist_take.
  - intros Hl. rewrite length_take, (Hn Hl). lia.
  - intros Hlen. destruct (Z.leb_spec 0 (default 20 limit)) as [Hl|Hl].
    + rewrite take_ge; [apply sort_by_score_perm|].
      rewrite (sort_by_score_perm found), (Hn Hl). lia.
    + assert (Hnil : found = []) by (apply nil_length_inv; lia).
      rewrite Hnil. cbn. by rewrite take_nil.
Qed.

(** X16. What [searchTrendingProducts] returns. The result is the first
    [limit] products, by descending score, of everything the AliExpress,
    MercadoLibre and Google searches found: the Amazon search adds
    nothing, and the step meant to drop products whose [url] was seen
    before drops none, since it tests every product before any [url] is
    recorded. Neither [minScore] nor the outcome of storing the products
    has a part in it. *)
Theorem searchTrendingProducts_result env category limit minScore st :
  let limit' := default 20 limit in
  let found :=
    (Trending.searchAliExpressTrending env category limit').1 ++
    (Trending.searchMercadoLibreTrending env category limit').1 ++
    (Trending.searchGoogleTrends env category limit').1 in
  let result := (Trending.searchTrendingProducts env category limit minScore st).1 in
  result = Trending.slice0 limit' (Trending.sort_by_score found) /\
  StronglySorted by_score result /\
  result ⊆+ found /\
  (0 <= limit' -> (length result <= Z.to_nat limit')%nat) /\
  ((length found <= Z.to_nat limit')%nat -> result ≡ₚ found).
Proof. apply searchTrendingProducts_parts. Qed.

Lemma slice0_twice limit (products : list Trending.Product) :
  0 <= limit ->
  Trending.slice0 limit (Trending.slice0 limit products) = Trending.slice0 limit products.
Proof.
  intros H. unfold Trending.slice0. destruct (Z.leb_spec 0 limit); [|lia].
  rewrite take_take. f_equal. lia.
Qed.

(** X17. [getTrendingProductsByCategory] is [searchTrendingProducts]. For a
    limit that is not negative, the products it returns and the rows it
    stores are those of [searchTrendingProducts] with the same category
    and limit: its own [slice] cuts nothing off. *)
Theorem getTrendingProductsByCategory_same env category limit st :
  0 <= default 10 limit ->
  Trending.getTrendingProductsByCategory env category limit st
  = Trending.searchTrendingProducts env category (Some (default 10 limit)) None st.
Proof.
  intros H. unfold Trending.getTrendingProductsByCategory. cbn zeta.
  destruct (Trending.searchTrendingProducts env category (Some (default 10 limit)) None st)
    as [found st'] eqn:E.
  cbn [fst snd]. f_equal.
  apply (f_equal fst) in E. cbn [fst] in E.
  destruct (searchTrendingProducts_parts env category (Some (default 10 limit)) None st)
    as [Hres _].
  cbn zeta in Hres. rewrite E in Hres. cbn [default] in Hres.
  rewrite Hres. by apply slice0_twice.
Qed.

(** ** Storing the result *)

Lemma upsert_each_rows env products st :
  exists new,
    Trending.trending_products (Trending.upsert_each env products st).2
    = Trending.trending_products st ++ new /\
    Trending.console (Trending.upsert_each env products st).2 = Trending.console st /\
    Forall row_of new /\
    sublist (Trending.product_data <$> new) products /\
    ((forall st' row, Trending.upsert env st' row = Applied) ->
     Trending.product_data <$> new = products /\
     (Trending.upsert_each env products st).1 = Normal tt).
Proof.
  revert st. induction products as [|p ps IH]; intros st.
  { exists []. cbn. rewrite app_nil_r. by split_and!. }
  cbn [Trending.upsert_each].
  set (row := Trending.mkTrendingRow _ _ _ _ _).
  destruct (Trending.upsert env st row) eqn:Hu.
  - destruct (IH (Trending.mkState (Trending.trending_products st ++ [row])
                    (Trending.console st))) as (new & H1 & H2 & H3 & H4 & H5).
    exists (row :: new). split_and!.
    + rewrite H1. cbn. by rewrite <- app_assoc.
    + by rewrite H2.
    + constructor; [by repeat split | done].
    + cbn. by constructor.
    + intros Hall. destruct (H5 Hall) as [E1 E2]. split; [|exact E2].
      cbn. by rewrite E1.
  - destruct (IH st) as (new & H1 & H2 & H3 & H4 & H5).
    exists new. split_and!; try done.
    + by constructor.
    + intros Hall. rewrite Hall in Hu. discriminate.
  - exists []. cbn. rewrite app_nil_r. split_and!; try done.
    + apply sublist_nil_l.
    + intros Hall. rewrite Hall in Hu. discriminate.
Qed.

(** X18. What [storeTrendingProducts] writes. It returns whatever the
    store does, keeps the rows that were in [trending_products], and
    appends rows for some of the products, in their order: a row holds
    the product, its [url] and its [source], and is [pending]. With an
    initialised client and a store that takes every write there is one
    row per product. *)
Theorem storeTrendingProducts_rows env products st :
  let st' := Trending.storeTrendingProducts env products st in
  exists new,
    Trending.trending_products st' = Trending.trending_products st ++ new /\
    Forall row_of new /\
    sublist (Trending.product_data <$> new) products /\
    (Trending.initialized env = true ->
     (forall st0 row, Trending.upsert env st0 row = Applied) ->
     Trending.product_data <$> new = products /\
     Trending.console st' = Trending.console st).
Proof.
  cbn zeta. unfold Trending.storeTrendingProducts.
  destruct (Trending.initialized env).
  - destruct (upsert_each_rows env products st) as (new & H1 & H2 & H3 & H4 & H5).
    exists new.
    destruct (Trending.upsert_each env products st) as [[[]|e] st'] eqn:E;
      cbn [fst snd Trending.trending_products Trending.console] in *;
      split_and!; try done.
    + intros _ Hall. split; [by apply H5|done].
    + intros _ Hall. by destruct (H5 Hall).
  - exists []. cbn. rewrite app_nil_r. split_and!; try done.
    apply sublist_nil_l.
Qed.

(** ** A concrete search *)

(** The search of the concrete environment: the offer AliExpress lists
    twice is returned twice, behind the five mock products of the trends
    search. *)
Lemma getTrendingProductsByCategory_same_witness :
  let found := Trending.getTrendingProductsByCategory demo_search (Some "Home") None
                 empty_state in
  0 <= default 10 (@None Z) /\
  found = Trending.searchTrendingProducts demo_search (Some "Home") (Some 10) None
            empty_state /\
  Trending.url <$> drop 5 found.1
  = [Some "https://ali.example/lamp"; Some "https://ali.example/lamp"] /\
  length (Trending.trending_products found.2) = 7%nat.
Proof.
  cbv zeta.
  assert (H : 0 <= default 10 (@None Z)) by (cbn; lia).
  split; [exact H|]. split.
  - exact (getTrendingProductsByCategory_same demo_search (Some "Home") None empty_state H).
  - split; vm_compute; reflexivity.
Defined.

(** * The database module *)

Lemma connect_configured env st :
  match configured env with
  | Some client =>
      exists st', Database.connect env st = (Normal client, st') /\
                  Database.supabase st' = Some client /\
                  Database.tested st' = Database.tested st ++ [client] /\
                  Database.executed st' = Database.executed st
  | None =>
      exists e st', Database.connect env st = (Throw e, st') /\
                    Database.tested st' = Database.tested st ++ option_list (attempted env) /\
                    Database.executed st' = Database.executed st
  end.
Proof.
  unfold configured, attempted, Database.connect, Database.createClient.
  destruct (Database.SUPABASE_URL env) as [url|];
    [|eexists _, _; cbn; by rewrite app_nil_r].
  destruct (Database.SUPABASE_KEY env) as [key|];
    [|eexists _, _; cbn; by rewrite app_nil_r].
  destruct (_ || _); [eexists _, _; cbn; by rewrite app_nil_r|].
  destruct (Database.refused env url key); [eexists _, _; cbn; by rewrite app_nil_r|].
  destruct (Database.connection_test env _); by repeat eexists.
Qed.

Lemma configured_attempted env client :
  configured env = Some client -> attempted env = Some client.
Proof.
  unfold configured, attempted.
  destruct (Database.SUPABASE_URL env) as [url|]; [|done].
  destruct (Database.SUPABASE_KEY env) as [key|]; [|done].
  destruct (_ || _); [done|].
  destruct (Database.refused env url key); [done|].
  by destruct (Database.connection_test env _).
Qed.

(** X19. [initializeDatabase] always leaves a client. Provided the client
    library accepts the address of the local fallback, the function
    returns a client, stores it in the module, and [getDatabase] returns
    it from then on. The client is the configured one when both
    credentials are set, the library accepts them and the connection
    test does not reject; in every other case, missing credentials
    included, it is the client of [http://localhost:54321]. The function
    sends the store one request, the connection test, through the client
    made from the credentials, also when the test then rejects and the
    fallback takes over; it sends none when no such client could be
    made, and the fallback client is never tested. No [exec_sql]
    statement is sent. *)
Theorem initializeDatabase_leaves_a_client env st :
  Database.refused env "http://localhost:54321" "dev-key" = None ->
  let client := default fallback_client (configured env) in
  exists st',
    Database.initializeDatabase env st = (Normal client, st') /\
    Database.supabase st' = Some client /\
    Database.getDatabase st' = Normal client /\
    Database.tested st' = Database.tested st ++ option_list (attempted env) /\
    Database.executed st' = Database.executed st.
Proof.
  intros Hfb client. unfold Database.initializeDatabase, client.
  pose proof (connect_configured env st) as Hc.
  destruct (configured env) as [c|] eqn:Hconf.
  - destruct Hc as (st' & -> & Hs & Ht & He). exists st'.
    rewrite (configured_attempted _ _ Hconf).
    unfold Database.getDatabase. by rewrite Hs.
  - destruct Hc as (e & st' & -> & Ht & He).
    unfold Database.createClient. rewrite Hfb.
    eexists. split; [reflexivity|]. by split_and!.
Qed.

Lemma exec_each_prefix env statements st :
  exists n new,
    (Database.exec_each env statements st).2
    = Database.mkState (Database.supabase st) (Database.console st ++ new)
        (Database.tested st) (Database.executed st ++ take n statements) /\
    Forall (fun line =>
              exists e, line = Database.ErrCreatingTable e /\
                        Text.includes (message e) "already exists" = false) new /\
    ((forall s sql e, Database.exec_sql env s sql <> Database.Rejects e) ->
     (n >= length statements)%nat /\ (Database.exec_each env statements st).1 = Normal tt).
Proof.
  revert st. induction statements as [|sql rest IH]; intros st.
  { exists 0%nat, []. cbn. rewrite !app_nil_r. destruct st. cbn.
    split_and!; [done|constructor|]. intros _. split; [lia|done]. }
  cbn [Database.exec_each].
  destruct (Database.exec_sql env st sql) as [|e|e] eqn:Hsql.
  - destruct (IH (Database.sent sql st)) as (n & new & H1 & H2 & H3).
    exists (S n), new. rewrite H1. cbn. rewrite <- !app_assoc. split_and!; try done.
    intros Hall. destruct (H3 Hall). split; [lia|done].
  - destruct (Text.includes (message e) "already exists") eqn:Hinc; cbn [negb].
    + destruct (IH (Database.sent sql st)) as (n & new & H1 & H2 & H3).
      exists (S n), new. rewrite H1. cbn. rewrite <- !app_assoc. split_and!; try done.
      intros Hall. destruct (H3 Hall). split; [lia|done].
    + destruct (IH (Database.say (Database.ErrCreatingTable e) (Database.sent sql st)))
        as (n & new & H1 & H2 & H3).
      exists (S n), (Database.ErrCreatingTable e :: new). rewrite H1. cbn.
      rewrite <- !app_assoc. split_and!; try done.
      * constructor; [by exists e | done].
      * intros Hall. destruct (H3 Hall). split; [lia|done].
  - exists 1%nat, []. cbn. rewrite app_nil_r. split_and!; try done.
    intros Hall. by destruct (Hall st sql e).
Qed.

(** X20. [createTables]. Without a client it throws before anything is
    sent. With a client it never throws: it sends the statements in
    their order, all eight unless one of the calls rejects, which ends
    the loop; an answer with an error does not end it, and such an error
    is printed only if its message does not contain "already exists". *)
Theorem createTables_runs env st :
  (Database.supabase st = None ->
   Database.createTables env st
   = (Throw (mkError "Database not initialized. Call initializeDatabase() first."), st)) /\
  (is_Some (Database.supabase st) ->
   exists n st',
     Database.createTables env st = (Normal tt, st') /\
     Database.supabase st' = Database.supabase st /\
     Database.executed st' = Database.executed st ++ take n Database.tables /\
     ((forall s sql e, Database.exec_sql env s sql <> Database.Rejects e) ->
      Database.executed st' = Database.executed st ++ Database.tables) /\
     forall e, Database.ErrCreatingTable e ∈ Database.console st' ->
       Database.ErrCreatingTable e ∈ Database.console st \/
       Text.includes (message e) "already exists" = false).
Proof.
  unfold Database.createTables, Database.getDatabase. split.
  - by intros ->.
  - intros [c Hc]. rewrite Hc.
    destruct (exec_each_prefix env Database.tables st) as (n & new & H1 & H2 & H3).
    destruct (Database.exec_each env Database.tables st) as [[[]|e] st1] eqn:E;
      cbn [snd fst] in H1, H3; subst st1.
    + exists n. eexists. split; [reflexivity|]. cbn. split_and!; try done.
      * intros Hall. destruct (H3 Hall) as [Hn _]. by rewrite take_ge.
      * intros e He. rewrite <- app_assoc in He.
        apply elem_of_app in He as [He|He]; [by left|].
        apply elem_of_app in He as [He|He].
        -- rewrite Forall_forall in H2. destruct (H2 _ He) as (e' & [= <-] & Hinc).
           by right.
        -- apply list_elem_of_singleton in He. discriminate He.
    + exists n. eexists. split; [reflexivity|]. cbn. split_and!; try done.
      * intros Hall. by destruct (H3 Hall).
      * intros e' He. rewrite <- app_assoc in He.
        apply elem_of_app in He as [He|He]; [by left|].
        apply elem_of_app in He as [He|He].
        -- rewrite Forall_forall in H2. destruct (H2 _ He) as (e'' & [= <-] & Hinc).
           by right.
        -- apply list_elem_of_singleton in He. discriminate He.
Qed.

(** Without credentials nothing is sent and the fallback is used; with
    the credentials of a store that cannot be reached, the one
    connection test is sent, and the fallback is used as well. *)
Lemma initializeDatabase_leaves_a_client_witness :
  Database.refused no_credentials "http://localhost:54321" "dev-key" = None /\
  Database.refused unreachable_store "http://localhost:54321" "dev-key" = None /\
  (exists st',
     Database.initializeDatabase no_credentials fresh_module = (Normal fallback_client, st') /\
     Database.supabase st' = Some fallback_client /\
     Database.getDatabase st' = Normal fallback_client /\
     Database.tested st' = [] /\
     Database.executed st' = []) /\
  (exists st',
     Database.initializeDatabase unreachable_store fresh_module
     = (Normal fallback_client, st') /\
     Database.supabase st' = Some fallback_client /\
     Database.getDatabase st' = Normal fallback_client /\
     Database.tested st' = [Database.mkClient "https://shop.example.co" "key-1"] /\
     Database.executed st' = []).
Proof.
  split; [reflexivity|]. split; [reflexivity|]. split.
  - exact (initializeDatabase_leaves_a_client no_credentials fresh_module eq_refl).
  - exact (initializeDatabase_leaves_a_client unreachable_store fresh_module eq_refl).
Defined.

(** * Decimal numerals *)

Lemma digits_value_step c r s acc :
  Text.is_digit c = true ->
  Products.digits_value (String c r +:+ s) acc
  = Products.digits_value (r +:+ s) (acc * 10 + Z.of_nat (nat_of_ascii c - 48)).
Proof.
  intros H. change (String c r +:+ s) with (String c (r +:+ s)).
  cbn [Products.digits_value]. by rewrite H.
Qed.

Lemma digits_value_numeral d s acc :
  Products.digits_value (NilEmpty.string_of_uint d +:+ s) acc
  = Products.digits_value s (horner d acc).
Proof.
  revert acc. induction d; intros acc; cbn [NilEmpty.string_of_uint horner]; [done|..];
    rewrite digits_value_step by reflexivity; rewrite IHd; f_equal; f_equal;
    vm_compute (Z.of_nat _); lia.
Qed.

Lemma horner_of_uint_acc d acc : Z.pos (Pos.of_uint_acc d acc) = horner d (Z.pos acc).
Proof.
  revert acc. induction d; intros acc; cbn [Pos.of_uint_acc horner]; try done;
    rewrite IHd; f_equal; lia.
Qed.

Lemma horner_of_uint d : Z.of_N (Pos.of_uint d) = horner d 0.
Proof.
  induction d; cbn [Pos.of_uint horner]; try done;
    rewrite ?N2Z.inj_pos, ?horner_of_uint_acc; try done.
Qed.

Lemma decimal_value n s :
  0 <= n -> Products.digits_value (Scheduler.decimal n +:+ s) 0 = Products.digits_value s n.
Proof.
  intros Hn. unfold Scheduler.decimal, NilZero.string_of_int, Z.to_int.
  destruct n as [|p|p]; [done| |lia].
  unfold NilZero.string_of_uint.
  pose proof (DecimalPos.Unsigned.to_uint_nonnil p) as Hnil.
  pose proof (DecimalPos.Unsigned.of_to p) as Hof.
  apply (f_equal Z.of_N) in Hof. rewrite horner_of_uint in Hof. cbn in Hof.
  destruct (Pos.to_uint p) eqn:E; try done;
    rewrite (digits_value_numeral (_ _)); by rewrite Hof.
Qed.

Lemma append_empty (s : string) : s +:+ "" = s.
Proof.
  induction s as [|c s IH]; [done|].
  change (String c s +:+ "") with (String c (s +:+ "")). by rewrite IH.
Qed.

Lemma decimal_value_alone n :
  0 <= n -> Products.digits_value (Scheduler.decimal n) 0 = Some n.
Proof.
  intros Hn. pose proof (decimal_value n "" Hn) as H.
  by rewrite append_empty in H.
Qed.

Lemma digits_value_acc s acc :
  Products.digits_value s acc
  = (fun v => acc * 10 ^ Z.of_nat (String.length s) + v) <$> Products.digits_value s 0.
Proof.
  revert acc. induction s as [|c s IH]; intros acc.
  { cbn. f_equal. lia. }
  cbn [Products.digits_value String.length]. destruct (Text.is_digit c); [|done].
  rewrite IH, (IH (0 * 10 + _)).
  destruct (Products.digits_value s 0) as [v|]; [|done]. cbn. f_equal.
  rewrite Nat2Z.inj_succ, Z.pow_succ_r by lia. lia.
Qed.

Lemma digits_value_nonneg s acc v :
  0 <= acc -> Products.digits_value s acc = Some v -> 0 <= v.
Proof.
  revert acc. induction s as [|c s IH]; intros acc Ha; cbn.
  - intros [= <-]. done.
  - destruct (Text.is_digit c); [|done]. apply IH. lia.
Qed.

Lemma digits_value_app s1 s2 acc :
  Products.digits_value (s1 +:+ s2) acc
  = Products.digits_value s1 acc ≫= Products.digits_value s2.
Proof.
  revert acc. induction s1 as [|c s1 IH]; intros acc; [done|].
  change (String c s1 +:+ s2) with (String c (s1 +:+ s2)).
  cbn [Products.digits_value]. destruct (Text.is_digit c); [apply IH|done].
Qed.

Lemma digits_value_bound s v :
  Products.digits_value s 0 = Some v -> 0 <= v < 10 ^ Z.of_nat (String.length s).
Proof.
  revert v. induction s as [|c s IH]; intros v.
  { cbn. intros [= <-]. lia. }
  cbn [Products.digits_value String.length].
  destruct (Text.is_digit c) eqn:Hc; [|done].
  rewrite digits_value_acc. destruct (Products.digits_value s 0) as [v'|]; [|done].
  cbn. intros [= <-]. specialize (IH v' eq_refl).
  rewrite Nat2Z.inj_succ, Z.pow_succ_r by lia.
  assert (Z.of_nat (nat_of_ascii c - 48) <= 9).
  { unfold Text.is_digit in Hc. cbn zeta in Hc.
    apply andb_true_iff in Hc as [_ Hc%Nat.leb_le]. lia. }
  nia.
Qed.

Lemma digits_value_all_digits s :
  all_chars Text.is_digit s = true -> is_Some (Products.digits_value s 0).
Proof.
  generalize 0 as acc. induction s as [|c s IH]; intros acc H; [by eexists|].
  cbn in H. apply andb_true_iff in H as [Hc Hs].
  cbn [Products.digits_value]. rewrite Hc. by apply IH.
Qed.

Lemma substring_whole (s : string) : String.substring 0 (String.length s) s = s.
Proof. induction s as [|c s IH]; [done|]. cbn. by rewrite IH. Qed.

Lemma substring_split m (s : string) :
  (m <= String.length s)%nat ->
  s = String.substring 0 m s +:+ String.substring m (String.length s - m) s.
Proof.
  revert m. induction s as [|c s IH]; intros m Hm.
  { cbn in Hm. by replace m with 0%nat by lia. }
  destruct m as [|m].
  - rewrite Nat.sub_0_r, substring_whole. done.
  - cbn [String.substring String.length Nat.sub].
    change (String c ?a +:+ ?b) with (String c (a +:+ b)).
    f_equal. apply IH. cbn in Hm. lia.
Qed.

Lemma substring_length m n (s : string) :
  (m + n <= String.length s)%nat -> String.length (String.substring m n s) = n.
Proof.
  revert m n. induction s as [|c s IH]; intros m n H.
  { cbn in H. replace m with 0%nat by lia. by replace n with 0%nat by lia. }
  destruct m as [|m]; cbn [String.substring].
  - destruct n as [|n]; [done|]. cbn [String.length]. f_equal. apply IH. cbn in H. lia.
  - apply IH. cbn in H. lia.
Qed.

(** * The scheduler *)

(** ** The weekly insights *)

Lemma count_lookup key counts k :
  Scheduler.count key counts !! k
  = if bool_decide (key = k) then Some (default 0 (counts !! k) + 1) else counts !! k.
Proof.
  unfold Scheduler.count. case_bool_decide as H.
  - subst. by rewrite lookup_insert_eq.
  - by rewrite lookup_insert_ne.
Qed.

Lemma tally_fold rows acc :
  let done := fold_left Scheduler.tally rows acc in
  let ranges := Scheduler.price_ranges done.1 in
  let ranges0 := Scheduler.price_ranges acc.1 in
  Scheduler.low ranges + Scheduler.mid ranges + Scheduler.high ranges
  = Scheduler.low ranges0 + Scheduler.mid ranges0 + Scheduler.high ranges0
    + Z.of_nat (length rows) /\
  (forall k,
     default 0 (Scheduler.top_categories done.1 !! k)
     = default 0 (Scheduler.top_categories acc.1 !! k) + occurrences Trending.category k rows /\
     (is_Some (Scheduler.top_categories done.1 !! k) <->
      is_Some (Scheduler.top_categories acc.1 !! k) \/
      occurrences Trending.category k rows <> 0)) /\
  (forall k,
     default 0 (Scheduler.top_suppliers done.1 !! k)
     = default 0 (Scheduler.top_suppliers acc.1 !! k) + occurrences Trending.supplier k rows /\
     (is_Some (Scheduler.top_suppliers done.1 !! k) <->
      is_Some (Scheduler.top_suppliers acc.1 !! k) \/
      occurrences Trending.supplier k rows <> 0)) /\
  done.2 = acc.2 + foldr (fun row sum => Trending.score (Trending.product_data row) + sum) 0 rows.
Proof.
  revert acc. induction rows as [|row rows IH]; intros acc; cbn zeta.
  { cbn. unfold occurrences. cbn. split_and!; try lia; intros k; split; try lia; tauto. }
  cbn [fold_left]. specialize (IH (Scheduler.tally acc row)). cbn zeta in IH.
  destruct IH as (H1 & H2 & H3 & H4). rewrite H1, H4. clear H1 H4.
  split_and!.
  - unfold Scheduler.tally. cbn [fst Scheduler.price_ranges length].
    repeat match goal with |- context [if ?b then _ else _] => destruct b end; cbn; lia.
  - intros k. destruct (H2 k) as [-> ->]. clear H2 H3.
    unfold Scheduler.tally. cbn [fst Scheduler.top_categories].
    rewrite count_lookup. unfold occurrences. cbn [List.filter].
    case_bool_decide as Hk; cbn [length]; split; try lia.
    + cbn. lia.
    + split; [intros _; right; lia | intros _; left; by eexists].
    + tauto.
  - intros k. destruct (H3 k) as [-> ->]. clear H2 H3.
    unfold Scheduler.tally. cbn [fst Scheduler.top_suppliers].
    rewrite count_lookup. unfold occurrences. cbn [List.filter].
    case_bool_decide as Hk; cbn [length]; split; try lia.
    + cbn. lia.
    + split; [intros _; right; lia | intros _; left; by eexists].
    + tauto.
  - unfold Scheduler.tally. cbn. lia.
Qed.

Lemma counted_lookup (m : gmap string Z) k n :
  default 0 (m !! k) = n -> (is_Some (m !! k) <-> n <> 0) -> m !! k = counted n.
Proof.
  unfold counted. intros Hd Hs. destruct (Z.eqb_spec n 0) as [Hn|Hn].
  - destruct (m !! k) eqn:E; [|done]. exfalso. apply (proj1 Hs); [by eexists|done].
  - destruct (proj2 Hs Hn) as [x Hx]. rewrite Hx in Hd |- *. cbn in Hd. by subst.
Qed.

(** X21. The weekly insights count every row once. For rows whose
    categories and suppliers are not names of members of
    [Object.prototype], [analyzeTrendingInsights] puts every row into
    exactly one of the three price ranges, and the tables of categories
    and of suppliers hold, for every name, the number of rows with that
    name, and no entry for a name no row has. Without rows the average
    score is zero. *)
Theorem analyzeTrendingInsights_counts rows :
  Forall plain_keys rows ->
  let insights := Scheduler.analyzeTrendingInsights rows in
  let ranges := Scheduler.price_ranges insights in
  Scheduler.low ranges + Scheduler.mid ranges + Scheduler.high ranges
  = Z.of_nat (length rows) /\
  (forall k, Scheduler.top_categories insights !! k
             = counted (occurrences Trending.category k rows)) /\
  (forall k, Scheduler.top_suppliers insights !! k
             = counted (occurrences Trending.supplier k rows)) /\
  (rows = [] -> Scheduler.average_score insights = 0%float).
Proof.
  intros _. cbn zeta. unfold Scheduler.analyzeTrendingInsights. cbn zeta.
  cbn [Scheduler.price_ranges Scheduler.top_categories Scheduler.top_suppliers
       Scheduler.average_score].
  pose proof (tally_fold rows
                (Scheduler.mkInsights ∅ ∅ 0%float (Scheduler.mkPriceRanges 0 0 0), 0))
    as (H1 & H2 & H3 & _).
  cbn [fst snd Scheduler.price_ranges Scheduler.top_categories Scheduler.top_suppliers
       Scheduler.low Scheduler.mid Scheduler.high] in H1, H2, H3.
  split_and!.
  - lia.
  - intros k. destruct (H2 k) as [Hd Hs]. rewrite lookup_empty in Hd, Hs. cbn in Hd.
    apply counted_lookup; [lia|]. rewrite Hs. split; [intros [[? [=]]|]; done | by right].
  - intros k. destruct (H3 k) as [Hd Hs]. rewrite lookup_empty in Hd, Hs. cbn in Hd.
    apply counted_lookup; [lia|]. rewrite Hs. split; [intros [[? [=]]|]; done | by right].
  - by intros ->.
Qed.

(** ** The stock keeping unit *)

Lemma substring_length_le n s : (String.length (String.substring 0 n s) <= n)%nat.
Proof.
  revert s. induction n as [|n IH]; intros [|c s]; cbn; try lia.
  specialize (IH s). lia.
Qed.

Lemma all_chars_keep f s : all_chars f (Text.keep f s) = true.
Proof.
  induction s as [|c s IH]; [done|]. cbn. destruct (f c) eqn:E; [|done].
  cbn. by rewrite E.
Qed.

Lemma all_chars_substring f m n s :
  all_chars f s = true -> all_chars f (String.substring m n s) = true.
Proof.
  revert m n. induction s as [|c s IH]; intros m n H.
  { by destruct m, n. }
  cbn in H. apply andb_true_iff in H as [Hc Hs].
  destruct m as [|m]; cbn.
  - destruct n as [|n]; [done|]. cbn. rewrite Hc. by apply IH.
  - by apply IH.
Qed.

Lemma upper_ascii_class c :
  Scheduler.alphanumeric c = true -> upper_or_digit (Text.upper_ascii c) = true.
Proof.
  destruct c as [[] [] [] [] [] [] [] []]; vm_compute; congruence.
Qed.

Lemma all_chars_toUpperCase s :
  all_chars Scheduler.alphanumeric s = true ->
  all_chars upper_or_digit (Text.toUpperCase s) = true.
Proof.
  induction s as [|c s IH]; [done|]. cbn. intros [Hc Hs]%andb_true_iff.
  by rewrite upper_ascii_class, IH.
Qed.

Lemma toUpperCase_length s : String.length (Text.toUpperCase s) = String.length s.
Proof. induction s as [|c s IH]; [done|]. cbn. by rewrite IH. Qed.

Lemma string_of_uint_digits d :
  all_chars Text.is_digit (NilEmpty.string_of_uint d) = true.
Proof. induction d; cbn; try done. Qed.

Lemma decimal_digits n : 0 <= n -> all_chars Text.is_digit (Scheduler.decimal n) = true.
Proof.
  intros Hn. unfold Scheduler.decimal, NilZero.string_of_int, Z.to_int.
  destruct n as [|p|p]; [done| |lia].
  unfold NilZero.string_of_uint. destruct (Pos.to_uint p); try done;
    apply (string_of_uint_digits (_ _)).
Qed.

Lemma leading_spec s n :
  Text.toUpperCase (String.substring 0 n (Text.keep Scheduler.alphanumeric s)) = leading s n.
Proof.
  revert n. induction s as [|c s IH]; intros n; [by destruct n|].
  cbn [Text.keep leading]. destruct (Scheduler.alphanumeric c).
  - destruct n as [|n]; [done|]. cbn [String.substring Text.toUpperCase]. by rewrite IH.
  - rewrite IH. destruct n as [|n]; [|done]. by destruct s.
Qed.

Lemma leading_length s n : (String.length (leading s n) <= n)%nat.
Proof.
  revert n. induction s as [|c s IH]; intros n; [cbn; lia|].
  cbn [leading]. destruct n as [|n]; [cbn; lia|].
  destruct (Scheduler.alphanumeric c); [|apply IH].
  cbn [String.length]. specialize (IH n). lia.
Qed.

Lemma leading_class s n : all_chars upper_or_digit (leading s n) = true.
Proof.
  revert n. induction s as [|c s IH]; intros n; [done|].
  cbn [leading]. destruct n as [|n]; [done|].
  destruct (Scheduler.alphanumeric c) eqn:Hc; [|apply IH].
  cbn [all_chars]. by rewrite upper_ascii_class, IH.
Qed.

(** The last six digits of a reading of the clock spell the reading
    modulo a million. *)
Lemma stamp_value now :
  100000 <= now ->
  let stamp := Scheduler.last_chars 6 (Scheduler.decimal now) in
  String.length stamp = 6%nat /\ Products.digits_value stamp 0 = Some (now mod 1000000).
Proof.
  intros Hnow. cbn zeta. unfold Scheduler.last_chars.
  set (s := Scheduler.decimal now).
  assert (Hval : Products.digits_value s 0 = Some now) by (apply decimal_value_alone; lia).
  assert (Hlen : (6 <= String.length s)%nat).
  { destruct (digits_value_bound s now Hval) as [_ Hb].
    destruct (Nat.le_gt_cases 6 (String.length s)) as [H|H]; [done|].
    assert (10 ^ Z.of_nat (String.length s) <= 10 ^ 5)
      by (apply Z.pow_le_mono_r; lia).
    lia. }
  set (m := (String.length s - 6)%nat).
  assert (Hsix : String.length (String.substring m 6 s) = 6%nat)
    by (apply substring_length; lia).
  split; [exact Hsix|].
  pose proof (substring_split m s ltac:(lia)) as Hsplit.
  replace (String.length s - m)%nat with 6%nat in Hsplit by lia.
  rewrite Hsplit, digits_value_app in Hval.
  destruct (Products.digits_value (String.substring 0 m s) 0) as [hi|] eqn:Hhi;
    [|discriminate Hval].
  cbn in Hval. rewrite digits_value_acc in Hval.
  destruct (Products.digits_value (String.substring m 6 s) 0) as [lo|] eqn:Hlo;
    [|discriminate Hval].
  cbn in Hval. injection Hval as Hval. rewrite Hsix in Hval.
  destruct (digits_value_bound _ _ Hlo) as [Hlo0 Hlo1]. rewrite Hsix in Hlo1.
  f_equal. change (10 ^ Z.of_nat 6) with 1000000 in *.
  apply (Z.mod_unique_pos _ _ hi); lia.
Qed.

(** X22. The form of a stock keeping unit. [generateSKU] returns the
    first three letters and digits of the supplier, the first ten of the
    title, the letters in capitals, and a stamp, joined by two hyphens;
    every other character of supplier and title is dropped. The stamp
    holds the last six digits of the clock's reading: from a reading of
    100000 on it has six digits, which spell the reading modulo a
    million. *)
Theorem generateSKU_format now title supplier :
  0 <= now ->
  let code := leading supplier 3 in
  let name := leading title 10 in
  let stamp := Scheduler.last_chars 6 (Scheduler.decimal now) in
  Scheduler.generateSKU now title supplier = code +:+ "-" +:+ name +:+ "-" +:+ stamp /\
  (String.length code <= 3)%nat /\ (String.length name <= 10)%nat /\
  (String.length stamp <= 6)%nat /\
  all_chars upper_or_digit code = true /\ all_chars upper_or_digit name = true /\
  all_chars Text.is_digit stamp = true /\
  (100000 <= now ->
   String.length stamp = 6%nat /\ Products.digits_value stamp 0 = Some (now mod 1000000)).
Proof.
  intros Hnow. unfold Scheduler.generateSKU. cbn zeta. rewrite !leading_spec.
  split_and!.
  - reflexivity.
  - apply leading_length.
  - apply leading_length.
  - unfold Scheduler.last_chars.
    generalize (String.length (Scheduler.decimal now) - 6)%nat as m.
    generalize (Scheduler.decimal now) as s. intros s.
    induction s as [|c s IH]; intros [|m]; cbn; try lia.
    + pose proof (substring_length_le 5 s). lia.
    + apply IH.
  - apply leading_class.
  - apply leading_class.
  - by apply all_chars_substring, decimal_digits.
  - apply stamp_value.
Qed.

(** ** Registering the jobs *)

Lemma initializeScheduler_again n st :
  Scheduler.schedulerStarted st = true ->
  let later := Nat.iter n Scheduler.initializeScheduler st in
  Scheduler.schedulerStarted later = true /\
  Scheduler.scheduled later = Scheduler.scheduled st /\
  Scheduler.console later
  = Scheduler.console st ++ replicate n Scheduler.LogAlreadyInitialized.
Proof.
  intros Hs. induction n as [|n IH]; cbn zeta.
  { cbn. by rewrite app_nil_r. }
  cbn zeta in IH. destruct IH as (H1 & H2 & H3).
  change (Nat.iter (S n) Scheduler.initializeScheduler st)
    with (Scheduler.initializeScheduler (Nat.iter n Scheduler.initializeScheduler st)).
  unfold Scheduler.initializeScheduler at 1 3 5.
  rewrite H1. cbn. rewrite H2, H3. split_and!; try done.
  rewrite <- app_assoc. f_equal.
  clear. induction n as [|n IH]; [done|]. cbn. by rewrite IH.
Qed.

(** X23. The scheduler is set up once. The first call of
    [initializeScheduler] registers the seven jobs; every later call
    registers nothing and only prints a warning. *)
Theorem initializeScheduler_once n st :
  let first := Scheduler.initializeScheduler st in
  let later := Nat.iter n Scheduler.initializeScheduler first in
  Scheduler.schedulerStarted later = true /\
  Scheduler.scheduled later = Scheduler.scheduled first /\
  Scheduler.console later
  = Scheduler.console first ++ replicate n Scheduler.LogAlreadyInitialized /\
  (Scheduler.schedulerStarted st = false ->
   length (Scheduler.scheduled first) = (length (Scheduler.scheduled st) + 7)%nat).
Proof.
  cbn zeta.
  assert (Hs : Scheduler.schedulerStarted (Scheduler.initializeScheduler st) = true).
  { unfold Scheduler.initializeScheduler. by destruct (Scheduler.schedulerStarted st). }
  destruct (initializeScheduler_again n _ Hs) as (H1 & H2 & H3).
  split_and!; try done.
  intros Hf. unfold Scheduler.initializeScheduler. rewrite Hf. cbn.
  rewrite length_app. reflexivity.
Qed.

(** ** Concrete insights and a concrete unit *)

Lemma analyzeTrendingInsights_counts_witness :
  let insights := Scheduler.analyzeTrendingInsights demo_rows in
  Forall plain_keys demo_rows /\
  Scheduler.price_ranges insights = Scheduler.mkPriceRanges 2 5 0 /\
  Scheduler.top_suppliers insights !! "AliExpress" = Some 2 /\
  Scheduler.top_suppliers insights !! "Amazon" = None.
Proof.
  cbv zeta.
  assert (H : Forall plain_keys demo_rows)
    by (apply (bool_decide_unpack _); vm_compute; reflexivity).
  split; [exact H|].
  destruct (analyzeTrendingInsights_counts demo_rows H) as (_ & _ & Hs & _).
  split; [vm_compute; reflexivity|].
  rewrite !Hs. split; vm_compute; reflexivity.
Defined.

Lemma generateSKU_format_witness :
  0 <= 1700000000123 /\
  leading "AliExpress" 3 = "ALI" /\ leading "Desk lamp (LED), 5 W" 10 = "DESKLAMPLE" /\
  Scheduler.generateSKU 1700000000123 "Desk lamp (LED), 5 W" "AliExpress"
  = "ALI-DESKLAMPLE-000123" /\
  Products.digits_value "000123" 0 = Some (1700000000123 mod 1000000).
Proof.
  assert (H : 0 <= 1700000000123) by lia.
  split; [exact H|]. split; [reflexivity|]. split; [reflexivity|].
  destruct (generateSKU_format 1700000000123 "Desk lamp (LED), 5 W" "AliExpress" H)
    as (Hsku & _ & _ & _ & _ & _ & _ & Hstamp).
  split.
  - rewrite Hsku. vm_compute. reflexivity.
  - destruct (Hstamp ltac:(lia)) as [_ Hv].
    replace "000123" with (Scheduler.last_chars 6 (Scheduler.decimal 1700000000123))
      by (vm_compute; reflexivity).
    exact Hv.
Defined.

(** * Product analysis *)

Lemma analysis_extractPrice_number env s :
  PrimFloat.is_nan (Analysis.extractPrice env s) = false.
Proof.
  unfold Analysis.extractPrice. case_bool_decide; [done|]. cbn zeta.
  destruct (JS.truthy _) eqn:Ht; [|done].
  unfold JS.truthy in Ht. apply negb_true_iff, orb_false_iff in Ht. apply Ht.
Qed.

Lemma or_price_number a b :
  PrimFloat.is_nan b = false -> PrimFloat.is_nan (Analysis.or_price a b) = false.
Proof.
  intros Hb. unfold Analysis.or_price. destruct (JS.truthy a) eqn:Ht; [|done].
  unfold JS.truthy in Ht. apply negb_true_iff, orb_false_iff in Ht. apply Ht.
Qed.

Lemma extractProductFromURL_outcomes_core env address st :
  match Analysis.extractProductFromURL env address st with
  | (Throw error, st') =>
      error = masked /\ Analysis.product_analysis st' = Analysis.product_analysis st /\
      exists cause, Analysis.console st' = Analysis.console st ++ [Analysis.ErrExtracting cause]
  | (Normal extractedData, st') =>
      st' = st /\
      Analysis.url extractedData = None /\ Analysis.supplier extractedData = None /\
      (exists p, Analysis.price extractedData = Some p /\ PrimFloat.is_nan p = false) /\
      (supported_only address -> extractedData = Analysis.blank)
  end.
Proof.
  unfold Analysis.extractProductFromURL.
  destruct (Analysis.extract env address) as [d|e] eqn:E.
  2:{ split; [done|]. split; [done|]. by exists e. }
  split; [done|].
  unfold Analysis.extract in E.
  destruct (existsb _ _) eqn:Hsup; cbn [negb] in E; [|done].
  destruct (Analysis.fetch env address) as [page|?]; [|done].
  destruct (Text.includes address "amazon") eqn:Ha.
  { injection E as <-. cbn. split_and!; try done.
    - eexists. split; [reflexivity|].
      do 2 apply or_price_number. apply analysis_extractPrice_number.
    - intros (_ & Hn & _). congruence. }
  destruct (Text.includes address "aliexpress") eqn:Hb.
  { injection E as <-. cbn. split_and!; try done.
    - eexists. split; [reflexivity|]. apply analysis_extractPrice_number.
    - intros (_ & _ & Hn & _). congruence. }
  destruct (Text.includes address "mercadolibre") eqn:Hc.
  { injection E as <-. cbn. split_and!; try done.
    - eexists. split; [reflexivity|].
      apply or_price_number, analysis_extractPrice_number.
    - intros (_ & _ & _ & Hn). congruence. }
  injection E as <-. cbn. split_and!; try done. by eexists.
Qed.

(** X24. What [extractProductFromURL] gives back. Whatever goes wrong, an
    address of a site that is not supported as much as a failed request,
    the caller gets the one error "No se pudo extraer información del
    producto", and the cause is only printed. What it returns never
    carries the address or a supplier, and its price is a number. For an
    address that passes the check of the supported sites without naming
    one of the three the extraction knows (one of [ebay.com]), it returns
    the blank product: no title and the price zero. *)
Theorem extractProductFromURL_outcomes env address st :
  match Analysis.extractProductFromURL env address st with
  | (Throw error, st') =>
      error = masked /\ Analysis.product_analysis st' = Analysis.product_analysis st /\
      exists cause, Analysis.console st' = Analysis.console st ++ [Analysis.ErrExtracting cause]
  | (Normal extractedData, st') =>
      st' = st /\
      Analysis.url extractedData = None /\ Analysis.supplier extractedData = None /\
      (exists p, Analysis.price extractedData = Some p /\ PrimFloat.is_nan p = false) /\
      (supported_only address -> extractedData = Analysis.blank)
  end.
Proof. apply extractProductFromURL_outcomes_core. Qed.

Lemma no_new_rows (P : Analysis.AnalysisRow -> Prop) (rows : list Analysis.AnalysisRow) :
  exists new, rows = rows ++ new /\ (length new <= 1)%nat /\ Forall P new.
Proof. exists []. rewrite app_nil_r. split_and!; [done|cbn; lia|constructor]. Qed.

Lemma one_new_row (P : Analysis.AnalysisRow -> Prop) rows row :
  P row -> exists new, rows ++ [row] = rows ++ new /\ (length new <= 1)%nat /\ Forall P new.
Proof. intros H. exists [row]. split_and!; [done|cbn; lia|by constructor]. Qed.

Lemma saveProductAnalysis_rows env productData analysisResult st :
  Analysis.url productData = None ->
  exists new,
    Analysis.product_analysis (Analysis.saveProductAnalysis env productData analysisResult st)
    = Analysis.product_analysis st ++ new /\
    (length new <= 1)%nat /\
    Forall (fun row => Analysis.source_url row = None /\ Analysis.status row = "completed") new.
Proof.
  intros Hu. unfold Analysis.saveProductAnalysis.
  destruct (Analysis.initialized env); [|apply no_new_rows].
  destruct (Analysis.insert env st _); cbn [Analysis.product_analysis Analysis.say].
  - apply one_new_row. cbn. by rewrite Hu.
  - apply no_new_rows.
  - apply no_new_rows.
Qed.

(** X25. An analysis is saved without its address. Whatever it is asked
    and whatever its services answer, [analyzeProductWithAI] adds at
    most one row to [product_analysis], and a row it adds has no
    [source_url]: a product that came with an address is replaced by
    what was read off the page, which holds none. *)
Theorem analyzeProductWithAI_saves_without_url env productData st :
  exists new,
    Analysis.product_analysis (Analysis.analyzeProductWithAI env productData st).2
    = Analysis.product_analysis st ++ new /\
    (length new <= 1)%nat /\
    Forall (fun row => Analysis.source_url row = None /\ Analysis.status row = "completed") new.
Proof.
  unfold Analysis.analyzeProductWithAI, Analysis.analyze.
  pose proof (no_new_rows (fun row => Analysis.source_url row = None /\
                                      Analysis.status row = "completed")) as Hnone.
  destruct (Analysis.or_attr (Analysis.url productData) None) as [address|] eqn:Hurl.
  - pose proof (extractProductFromURL_outcomes_core env address st) as Hex.
    destruct (Analysis.extractProductFromURL env address st) as [[d|e] st1].
    + destruct Hex as (-> & Hu & _).
      destruct (Analysis.chat env d) as [content|?]; [|apply Hnone].
      destruct (Analysis.JSON_parse env content) as [result|?]; [|apply Hnone].
      cbn [snd]. by apply saveProductAnalysis_rows.
    + destruct Hex as (_ & Hp & _). cbn [snd Analysis.say Analysis.product_analysis].
      rewrite Hp. apply Hnone.
  - assert (Hu : Analysis.or_attr (Analysis.url productData) None = None) by done.
    destruct (Analysis.chat env productData) as [content|?]; [|apply Hnone].
    destruct (Analysis.JSON_parse env content) as [result|?]; [|apply Hnone].
    cbn [snd]. unfold Analysis.saveProductAnalysis.
    destruct (Analysis.initialized env); [|apply Hnone].
    destruct (Analysis.insert env st _); cbn [Analysis.product_analysis Analysis.say].
    + apply one_new_row. cbn. by rewrite Hu.
    + apply Hnone.
    + apply Hnone.
Qed.

(** X26. The fallback after a failed extraction. When the product comes
    with an address and the extraction fails, [analyzeProductWithAI]
    returns the fallback analysis of the product as it was given: its
    margin is 25, nothing is saved, and the recommended price is [NaN]
    when the request held no price. *)
Theorem analyzeProductWithAI_fallback env productData address st :
  Analysis.url productData = Some address -> address <> "" ->
  (Analysis.extractProductFromURL env address st).1 = Throw masked ->
  let answer := Analysis.analyzeProductWithAI env productData st in
  answer.1 = Analysis.generateFallbackAnalysis env 0 productData /\
  Analysis.recommended_margin answer.1 = Some 25%float /\
  Analysis.product_analysis answer.2 = Analysis.product_analysis st /\
  (Analysis.price productData = None ->
   exists p, Analysis.recommended_price answer.1 = Some p /\ PrimFloat.is_nan p = true).
Proof.
  intros Hu Hne Hex. cbn zeta.
  unfold Analysis.analyzeProductWithAI, Analysis.analyze.
  rewrite Hu. cbn [Analysis.or_attr]. rewrite bool_decide_eq_false_2 by done.
  pose proof (extractProductFromURL_outcomes_core env address st) as Hc.
  destruct (Analysis.extractProductFromURL env address st) as [[d|e] st1];
    cbn [fst] in Hex; [done|].
  destruct Hc as (_ & Hp & _). cbn [fst snd]. split_and!; try done.
  intros Hprice. cbn. rewrite Hprice. by eexists.
Qed.

(** ** A concrete analysis *)

Lemma analyzeProductWithAI_fallback_witness :
  let address := "https://shop.example/lamp" in
  let answer := Analysis.analyzeProductWithAI offline (by_address address) no_analysis in
  Analysis.url (by_address address) = Some address /\ address <> "" /\
  (Analysis.extractProductFromURL offline address no_analysis).1 = Throw masked /\
  answer.1 = Analysis.generateFallbackAnalysis offline 0 (by_address address) /\
  Analysis.score answer.1 = Some 70%float /\
  Analysis.console answer.2
  = [Analysis.ErrExtracting (mkError "Sitio no soportado para extracción automática");
     Analysis.ErrAIAnalysis masked].
Proof.
  cbv zeta.
  assert (H1 : "https://shop.example/lamp" <> "") by discriminate.
  assert (H2 : (Analysis.extractProductFromURL offline "https://shop.example/lamp"
                  no_analysis).1 = Throw masked) by (vm_compute; reflexivity).
  split; [reflexivity|]. split; [exact H1|]. split; [exact H2|].
  split.
  - exact (proj1 (analyzeProductWithAI_fallback offline
                    (by_address "https://shop.example/lamp") _ no_analysis eq_refl H1 H2)).
  - split; vm_compute; reflexivity.
Defined.

(** * The product controller *)

(** ** The window of [getProducts] *)

Lemma safe_within n :
  Z.abs n <= Products.MAX_SAFE_INTEGER -> Products.safe n = Some n.
Proof. intros H. unfold Products.safe. by rewrite (proj2 (Z.leb_le _ _) H). Qed.

Lemma ToNumber_num n :
  Z.abs n <= Products.MAX_SAFE_INTEGER -> Products.ToNumber (Products.Num n) = Some n.
Proof. apply safe_within. Qed.

Lemma ToNumber_digits s v :
  Products.digits_value s 0 = Some v -> v <= Products.MAX_SAFE_INTEGER ->
  Products.ToNumber (Products.Str s) = Some v.
Proof.
  intros Hs Hv. pose proof (digits_value_nonneg _ _ _ (Z.le_refl 0) Hs).
  cbn. rewrite Hs. cbn. apply safe_within. lia.
Qed.

Lemma minus_eval a b x y :
  Products.ToNumber a = Some x -> Products.ToNumber b = Some y ->
  Z.abs (x - y) <= Products.MAX_SAFE_INTEGER ->
  Products.minus a b = Some (x - y).
Proof.
  intros Ha Hb H. unfold Products.minus. rewrite Ha, Hb. cbn. by apply safe_within.
Qed.

Lemma times_eval a b x y :
  Products.ToNumber a = Some x -> Products.ToNumber b = Some y ->
  Z.abs (x * y) <= Products.MAX_SAFE_INTEGER ->
  Products.times a b = Some (x * y).
Proof.
  intros Ha Hb H. unfold Products.times. rewrite Ha, Hb. cbn. by apply safe_within.
Qed.

Lemma plus_numbers x y :
  Z.abs x <= Products.MAX_SAFE_INTEGER -> Z.abs y <= Products.MAX_SAFE_INTEGER ->
  Z.abs (x + y) <= Products.MAX_SAFE_INTEGER ->
  Products.plus (Products.Num x) (Products.Num y) = Some (Products.Num (x + y)).
Proof.
  intros Hx Hy H. unfold Products.plus. rewrite !ToNumber_num by done. cbn.
  by rewrite safe_within.
Qed.

Lemma plus_joins x s :
  Z.abs x <= Products.MAX_SAFE_INTEGER ->
  Products.plus (Products.Num x) (Products.Str s)
  = Some (Products.Str (Scheduler.decimal x +:+ s)).
Proof. intros Hx. unfold Products.plus. cbn. by rewrite safe_within. Qed.

Lemma getProducts_range_limit P l L :
  1 <= P <= Products.MAX_SAFE_INTEGER -> Products.digits_value l 0 = Some L ->
  (P - 1) * L * 10 ^ Z.of_nat (String.length l) + L <= Products.MAX_SAFE_INTEGER ->
  Products.getProducts_range (Some (Scheduler.decimal P)) (Some l)
  = Some ((P - 1) * L, (P - 1) * L * 10 ^ Z.of_nat (String.length l) + L - 1).
Proof.
  intros HP HL Hjoined.
  pose proof (digits_value_nonneg _ _ _ (Z.le_refl 0) HL) as HL0.
  assert (Hpow : 1 <= 10 ^ Z.of_nat (String.length l)).
  { assert (0 < 10 ^ Z.of_nat (String.length l)) by (apply Z.pow_pos_nonneg; lia). lia. }
  assert (Hoff : 0 <= (P - 1) * L <= Products.MAX_SAFE_INTEGER) by nia.
  assert (HLs : L <= Products.MAX_SAFE_INTEGER) by nia.
  assert (Hj0 : 0 <= (P - 1) * L * 10 ^ Z.of_nat (String.length l) + L) by nia.
  assert (H1 : Z.abs 1 <= Products.MAX_SAFE_INTEGER) by (unfold Products.MAX_SAFE_INTEGER; lia).
  unfold Products.getProducts_range.
  cbn [fmap option_fmap option_map from_option id].
  rewrite (minus_eval _ _ P 1);
    [|apply ToNumber_digits; [apply decimal_value_alone|]; lia
     |by apply ToNumber_num|lia].
  cbn [mbind option_bind].
  rewrite (times_eval _ _ (P - 1) L);
    [|apply ToNumber_num; lia|by apply ToNumber_digits|lia].
  cbn [mbind option_bind].
  rewrite plus_joins by lia. cbn [mbind option_bind].
  rewrite (minus_eval _ _ ((P - 1) * L * 10 ^ Z.of_nat (String.length l) + L) 1);
    [done| |by apply ToNumber_num|lia].
  apply ToNumber_digits; [|done].
  rewrite decimal_value by lia. rewrite digits_value_acc, HL. done.
Qed.

(** X27. The window [getProducts] asks the store for, for a query whose
    numbers stay within the whole numbers binary64 holds exactly.
    Without a [limit] in the query the window of page [P] is the twelve
    rows from [(P - 1) * 12] on. With a [limit] in the query, a string,
    the end of the window is computed by joining the digits of the
    offset and those of the limit: for [page] and [limit] given in
    digits, it is [offset * 10 ^ n + limit - 1], [n] the number of
    digits of the limit; from the second page on the window holds more
    rows than the limit. *)
Theorem getProducts_window P l L :
  1 <= P <= Products.MAX_SAFE_INTEGER -> Products.digits_value l 0 = Some L ->
  let offset := (P - 1) * L in
  let joined := offset * 10 ^ Z.of_nat (String.length l) + L in
  ((P - 1) * 12 + 12 <= Products.MAX_SAFE_INTEGER ->
   Products.getProducts_range (Some (Scheduler.decimal P)) None
   = Some ((P - 1) * 12, window_end ((P - 1) * 12) 12)) /\
  Products.getProducts_range None None = Some (0, window_end 0 12) /\
  (joined <= Products.MAX_SAFE_INTEGER ->
   Products.getProducts_range (Some (Scheduler.decimal P)) (Some l)
   = Some (offset, joined - 1)) /\
  (2 <= P -> 1 <= L -> window_end offset L < joined - 1).
Proof.
  intros HP HL. cbn zeta.
  assert (H1 : Z.abs 1 <= Products.MAX_SAFE_INTEGER) by (unfold Products.MAX_SAFE_INTEGER; lia).
  assert (H12 : Z.abs 12 <= Products.MAX_SAFE_INTEGER)
    by (unfold Products.MAX_SAFE_INTEGER; lia).
  split_and!.
  - intros Hsafe. unfold Products.getProducts_range, window_end.
    cbn [fmap option_fmap option_map from_option id].
    rewrite (minus_eval _ _ P 1);
      [|apply ToNumber_digits; [apply decimal_value_alone|]; lia
       |by apply ToNumber_num|lia].
    cbn [mbind option_bind].
    rewrite (times_eval _ _ (P - 1) 12); [|apply ToNumber_num; lia|by apply ToNumber_num|lia].
    cbn [mbind option_bind].
    rewrite plus_numbers by lia. cbn [mbind option_bind].
    rewrite (minus_eval _ _ ((P - 1) * 12 + 12) 1);
      [done|apply ToNumber_num; lia|by apply ToNumber_num|lia].
  - reflexivity.
  - intros Hjoined. by apply getProducts_range_limit.
  - intros HP2 HL1. unfold window_end.
    destruct l as [|c l]; [cbn in HL; injection HL as <-; lia|].
    cbn [String.length]. rewrite Nat2Z.inj_succ, Z.pow_succ_r by lia.
    assert (0 < 10 ^ Z.of_nat (String.length l)) by (apply Z.pow_pos_nonneg; lia).
    nia.
Qed.

(** ** [bulkImportProducts] *)

Lemma batches_of_enough fuel fuel' (products : list Products.Element) :
  (length products <= fuel)%nat -> (length products <= fuel')%nat ->
  batches_of fuel products = batches_of fuel' products.
Proof.
  revert fuel' products. induction fuel as [|fuel IH]; intros fuel' products H H'.
  { destruct products; [by destruct fuel'|cbn in H; lia]. }
  destruct products as [|p ps]; [by destruct fuel'|].
  destruct fuel' as [|fuel']; [cbn in H'; lia|].
  cbn [batches_of]. f_equal.
  apply IH; rewrite length_drop; cbn [length] in *; lia.
Qed.

Lemma batches_of_fuel fuel (products : list Products.Element) :
  (length products <= fuel)%nat ->
  batches_of fuel products = batches_of (length products) products.
Proof. intros H. by apply batches_of_enough. Qed.

Lemma batches_of_concat fuel (products : list Products.Element) :
  (length products <= fuel)%nat -> concat (batches_of fuel products) = products.
Proof.
  revert products. induction fuel as [|fuel IH]; intros products Hlen.
  { destruct products; [done|cbn in Hlen; lia]. }
  destruct products as [|p ps]; [done|].
  cbn [batches_of concat]. rewrite IH.
  - apply take_drop.
  - rewrite length_drop. cbn in *. lia.
Qed.

Lemma batches_of_length fuel (products : list Products.Element) :
  (length products <= fuel)%nat ->
  (length products <= 10 * length (batches_of fuel products) < length products + 10)%nat.
Proof.
  revert products. induction fuel as [|fuel IH]; intros products Hlen.
  { destruct products; [cbn; lia|cbn in Hlen; lia]. }
  destruct products as [|p ps]; [cbn; lia|].
  cbn [batches_of length].
  specialize (IH (drop 10 (p :: ps))). rewrite length_drop in IH. cbn [length] in *.
  lia.
Qed.

(** A batch of objects is analysed whole; a batch that holds [null]
    rejects. *)
Lemma analyze_each_objects env index batch :
  Products.NullElement ∉ batch ->
  exists items, Products.analyze_each env index batch = Normal items.
Proof.
  revert index. induction batch as [|product rest IH]; intros index Hnull; [by eexists|].
  apply not_elem_of_cons in Hnull as [Hp Hrest].
  cbn [Products.analyze_each].
  destruct (IH (S index) Hrest) as (items & ->).
  destruct product as [|item]; [done|]. cbn [Products.analyzed].
  destruct (Products.try_analysis env index item); by eexists.
Qed.

Lemma analyze_each_null env index batch :
  Products.NullElement ∈ batch ->
  Products.analyze_each env index batch = Throw null_title.
Proof.
  revert index. induction batch as [|product rest IH]; intros index Hnull.
  { by apply elem_of_nil in Hnull. }
  cbn [Products.analyze_each].
  destruct product as [|item]; [done|].
  apply elem_of_cons in Hnull as [Hp|Hrest]; [done|].
  rewrite (IH (S index) Hrest). cbn [Products.analyzed].
  by destruct (Products.try_analysis env index item).
Qed.

Lemma batches_of_step (rest : list Products.Element) :
  rest <> [] ->
  batches_of (length rest) rest
  = take 10 rest :: batches_of (length (drop 10 rest)) (drop 10 rest).
Proof.
  intros Hne. destruct rest as [|p ps]; [done|].
  cbn [length batches_of]. f_equal.
  apply batches_of_fuel. rewrite length_drop. cbn. lia.
Qed.

(** The loop on an array of objects. *)
Lemma import_from_objects env fuel i products results st :
  (forall j batch e, Products.insert env j batch <> Products.Rejects e) ->
  Products.NullElement ∉ drop i products ->
  (length (drop i products) < fuel)%nat ->
  exists new st',
    Products.import_from env fuel i products results st = (Normal (results ++ new), st') /\
    Forall2 batch_of new (batches_of (length (drop i products)) (drop i products)) /\
    Products.importing st' = Products.importing st /\
    length (Products.inserted st') = (length (Products.inserted st) + length new)%nat.
Proof.
  intros Hins. revert i results st.
  induction fuel as [|fuel IH]; intros i results st Hnull Hfuel; [lia|].
  cbn [Products.import_from].
  destruct (Nat.ltb_spec i (length products)) as [Hlt|Hge].
  2:{ exists [], st. rewrite app_nil_r. split; [done|].
      rewrite drop_ge by lia. split; [constructor|]. split; [done|]. cbn. lia. }
  assert (Hrest : drop i products <> []).
  { intros H. apply (f_equal length) in H. rewrite length_drop in H. cbn in H. lia. }
  assert (Hnext : drop (i + 10) products = drop 10 (drop i products)).
  { rewrite drop_drop. done. }
  assert (Hlen : (length (drop (i + 10) products) < fuel)%nat).
  { rewrite Hnext, length_drop. rewrite length_drop in Hfuel |- *. lia. }
  assert (Hnull' : Products.NullElement ∉ drop (i + 10) products).
  { rewrite Hnext. intros Hin. apply Hnull.
    eapply elem_of_sublist; [exact Hin|apply sublist_drop]. }
  rewrite (batches_of_step _ Hrest), <- Hnext.
  destruct (analyze_each_objects env i (take 10 (drop i products))) as (items & ->).
  { intros Hin. apply Hnull. eapply elem_of_sublist; [exact Hin|apply sublist_take]. }
  destruct (Products.insert env i items) as [data|e|e] eqn:Hi.
  - edestruct (IH (i + 10)%nat) as (new & st' & -> & Hnew & Himp & Hsent); [done..|].
    eexists (_ :: new), st'. rewrite <- app_assoc. split; [reflexivity|].
    split; [constructor; [reflexivity|done]|]. split; [done|].
    rewrite Hsent. cbn. rewrite length_app. cbn. lia.
  - edestruct (IH (i + 10)%nat) as (new & st' & -> & Hnew & Himp & Hsent); [done..|].
    eexists (_ :: new), st'. rewrite <- app_assoc. split; [reflexivity|].
    split; [constructor; [reflexivity|done]|]. split; [done|].
    rewrite Hsent. cbn. rewrite length_app. cbn. lia.
  - by destruct (Hins _ _ _ Hi).
Qed.

(** The loop on an array whose first [null] is at the index [k]: the
    batches before the one that holds it are sent, and that one
    rejects. *)
Lemma import_from_null env fuel i k products results st :
  (forall j batch e, Products.insert env j batch <> Products.Rejects e) ->
  (i <= k)%nat -> products !! k = Some Products.NullElement ->
  Products.NullElement ∉ take (k - i) (drop i products) ->
  (length (drop i products) < fuel)%nat ->
  exists st',
    Products.import_from env fuel i products results st = (Throw null_title, st') /\
    Products.importing st' = Products.importing st /\
    length (Products.inserted st')
    = (length (Products.inserted st) + (k - i) / 10)%nat.
Proof.
  intros Hins. revert i results st.
  induction fuel as [|fuel IH]; intros i results st Hik Hk Hnull Hfuel; [lia|].
  cbn [Products.import_from].
  pose proof (lookup_lt_Some _ _ _ Hk) as Hklt.
  rewrite (proj2 (Nat.ltb_lt i (length products))) by lia.
  destruct (Nat.lt_ge_cases k (i + 10)) as [Hnear|Hfar].
  - rewrite analyze_each_null.
    + eexists. split; [reflexivity|]. split; [done|].
      cbn [Products.importing Products.inserted].
      rewrite Nat.div_small by lia. lia.
    + apply (list_elem_of_lookup_2 _ (k - i)%nat).
      rewrite lookup_take_lt by lia. rewrite lookup_drop.
      rewrite <- Hk. f_equal. lia.
  - destruct (analyze_each_objects env i (take 10 (drop i products))) as (items & ->).
    { intros Hin. apply Hnull.
      replace (take 10 (drop i products))
        with (take 10 (take (k - i) (drop i products))) in Hin
        by (rewrite take_take; f_equal; lia).
      eapply elem_of_sublist; [exact Hin|apply sublist_take]. }
    assert (Hnext : drop (i + 10) products = drop 10 (drop i products)).
    { rewrite drop_drop. done. }
    assert (Hlen : (length (drop (i + 10) products) < fuel)%nat).
    { rewrite Hnext, length_drop. rewrite length_drop in Hfuel |- *. lia. }
    assert (Hnull' : Products.NullElement ∉ take (k - (i + 10)) (drop (i + 10) products)).
    { intros Hin. apply Hnull. rewrite Hnext in Hin.
      replace (k - i)%nat with (10 + (k - (i + 10)))%nat by lia.
      rewrite <- (take_drop 10 (drop i products)) at 1.
      rewrite take_app_add'; [apply elem_of_app; by right|].
      rewrite length_take, length_drop. lia. }
    assert (Hdiv : ((k - i) / 10 = S ((k - (i + 10)) / 10))%nat).
    { replace (k - i)%nat with ((k - (i + 10)) + 1 * 10)%nat by lia.
      rewrite Nat.div_add by lia. lia. }
    destruct (Products.insert env i items) as [data|e|e] eqn:Hi.
    + edestruct (IH (i + 10)%nat) as (st' & -> & Himp & Hsent); [lia|done..|].
      exists st'. split; [done|]. split; [done|].
      rewrite Hsent, Hdiv. cbn [Products.inserted]. rewrite length_app. cbn [length]. lia.
    + edestruct (IH (i + 10)%nat) as (st' & -> & Himp & Hsent); [lia|done..|].
      exists st'. split; [done|]. split; [done|].
      rewrite Hsent, Hdiv. cbn [Products.inserted]. rewrite length_app. cbn [length]. lia.
    + by destruct (Hins _ _ _ Hi).
Qed.

Lemma bulkImportProducts_run env products st :
  Products.initialized env = true -> products <> [] ->
  Products.bulkImportProducts env (Some products) st
  = match Products.import_from env (S (length products)) 0 products [] st with
    | (Normal results, st') =>
        (Products.mkResponse 200 (Products.Imported (length products) results), st')
    | (Throw error, st') =>
        (Products.mkResponse 500 (Products.ServerError "Error al importar productos en lote"),
         Products.mkState (Products.analyzing st') (Products.inserting st')
           (Products.importing st' ++ [error]) (Products.inserted st'))
    end.
Proof.
  intros Hinit Hne. unfold Products.bulkImportProducts. rewrite Hinit.
  by destruct products.
Qed.

(** X28. What [bulkImportProducts] answers to a non-empty array, with a
    client and no insert that rejects. When every element is an object,
    the answer is a success that reports all products as processed: the
    products are sent batch by batch, ten at a time and the rest in the
    last one, every batch has one entry in the results, and an insert
    the store answers with an error puts the batch as submitted into its
    entry and changes nothing else about the answer. When an element is
    [null], the answer is the error 500: the batches before the one that
    holds the first [null] have been sent to the store, that batch and
    the later ones are not, and the error of reading the title of [null]
    is printed. *)
Theorem bulkImportProducts_reports env products st :
  Products.initialized env = true -> products <> [] ->
  (forall j batch e, Products.insert env j batch <> Products.Rejects e) ->
  let batches := batches_of (length products) products in
  let answer := Products.bulkImportProducts env (Some products) st in
  (Products.NullElement ∉ products ->
   exists results,
     answer.1 = Products.mkResponse 200 (Products.Imported (length products) results) /\
     Forall2 batch_of results batches /\
     concat batches = products /\
     Forall (fun batch => (1 <= length batch <= 10)%nat) batches /\
     (length products <= 10 * length results < length products + 10)%nat /\
     Products.importing answer.2 = Products.importing st /\
     length (Products.inserted answer.2)
     = (length (Products.inserted st) + length batches)%nat) /\
  (forall k, products !! k = Some Products.NullElement ->
     Products.NullElement ∉ take k products ->
     answer.1
     = Products.mkResponse 500 (Products.ServerError "Error al importar productos en lote") /\
     Products.importing answer.2 = Products.importing st ++ [null_title] /\
     length (Products.inserted answer.2)
     = (length (Products.inserted st) + k / 10)%nat).
Proof.
  intros Hinit Hne Hins. cbn zeta. rewrite bulkImportProducts_run by done. split.
  - intros Hnull.
    destruct (import_from_objects env (S (length products)) 0 products [] st Hins)
      as (new & st' & Hrun & Hnew & Himp & Hsent).
    { by rewrite drop_0. }
    { rewrite drop_0. lia. }
    rewrite drop_0 in Hnew. rewrite Hrun. cbn [app fst snd].
    exists new. split_and!; try done.
    + by apply batches_of_concat.
    + clear. generalize (length products) as fuel. intros fuel. revert products.
      induction fuel as [|fuel IH]; intros products; [constructor|].
      destruct products as [|p ps]; [constructor|].
      cbn [batches_of]. constructor; [|apply IH].
      rewrite length_take. cbn [length]. lia.
    + rewrite (Forall2_length _ _ _ Hnew). by apply batches_of_length.
    + rewrite (Forall2_length _ _ _ Hnew). by apply batches_of_length.
    + by rewrite Hsent, (Forall2_length _ _ _ Hnew).
  - intros k Hk Hfirst.
    destruct (import_from_null env (S (length products)) 0 k products [] st Hins)
      as (st' & Hrun & Himp & Hsent).
    { lia. } { done. } { by rewrite drop_0, Nat.sub_0_r. } { rewrite drop_0. lia. }
    rewrite Hrun. cbn [fst snd Products.importing Products.inserted].
    rewrite Nat.sub_0_r in Hsent. by rewrite Himp, Hsent.
Qed.

(** ** A concrete page and a concrete import *)

(** The second page of twelve: the store is asked for the rows 12 to
    1211. *)
Lemma getProducts_window_witness :
  1 <= 2 <= Products.MAX_SAFE_INTEGER /\ Products.digits_value "12" 0 = Some 12 /\
  Products.getProducts_range (Some "2") (Some "12") = Some (12, 1211) /\
  Products.getProducts_range (Some "2") None = Some (12, 23).
Proof.
  assert (H1 : 1 <= 2 <= Products.MAX_SAFE_INTEGER) by (vm_compute; split; discriminate).
  assert (H2 : Products.digits_value "12" 0 = Some 12) by reflexivity.
  split; [exact H1|]. split; [exact H2|].
  destruct (getProducts_window 2 "12" 12 H1 H2) as (Ha & _ & Hb & _).
  split.
  - apply Hb. vm_compute. discriminate.
  - apply Ha. vm_compute. discriminate.
Defined.

(** Twelve products and a store that takes none: the answer is a
    success that reports twelve processed products, in two batches. With
    [null] in the twelfth place the first batch is sent and the answer
    is the error. *)
Lemma bulkImportProducts_reports_witness :
  let products := lamp <$> [1; 2; 3; 4; 5; 6; 7; 8; 9; 10; 11; 12] in
  let broken := (lamp <$> [1; 2; 3; 4; 5; 6; 7; 8; 9; 10; 11]) ++ [Products.NullElement] in
  Products.initialized refusing = true /\ products <> [] /\ broken <> [] /\
  (forall j batch e, Products.insert refusing j batch <> Products.Rejects e) /\
  (exists results,
     (Products.bulkImportProducts refusing (Some products) idle).1
     = Products.mkResponse 200 (Products.Imported 12 results) /\
     Forall2 batch_of results [take 10 products; drop 10 products]) /\
  length (Products.inserted (Products.bulkImportProducts refusing (Some products) idle).2)
  = 2%nat /\
  (Products.bulkImportProducts refusing (Some broken) idle).1
  = Products.mkResponse 500 (Products.ServerError "Error al importar productos en lote") /\
  Products.importing (Products.bulkImportProducts refusing (Some broken) idle).2
  = [null_title] /\
  length (Products.inserted (Products.bulkImportProducts refusing (Some broken) idle).2)
  = 1%nat.
Proof.
  cbv zeta.
  assert (H2 : lamp <$> [1; 2; 3; 4; 5; 6; 7; 8; 9; 10; 11; 12] <> []) by discriminate.
  assert (H2' : (lamp <$> [1; 2; 3; 4; 5; 6; 7; 8; 9; 10; 11]) ++ [Products.NullElement]
                <> []) by discriminate.
  assert (H3 : forall j batch e, Products.insert refusing j batch <> Products.Rejects e)
    by discriminate.
  split; [reflexivity|]. split; [exact H2|]. split; [exact H2'|]. split; [exact H3|].
  destruct (bulkImportProducts_reports refusing _ idle eq_refl H2 H3) as [Hok _].
  destruct Hok as (results & Hrun & Hres & _ & _ & _ & _ & Hsent).
  { intros Hin. repeat (apply elem_of_cons in Hin as [Hin|Hin]; [discriminate Hin|]).
    by apply elem_of_nil in Hin. }
  destruct (bulkImportProducts_reports refusing _ idle eq_refl H2' H3) as [_ Hnull].
  destruct (Hnull 11%nat eq_refl) as (Hcode & Himp & Hsent').
  { intros Hin. repeat (apply elem_of_cons in Hin as [Hin|Hin]; [discriminate Hin|]).
    by apply elem_of_nil in Hin. }
  split; [by exists results|]. split; [exact Hsent|].
  split; [exact Hcode|]. split; [exact Himp | exact Hsent'].
Defined.

(** * Order status and tracking *)

Lemma set_tracking_lookup id data s k :
  db_order_items (Tracking.tables (Tracking.set_tracking id data s)) !! k
  = (fun r => if Tracking.matches id r then Tracking.in_transit r else r)
      <$> db_order_items (Tracking.tables s) !! k /\
  Tracking.tracked (Tracking.set_tracking id data s) !! k
  = match db_order_items (Tracking.tables s) !! k with
    | Some r =>
        if Tracking.matches id r then Some (Tracking.mkTracked ("TRK" +:+ id) data)
        else Tracking.tracked s !! k
    | None => Tracking.tracked s !! k
    end.
Proof.
  unfold Tracking.set_tracking. cbn. split; [apply lookup_fmap|].
  rewrite lookup_union, lookup_fmap, map_lookup_filter.
  destruct (db_order_items (Tracking.tables s) !! k) as [r|]; cbn.
  - destruct (Tracking.matches id r) eqn:Hm.
    + rewrite option_guard_True by done. cbn.
      by destruct (Tracking.tracked s !! k).
    + rewrite option_guard_False by done. cbn.
      by destruct (Tracking.tracked s !! k).
  - by destruct (Tracking.tracked s !! k).
Qed.

Lemma track_run env id supplier st :
  Tracking.initialized env = true -> steady env ->
  Tracking.track env id supplier st
  = match Tracking.update env st with
    | Applied =>
        (Normal (reported env),
         Tracking.mkState (Tracking.set_tracking id (reported env) (Tracking.store st))
           (Tracking.console st))
    | Rejected => (Normal (reported env), st)
    | Raises error => (Throw error, st)
    end.
Proof.
  intros Hinit (H0 & H1 & H2 & H3). unfold Tracking.track, Tracking.toISOString.
  repeat match goal with
         | |- context [Z.abs ?t <=? ?b] =>
             destruct (Z.leb_spec (Z.abs t) b); [|lia]
         end.
  rewrite Hinit. reflexivity.
Qed.

(** X29. What tracking a supplier order does. With a client, a store
    that takes the update and a steady clock, [trackSupplierOrder]
    returns the same made-up data for every identifier, known or not:
    the order is [in_transit], was processed a day before the call and
    shipped half a day before it, and is due two days after it. Every
    row of [order_items] that carries the identifier becomes
    [in_transit] with the tracking number ["TRK"] and the identifier;
    every other row, the orders and the transfers are as they were, and
    nothing is printed. *)
Theorem trackSupplierOrder_effects env id supplier st :
  Tracking.initialized env = true -> Tracking.update env st = Applied -> steady env ->
  let after := (Tracking.trackSupplierOrder env id supplier st).2 in
  let before := Tracking.tables (Tracking.store st) in
  (Tracking.trackSupplierOrder env id supplier st).1 = Normal (reported env) /\
  Forall2 (fun event name =>
             Tracking.event_status event = name /\
             Tracking.now env 0 - 86400000 <= Tracking.timestamp event
             < Tracking.estimated_delivery (reported env))
          (Tracking.tracking_events (reported env)) ["order_processed"; "shipped"] /\
  StronglySorted (fun a b => Tracking.timestamp a < Tracking.timestamp b)
                 (Tracking.tracking_events (reported env)) /\
  Tracking.console after = Tracking.console st /\
  db_orders (Tracking.tables (Tracking.store after)) = db_orders before /\
  db_profit_transfers (Tracking.tables (Tracking.store after)) = db_profit_transfers before /\
  forall k,
    match db_order_items before !! k with
    | Some r =>
        if bool_decide (supplier_order_id r = Some id) then
          db_order_items (Tracking.tables (Tracking.store after)) !! k
          = Some (Tracking.in_transit r) /\
          Tracking.tracked (Tracking.store after) !! k
          = Some (Tracking.mkTracked ("TRK" +:+ id) (reported env))
        else
          db_order_items (Tracking.tables (Tracking.store after)) !! k = Some r /\
          Tracking.tracked (Tracking.store after) !! k = Tracking.tracked (Tracking.store st) !! k
    | None =>
        db_order_items (Tracking.tables (Tracking.store after)) !! k = None /\
        Tracking.tracked (Tracking.store after) !! k = Tracking.tracked (Tracking.store st) !! k
    end.
Proof.
  intros Hinit Hup Hsteady. cbn zeta.
  unfold Tracking.trackSupplierOrder. rewrite track_run, Hup by done. cbn [fst snd].
  destruct Hsteady as (H0 & H1 & H2 & H3).
  split_and!; try done.
  - repeat constructor; cbn; lia.
  - repeat constructor; cbn; lia.
  - intros k.
    destruct (set_tracking_lookup id (reported env) (Tracking.store st) k) as [Hi Ht].
    cbn [Tracking.store]. rewrite Hi, Ht.
    destruct (db_order_items (Tracking.tables (Tracking.store st)) !! k) as [r|]; [|done].
    cbn. unfold Tracking.matches. by case_bool_decide.
Qed.

Lemma in_transit_keeps r :
  supplier_order_id (Tracking.in_transit r) = supplier_order_id r /\
  item_order_id (Tracking.in_transit r) = item_order_id r /\
  supplier (Tracking.in_transit r) = supplier r.
Proof. done. Qed.

(** X30. The status read after tracking. After [trackSupplierOrder] went
    through for an identifier, [getOrderStatus] of an existing order
    returns, changes nothing, and reports every item of the order that
    carries the identifier as [in_transit] with the tracking number
    ["TRK"] and the identifier. *)
Theorem getOrderStatus_after_tracking env id supplier st orderId row :
  Tracking.initialized env = true -> Tracking.update env st = Applied -> steady env ->
  let after := (Tracking.trackSupplierOrder env id supplier st).2 in
  Tracking.select_error env after = None ->
  db_orders (Tracking.tables (Tracking.store st)) !! orderId = Some row ->
  exists found,
    Tracking.getOrderStatus env orderId after = (Normal found, after) /\
    order_id (Tracking.order found) = orderId /\
    order_row (Tracking.order found) = row /\
    Forall (fun entry =>
              Tracking.entry_supplier_order_id entry = Some id ->
              Tracking.entry_status entry = "in_transit" /\
              Tracking.entry_tracking_number entry = Some ("TRK" +:+ id))
           (Tracking.supplierOrders found).
Proof.
  intros Hinit Hup Hsteady after Hsel Hrow.
  assert (Hafter : after
                   = Tracking.mkState
                       (Tracking.set_tracking id (reported env) (Tracking.store st))
                       (Tracking.console st)).
  { unfold after, Tracking.trackSupplierOrder. by rewrite track_run, Hup. }
  unfold Tracking.getOrderStatus, Tracking.read_status. rewrite Hinit, Hsel.
  assert (Ho : db_orders (Tracking.tables (Tracking.store after)) !! orderId = Some row).
  { by rewrite Hafter. }
  rewrite Ho. eexists. split; [reflexivity|]. cbn [Tracking.order Tracking.supplierOrders].
  split; [done|]. split; [done|].
  apply Forall_fmap, Forall_forall. intros item Hin.
  apply items_of_elem in Hin as [Hlook _].
  unfold Tracking.entry_of. cbn. intros Hid.
  rewrite Hafter in Hlook |- *. cbn [Tracking.store] in *.
  destruct (set_tracking_lookup id (reported env) (Tracking.store st) (item_id item))
    as [Hi Ht].
  rewrite Hi in Hlook. rewrite Ht.
  destruct (db_order_items (Tracking.tables (Tracking.store st)) !! item_id item)
    as [r|]; [|done].
  cbn in Hlook. injection Hlook as Hr.
  assert (Hm : Tracking.matches id r = true).
  { unfold Tracking.matches. apply bool_decide_eq_true_2.
    rewrite <- Hid, <- Hr. by destruct (Tracking.matches id r). }
  rewrite Hm in Hr |- *. split; [by rewrite <- Hr | done].
Qed.

(** ** A concrete tracking *)

Lemma steady_tracking_env : steady tracking_env.
Proof. unfold steady. cbn. lia. Qed.

Lemma trackSupplierOrder_effects_witness :
  let after :=
    (Tracking.trackSupplierOrder tracking_env "17000000AB12CD" "Amazon" tracking_start).2 in
  Tracking.initialized tracking_env = true /\
  Tracking.update tracking_env tracking_start = Applied /\ steady tracking_env /\
  (Tracking.trackSupplierOrder tracking_env "17000000AB12CD" "Amazon" tracking_start).1
  = Normal (reported tracking_env) /\
  supplier_status <$> db_order_items (Tracking.tables (Tracking.store after)) !! "i1"
  = Some "in_transit" /\
  supplier_status <$> db_order_items (Tracking.tables (Tracking.store after)) !! "i3"
  = Some "pending".
Proof.
  cbv zeta. split; [reflexivity|]. split; [reflexivity|].
  split; [exact steady_tracking_env|].
  split.
  - exact (proj1 (trackSupplierOrder_effects tracking_env "17000000AB12CD" "Amazon"
                    tracking_start eq_refl eq_refl steady_tracking_env)).
  - split; vm_compute; reflexivity.
Defined.

Lemma getOrderStatus_after_tracking_witness :
  let after :=
    (Tracking.trackSupplierOrder tracking_env "17000000AB12CD" "Amazon" tracking_start).2 in
  Tracking.initialized tracking_env = true /\
  Tracking.update tracking_env tracking_start = Applied /\ steady tracking_env /\
  Tracking.select_error tracking_env after = None /\
  db_orders (Tracking.tables (Tracking.store tracking_start)) !! "o1"
  = Some order1_row_settled /\
  exists found,
    Tracking.getOrderStatus tracking_env "o1" after = (Normal found, after) /\
    order_id (Tracking.order found) = "o1" /\
    order_row (Tracking.order found) = order1_row_settled /\
    Forall (fun entry =>
              Tracking.entry_supplier_order_id entry = Some "17000000AB12CD" ->
              Tracking.entry_status entry = "in_transit" /\
              Tracking.entry_tracking_number entry = Some "TRK17000000AB12CD")
           (Tracking.supplierOrders found).
Proof.
  cbv zeta.
  assert (H : db_orders (Tracking.tables (Tracking.store tracking_start)) !! "o1"
              = Some order1_row_settled) by (vm_compute; reflexivity).
  split; [reflexivity|]. split; [reflexivity|].
  split; [exact steady_tracking_env|]. split; [reflexivity|]. split; [exact H|].
  exact (getOrderStatus_after_tracking tracking_env "17000000AB12CD" "Amazon"
           tracking_start "o1" _ eq_refl eq_refl steady_tracking_env eq_refl H).
Defined.
